(** * The Starsector extension of Vortex: game discovery and mod installer

    A shallow embedding of [game-starsector/index.js] and of the library
    functions it calls, followed by the properties of the installer, of the
    probe, of the comment-stripping expression and of the game locator.

    Conventions of the embedding.
    - A JavaScript string is a [string]: a sequence of code units below 256.
      The line terminators U+2028 and U+2029 and the white space above
      U+00FF are therefore outside the model.
    - [path] is Node's POSIX flavour ([path.sep] is a forward slash), the
      convention of the package paths written in the documentation.
    - A promise that is returned is its outcome: a value or an [error].
      Calls to the host (registry, file system, log) are recorded, in order,
      in a trace of [event]s. *)

From Stdlib Require Import String Ascii List ZArith Lia Bool Arith QArith.
Import ListNotations.
Local Open Scope list_scope.
Local Open Scope string_scope.

Set Implicit Arguments.

(* ================================================================== *)
(** ** JavaScript strings *)

Module JS.

(** [s.length] *)
Definition length (s : string) : nat := String.length s.

(** [s.startsWith(p)] *)
Definition startsWith (s p : string) : bool := String.prefix p s.

(** [s.substring(n)]: the code units from index [n] on; empty when [n] is
    past the end. *)
Fixpoint substring (n : nat) (s : string) : string :=
  match n, s with
  | O, _ => s
  | S _, EmptyString => EmptyString
  | S n', String _ s' => substring n' s'
  end.

(** [s.slice(a, b)] for [0 <= a] and [0 <= b]. *)
Definition slice (a b : nat) (s : string) : string :=
  String.substring a (b - a) s.

(** [s.endsWith(p)] *)
Definition endsWith (s p : string) : bool :=
  (length p <=? length s)%nat
  && String.eqb (substring (length s - length p) s) p.

(** [s.indexOf(p)]: the first index at which [p] occurs in [s], or -1. *)
Fixpoint indexOf_from (i : nat) (s p : string) : Z :=
  if String.prefix p s then Z.of_nat i
  else match s with
       | EmptyString => (-1)%Z
       | String _ s' => indexOf_from (S i) s' p
       end.

Definition indexOf (s p : string) : Z := indexOf_from 0 s p.

(** [s.lastIndexOf(p)] for a one-character [p]. *)
Fixpoint lastIndexOf_from (i : nat) (s : string) (c : ascii) (found : Z) : Z :=
  match s with
  | EmptyString => found
  | String a s' =>
      lastIndexOf_from (S i) s' c (if Ascii.eqb a c then Z.of_nat i else found)
  end.

Definition lastIndexOf (s : string) (c : ascii) : Z :=
  lastIndexOf_from 0 s c (-1)%Z.

(** [s.charCodeAt(i)], [None] standing for NaN. *)
Definition charAt (s : string) (i : nat) : option ascii := String.get i s.

(** White space and line terminators, as [String.prototype.trim] sees
    them: TAB, LF, VT, FF, CR, SP and NBSP. *)
Definition is_trim_space (c : ascii) : bool :=
  let n := nat_of_ascii c in
  ((9 <=? n) && (n <=? 13) || (n =? 32) || (n =? 160))%nat.

Fixpoint trimStart (s : string) : string :=
  match s with
  | EmptyString => EmptyString
  | String c s' => if is_trim_space c then trimStart s' else s
  end.

(** [trimEnd] keeps a character when it is not white space or when
    something is left after it. *)
Fixpoint trimEnd (s : string) : string :=
  match s with
  | EmptyString => EmptyString
  | String c s' =>
      match trimEnd s' with
      | EmptyString => if is_trim_space c then EmptyString else String c EmptyString
      | t => String c t
      end
  end.

(** [s.trim()] *)
Definition trim (s : string) : string := trimEnd (trimStart s).

End JS.

(* ================================================================== *)
(** ** Errors and values *)

(** What a rejected promise carries. *)
Inductive error : Type :=
| TypeError                      (* raised by the engine or by an argument check *)
| PlainError (message : string)  (* [new Error(message)] *)
| DataInvalid (message : string) (* [new util.DataInvalid(message)] *)
| HostError (code : string).     (* raised by the file system or the registry *)

(** The values [rjson.parse] returns, and [undefined]. An object is the
    list of its own properties. *)
#[warnings="-register-all"]
Inductive jsval : Type :=
| JUndefined
| JNull
| JBool (b : bool)
| JNum (q : Q)
| JStr (s : string)
| JArr (items : list jsval)
| JObj (props : list (string * jsval)).

(** What the variable [outputPath] may hold: a string, or the rejected
    promise built by [Promise.reject]. *)
Inductive pathval : Type :=
| PStr (s : string)
| PRejected (e : error).

(* ================================================================== *)
(** ** Node's [path] module, POSIX flavour *)

Module Path.

Definition sep : string := "/".
Definition slash : ascii := "/"%char.
Definition dot : ascii := "."%char.

Definition is_slash_at (p : string) (i : nat) : bool :=
  match JS.charAt p i with
  | Some c => Ascii.eqb c slash
  | None => false
  end.

(** The loop of [basename]: [i] runs from [n - 1] down to 0. [start] is
    the index after the last separator that is followed by a name, [end_]
    (initially -1, here [None]) the index after the last character that
    is not a trailing separator. *)
Fixpoint basename_loop (p : string) (n : nat) (end_ : option nat)
         (matchedSlash : bool) : nat * option nat :=
  match n with
  | O => (0%nat, end_)
  | S i =>
      if is_slash_at p i then
        if negb matchedSlash then (S i, end_)
        else basename_loop p i end_ matchedSlash
      else
        match end_ with
        | None => basename_loop p i (Some (S i)) false
        | Some _ => basename_loop p i end_ matchedSlash
        end
  end.

(** [path.basename(p)] *)
Definition basename (p : string) : string :=
  match basename_loop p (JS.length p) None true with
  | (_, None) => ""
  | (start, Some e) => JS.slice start e p
  end.

(** The loop of [dirname]: [i] runs from [n] down to 1. *)
Fixpoint dirname_loop (p : string) (n : nat) (matchedSlash : bool) : option nat :=
  match n with
  | O => None
  | S i =>
      if is_slash_at p (S i) then
        if negb matchedSlash then Some (S i)
        else dirname_loop p i matchedSlash
      else dirname_loop p i false
  end.

(** [path.dirname(p)] *)
Definition dirname (p : string) : string :=
  if (JS.length p =? 0)%nat then "."
  else
    let hasRoot := is_slash_at p 0 in
    match dirname_loop p (JS.length p - 1) true with
    | None => if hasRoot then "/" else "."
    | Some e => if hasRoot && (e =? 1)%nat then "//" else JS.slice 0 e p
    end.

(** The state of the loop of [normalizeString]. *)
Record nstate : Type := NState {
  res : string;
  lastSegmentLength : Z;
  lastSlash : Z;
  dots : Z;
  code : ascii
}.

(** What happens at a separator when [dots] is 2: one segment of [res] is
    dropped, or [..] is appended when there is nothing to drop and the
    path is relative. *)
Definition dotdot_segment (allowAboveRoot : bool) (st : nstate) (i : nat) : nstate :=
  let r := res st in
  let n := JS.length r in
  let ends_in_dots :=
    negb ((n <? 2)%nat)
    && (lastSegmentLength st =? 2)%Z
    && match JS.charAt r (n - 1), JS.charAt r (n - 2) with
       | Some a, Some b => Ascii.eqb a dot && Ascii.eqb b dot
       | _, _ => false
       end in
  let above :=
    if allowAboveRoot
    then NState (if (0 <? n)%nat then r ++ "/.." else "..") 2 (Z.of_nat i) 0 (code st)
    else NState r (lastSegmentLength st) (Z.of_nat i) 0 (code st) in
  if ends_in_dots then above
  else if (2 <? n)%nat then
    let k := JS.lastIndexOf r slash in
    if (k =? -1)%Z then NState "" 0 (Z.of_nat i) 0 (code st)
    else
      let r' := JS.slice 0 (Z.to_nat k) r in
      NState r' (Z.of_nat (JS.length r') - 1 - JS.lastIndexOf r' slash)
             (Z.of_nat i) 0 (code st)
  else if negb (n =? 0)%nat then NState "" 0 (Z.of_nat i) 0 (code st)
  else above.

(** One turn of the loop of [normalizeString], at index [i] with the
    character [c] already chosen. *)
Definition normalize_step (p : string) (allowAboveRoot : bool)
           (st : nstate) (i : nat) (c : ascii) : nstate :=
  let st := NState (res st) (lastSegmentLength st) (lastSlash st) (dots st) c in
  if Ascii.eqb c slash then
    if (lastSlash st =? Z.of_nat i - 1)%Z || (dots st =? 1)%Z then
      NState (res st) (lastSegmentLength st) (Z.of_nat i) 0 c
    else if (dots st =? 2)%Z then dotdot_segment allowAboveRoot st i
    else
      let seg := JS.slice (Z.to_nat (lastSlash st + 1)) i p in
      NState (if (0 <? JS.length (res st))%nat then res st ++ "/" ++ seg else seg)
             (Z.of_nat i - lastSlash st - 1) (Z.of_nat i) 0 c
  else if Ascii.eqb c dot && negb (dots st =? -1)%Z then
    NState (res st) (lastSegmentLength st) (lastSlash st) (dots st + 1) c
  else
    NState (res st) (lastSegmentLength st) (lastSlash st) (-1) c.

(** The loop itself: [i] runs from 0 to the length of [p] included; past
    the end a separator is supplied unless the last character was one. *)
Fixpoint normalize_loop (p : string) (allowAboveRoot : bool)
         (fuel : nat) (i : nat) (st : nstate) : string :=
  match fuel with
  | O => res st
  | S fuel' =>
      match JS.charAt p i with
      | Some c =>
          normalize_loop p allowAboveRoot fuel' (S i)
                         (normalize_step p allowAboveRoot st i c)
      | None =>
          if Ascii.eqb (code st) slash then res st
          else res (normalize_step p allowAboveRoot st i slash)
      end
  end.

Definition normalizeString (p : string) (allowAboveRoot : bool) : string :=
  normalize_loop p allowAboveRoot (S (JS.length p)) 0
                 (NState "" 0 (-1) 0 zero).

(** [path.normalize(p)] *)
Definition normalize (p : string) : string :=
  if (JS.length p =? 0)%nat then "."
  else
    let isAbsolute := is_slash_at p 0 in
    let trailingSeparator := is_slash_at p (JS.length p - 1) in
    let q := normalizeString p (negb isAbsolute) in
    if (JS.length q =? 0)%nat then
      if isAbsolute then "/" else if trailingSeparator then "./" else "."
    else
      let q := if trailingSeparator then q ++ "/" else q in
      if isAbsolute then "/" ++ q else q.

(** The loop of [join] over its arguments: every argument is checked to
    be a string (a [TypeError] otherwise) and the non-empty ones are
    glued with separators. [None] is [joined === undefined]. *)
Fixpoint join_loop (args : list pathval) (joined : option string)
  : error + option string :=
  match args with
  | [] => inr joined
  | PRejected _ :: _ => inl TypeError
  | PStr arg :: rest =>
      if (0 <? JS.length arg)%nat then
        join_loop rest (Some match joined with
                             | None => arg
                             | Some j => j ++ "/" ++ arg
                             end)
      else join_loop rest joined
  end.

(** [path.join(...args)] *)
Definition join (args : list pathval) : error + string :=
  match join_loop args None with
  | inl e => inl e
  | inr None => inr "."
  | inr (Some joined) => inr (normalize joined)
  end.

End Path.

(* ================================================================== *)
(** ** Regular expressions: a backtracking matcher

    The matcher follows the semantics of the ECMAScript specification: a
    pattern is compiled to a function of a state (the text still to read
    and the captures made so far) and of a continuation, and alternatives
    are tried in order. Only the constructs that occur in the expression
    of the extension are present. *)

Module RegExp.

Local Open Scope list_scope.

Inductive regex : Type :=
| Chr (c : ascii)              (* a character, possibly written escaped *)
| Dot                          (* [.]: anything but a line terminator *)
| AnyChar                      (* the class [[\s\S]] *)
| OneOf (cs : list ascii)      (* a class of listed characters *)
| Cat (r1 r2 : regex)          (* r1 r2 *)
| Alt (r1 r2 : regex)          (* r1|r2 *)
| LazyStar (r : regex)         (* r*? *)
| Group (n : nat) (r : regex)  (* the n-th capturing parenthesis *)
| BackRef (n : nat)            (* \n *)
| NotAhead (r : regex)         (* (?!r) *)
| EndOfLine.                   (* [$] under the flag m *)

Definition captures : Type := list (nat * list ascii).

Fixpoint capture (n : nat) (caps : captures) : option (list ascii) :=
  match caps with
  | [] => None
  | (k, s) :: caps' => if (k =? n)%nat then Some s else capture n caps'
  end.

(** A state: the rest of the input and the captures. *)
Definition state : Type := (list ascii * captures)%type.

Definition is_line_terminator (c : ascii) : bool :=
  Ascii.eqb c "010"%char || Ascii.eqb c "013"%char.

Fixpoint mem (c : ascii) (cs : list ascii) : bool :=
  match cs with
  | [] => false
  | a :: cs' => Ascii.eqb a c || mem c cs'
  end.

(** One character accepted by [ok]. *)
Definition char_matcher (ok : ascii -> bool) (x : state)
           (k : state -> option state) : option state :=
  match fst x with
  | [] => None
  | a :: t => if ok a then k (t, snd x) else None
  end.

(** [strip_prefix p s]: what is left of [s] after [p], when [s] starts
    with [p]. *)
Fixpoint strip_prefix (p s : list ascii) : option (list ascii) :=
  match p, s with
  | [], _ => Some s
  | _ :: _, [] => None
  | a :: p', b :: s' => if Ascii.eqb a b then strip_prefix p' s' else None
  end.

(** The text read between the state [x] and the later state [y]. *)
Definition consumed (x y : state) : list ascii :=
  firstn (List.length (fst x) - List.length (fst y)) (fst x).

(** The turns of a lazy star whose body matches as [body]: the
    continuation is tried first, and only then one more turn; a turn that
    reads nothing fails. The counter [n] bounds the number of turns. *)
Fixpoint repeat_lazy (body : state -> (state -> option state) -> option state)
         (k : state -> option state) (n : nat) (x : state) {struct n}
  : option state :=
  match n with
  | O => None
  | S n' =>
      match k x with
      | Some z => Some z
      | None =>
          body x (fun y =>
                    if (List.length (fst y) =? List.length (fst x))%nat
                    then None
                    else repeat_lazy body k n' y)
      end
  end.

(** The matcher. The counter of a star is the length of the rest of the
    input plus one, which the turns, each reading at least one character,
    cannot use up. *)
Fixpoint matcher (r : regex) (x : state) (k : state -> option state)
         {struct r} : option state :=
  match r with
  | Chr c => char_matcher (Ascii.eqb c) x k
  | Dot => char_matcher (fun a => negb (is_line_terminator a)) x k
  | AnyChar => char_matcher (fun _ => true) x k
  | OneOf cs => char_matcher (fun a => mem a cs) x k
  | Cat r1 r2 => matcher r1 x (fun y => matcher r2 y k)
  | Alt r1 r2 =>
      match matcher r1 x k with
      | Some z => Some z
      | None => matcher r2 x k
      end
  | LazyStar r1 => repeat_lazy (matcher r1) k (S (List.length (fst x))) x
  | Group n r1 =>
      matcher r1 x (fun y => k (fst y, (n, consumed x y) :: snd y))
  | BackRef n =>
      match capture n (snd x) with
      | None => k x
      | Some s =>
          match strip_prefix s (fst x) with
          | Some t => k (t, snd x)
          | None => None
          end
      end
  | NotAhead r1 =>
      match matcher r1 x Some with
      | Some _ => None
      | None => k x
      end
  | EndOfLine =>
      match fst x with
      | [] => k x
      | a :: _ => if is_line_terminator a then k x else None
      end
  end.

(** One attempt at the start of [s]: the rest after the match and the
    captures, or [None]. *)
Definition exec (r : regex) (s : list ascii) : option state :=
  matcher r (s, []) Some.

(** The replacement text [$1]: the first capture, or nothing when the
    first parenthesis took no part in the match. *)
Definition dollar1 (caps : captures) : list ascii :=
  match capture 1 caps with
  | Some s => s
  | None => []
  end.

(** [text.replace(r, "$1")] for a global [r]: the matches are looked for
    from left to right, each search starting where the last match ended
    (one character further after an empty match); what lies between the
    matches is kept. *)
Fixpoint replace_loop (r : regex) (fuel : nat) (s : list ascii) : list ascii :=
  match fuel with
  | O => s
  | S fuel' =>
      let step := match s with
                  | [] => []
                  | c :: t => c :: replace_loop r fuel' t
                  end in
      match exec r s with
      | Some (rest, caps) =>
          if (List.length rest <? List.length s)%nat
          then dollar1 caps ++ replace_loop r fuel' rest
          else dollar1 caps ++ step
      | None => step
      end
  end.

Definition replace_dollar1 (r : regex) (s : string) : string :=
  let l := list_ascii_of_string s in
  string_of_list_ascii (replace_loop r (S (List.length l)) l).

End RegExp.
(* ================================================================== *)
(** ** Calls to the host, and promises *)

(** What the extension asks of the world around it. *)
Inductive event : Type :=
| EvRegGetValue (hive key name : string)   (* [winapi.RegGetValue] *)
| EvReadFile (file : string)               (* [fs.readFileAsync] *)
| EvLog (level message : string) (meta : list (string * string)).  (* [log] *)

(** A computation that ends in a settled promise: the calls made, in
    order, and the value or the error. *)
Definition promise (A : Type) : Type := (list event * (error + A))%type.

Definition resolve {A : Type} (a : A) : promise A := ([], inr a).
Definition reject {A : Type} (e : error) : promise A := ([], inl e).
Definition emit (ev : event) : promise unit := ([ev], inr tt).

(** [p.then(f)]: [f] runs when [p] is fulfilled; a rejection passes by. An
    exception thrown by [f] is a rejection as well. *)
Definition andThen {A B : Type} (p : promise A) (f : A -> promise B) : promise B :=
  match p with
  | (t, inl e) => (t, inl e)
  | (t, inr a) => let (t', r) := f a in ((t ++ t')%list, r)
  end.

(** The outcome of a call that may throw, as a promise. *)
Definition settle {A : Type} (r : error + A) : promise A := ([], r).

Declare Scope promise_scope.
Delimit Scope promise_scope with promise.
Notation "x <- p ;; q" := (andThen p (fun x => q))
  (at level 61, p at next level, right associativity) : promise_scope.
Notation "p ;; q" := (andThen p (fun _ => q))
  (at level 61, right associativity) : promise_scope.
Local Open Scope promise_scope.

Definition log (level message : string) (meta : list (string * string)) : promise unit :=
  emit (EvLog level message meta).

(** [xs.map(f)] for an [f] that may throw: the first exception ends the
    traversal. *)
Fixpoint map_throwing {A B : Type} (f : A -> error + B) (xs : list A) : error + list B :=
  match xs with
  | [] => inr []
  | x :: xs' =>
      match f x with
      | inl e => inl e
      | inr y =>
          match map_throwing f xs' with
          | inl e => inl e
          | inr ys => inr (y :: ys)
          end
      end
  end.

(* ================================================================== *)
(** ** The extension *)

Module Starsector.

Import RegExp.

Definition GAME_ID : string := "starsector".
Definition MOD_INFO_FILE : string := "mod_info.json".

Definition quote : ascii := "034"%char.
Definition apostrophe : ascii := "'"%char.
Definition backslash : ascii := "\"%char.
Definition hash : ascii := "#"%char.
Definition star : ascii := "*"%char.

(** What a quoted literal is made of, [\\[\s\S]|.]: a backslash with the
    character after it, whatever it is, or one character of the line. *)
Definition literal_item : regex :=
  Alt (Cat (Chr backslash) AnyChar) Dot.

(** A quoted literal, [([Q'])(?:\\[\s\S]|.)*?\2], where Q stands for the
    double quote. *)
Definition quoted_literal : regex :=
  Cat (Group 2 (OneOf [quote; apostrophe]))
      (Cat (LazyStar literal_item) (BackRef 2)).

(** What a span between two hashes is made of, [\\.|\[(?:\\.|.)\]|.]: an
    escaped character, one character between brackets, or one character. *)
Definition span_item : regex :=
  Alt (Cat (Chr backslash) Dot)
      (Alt (Cat (Chr "["%char)
                (Cat (Alt (Cat (Chr backslash) Dot) Dot) (Chr "]"%char)))
           Dot).

(** A span between two hashes on one line,
    [\#(?![*\#])(?:\\.|\[(?:\\.|.)\]|.)*?\#]. *)
Definition hash_span : regex :=
  Cat (Chr hash)
      (Cat (NotAhead (OneOf [star; hash]))
           (Cat (LazyStar span_item) (Chr hash))).

(** [\#.*?$] *)
Definition line_comment : regex :=
  Cat (Chr hash) (Cat (LazyStar Dot) EndOfLine).

(** [\#\*[\s\S]*?\*\#] *)
Definition block_comment : regex :=
  Cat (Chr hash)
      (Cat (Chr star)
           (Cat (LazyStar AnyChar) (Cat (Chr star) (Chr hash)))).

(** The expression itself, with the flags g and m,
    [((Q|')(?:\\[\s\S]|.)*?\2|\#(?![*\#])(?:\\.|\[(?:\\.|.)\]|.)*?\#)|\#.*?$|\#\*[\s\S]*?\*\#]
    where [(Q|')] stands for the class of the two quotes: the first
    parenthesis holds what is kept, a quoted literal or a span between two
    hashes; a line comment and a block comment are outside it. *)
Definition COMMENT_STRIPPING_REGEX : regex :=
  Alt (Group 1 (Alt quoted_literal hash_span))
      (Alt line_comment block_comment).

(** [data.replace(COMMENT_STRIPPING_REGEX, "$1")] *)
Definition stripComments (data : string) : string :=
  replace_dollar1 COMMENT_STRIPPING_REGEX data.

(** *** The game locator *)

(** A registry value as [winapi.RegGetValue] returns it. *)
Record regvalue : Type := RegValue { reg_type : string; reg_value : string }.

Section Locator.

(** The registry: a lookup raises, or returns a value or nothing. *)
Variable RegGetValue : string -> string -> string -> error + option regvalue.

Definition findGame : promise string :=
  let hive := "HKEY_CURRENT_USER" in
  let key := "Software\Fractal Softworks\Starsector" in
  emit (EvRegGetValue hive key "") ;;
  match RegGetValue hive key "" with
  | inl err => reject err
  | inr None => reject (PlainError "Starsector registry key not found!")
  | inr (Some instPath) => resolve (reg_value instPath)
  end.

End Locator.

(** *** The probe *)

(** The object the probe resolves to. [requiredFiles] is [None] when the
    property is not set; an element of the array is [None] when it is
    [undefined]. *)
Record probe : Type := Probe {
  supported : bool;
  requiredFiles : option (list (option string))
}.

(** [files.find(file => path.basename(file) === MOD_INFO_FILE)] *)
Definition findManifest (files : list string) : option string :=
  List.find (fun file => String.eqb (Path.basename file) MOD_INFO_FILE) files.

Definition testSupportedContent (files : list string) (gameId : string) : promise probe :=
  if negb (String.eqb gameId GAME_ID) then
    resolve (Probe false None)
  else
    let contentPath := findManifest files in
    resolve (Probe (match contentPath with Some _ => true | None => false end)
                   (Some [contentPath])).

(** *** The installer *)

Inductive instruction : Type :=
| Attribute (key : string) (value : jsval)
| Copy (source destination : string).

Fixpoint assoc (key : string) (props : list (string * jsval)) : option jsval :=
  match props with
  | [] => None
  | (k, v) :: props' => if String.eqb k key then Some v else assoc key props'
  end.

(** [v[key]], for the keys the extension reads, which no built-in
    prototype defines: reading a property of [null] or [undefined]
    throws, a missing property reads as [undefined]. *)
Definition getProperty (v : jsval) (key : string) : error + jsval :=
  match v with
  | JUndefined | JNull => inl TypeError
  | JObj props =>
      match assoc key props with
      | Some w => inr w
      | None => inr JUndefined
      end
  | _ => inr JUndefined
  end.

(** [v.trim()]: only a string has the method. *)
Definition callTrim (v : jsval) : promise string :=
  match v with
  | JStr s => resolve (JS.trim s)
  | _ => reject TypeError
  end.

Definition invalidManifest : error :=
  DataInvalid ("invalid or unsupported " ++ MOD_INFO_FILE).

Section Installer.

(** [fs.readFileAsync(file, { encoding: 'utf8' })] *)
Variable readFileAsync : string -> error + string.

(** [rjson.parse]: the value, or the message of the error thrown. *)
Variable rjson_parse : string -> string + jsval.

Definition getAttr (parsed : jsval) (key : string) : promise jsval :=
  match getProperty parsed key with
  | inr v => resolve v
  | inl _ =>
      log "info" ("attribute missing in " ++ MOD_INFO_FILE) [("key", key)] ;;
      resolve (JStr "")
  end.

(** The first [then] of [installContent]: from the text of the manifest
    to the attribute instructions. The variable [outputPath] of the
    enclosing function is passed in and out. *)
Definition manifestRead (contentPath : string) (outputPath : pathval)
           (data : string) : promise (list instruction * pathval) :=
  match rjson_parse (stripComments data) with
  | inl message =>
      log "warn" (MOD_INFO_FILE ++ " invalid: " ++ message) [] ;;
      resolve ([], outputPath)
  | inr parsed =>
      contentModId <- getAttr parsed "id" ;;
      match contentModId with
      | JUndefined => reject invalidManifest
      | _ =>
          let outputPath :=
            if (0 <? JS.indexOf contentPath MOD_INFO_FILE)%Z
            then PStr (Path.basename (Path.dirname contentPath))
            else PRejected invalidManifest in
          name <- getAttr parsed "name" ;;
          customFileName <- callTrim name ;;
          version <- getAttr parsed "version" ;;
          version <- callTrim version ;;
          author <- getAttr parsed "author" ;;
          resolve ([Attribute "customFileName" (JStr customFileName);
                    Attribute "version" (JStr version);
                    Attribute "author" author],
                   outputPath)
      end
  end.

(** The files the second [then] keeps. *)
Definition isCopied (basePath file : string) : bool :=
  JS.startsWith file (basePath ++ Path.sep) && negb (JS.endsWith file Path.sep).

(** The copy instruction of one file. *)
Definition copyOf (basePath : string) (outputPath : pathval) (file : string)
  : error + instruction :=
  match Path.join [outputPath; PStr (JS.substring (JS.length basePath + 1) file)] with
  | inl e => inl e
  | inr destination => inr (Copy file destination)
  end.

(** The second [then]: the copy instructions are appended. *)
Definition copyFiles (files : list string) (basePath : string)
           (attrInstructions : list instruction) (outputPath : pathval)
  : promise (list instruction) :=
  copies <- settle (map_throwing (copyOf basePath outputPath)
                                 (List.filter (isCopied basePath) files)) ;;
  resolve (attrInstructions ++ copies)%list.

(** [installContent]; the argument [progressDelegate], which the
    function never reads, is left out. The value is the array
    [instructions] of the object returned. *)
Definition installContent (files : list string) (destinationPath gameId : string)
  : promise (list instruction) :=
  match findManifest files with
  | None => reject TypeError            (* [path.dirname(undefined)] *)
  | Some contentPath =>
      let basePath := Path.dirname contentPath in
      let outputPath := PStr basePath in
      contentFile <- settle (Path.join [PStr destinationPath; PStr contentPath]) ;;
      emit (EvReadFile contentFile) ;;
      data <- settle (readFileAsync contentFile) ;;
      r <- manifestRead contentPath outputPath data ;;
      copyFiles files basePath (fst r) (snd r)
  end.

End Installer.

(** *** The registrations *)

(** The game as [context.registerGame] receives it. The functions
    [queryModPath] and [executable] take no argument. *)
Record gameDescriptor : Type := GameDescriptor {
  game_id : string;
  game_name : string;
  mergeMods : bool;
  queryPath : unit -> promise string;
  queryModPath : unit -> string;
  logo : string;
  executable : unit -> string;
  game_requiredFiles : list string
}.

(** A call on the extension context. *)
Inductive registration : Type :=
| RegisterGame (game : gameDescriptor)
| RegisterInstaller (id : string) (priority : Z)
                    (testSupported : list string -> string -> promise probe)
                    (install : list string -> string -> string
                               -> promise (list instruction)).

Section Registration.

Variable RegGetValue : string -> string -> string -> error + option regvalue.
Variable readFileAsync : string -> error + string.
Variable rjson_parse : string -> string + jsval.

(** [main(context)]: the calls made on the context, in order, and the
    value returned. *)
Definition main : list registration * bool :=
  ([RegisterGame
      (GameDescriptor GAME_ID "Starsector" true
                      (fun _ => findGame RegGetValue)
                      (fun _ => "mods")
                      "gameart.jpg"
                      (fun _ => "starsector.exe")
                      ["starsector.exe"]);
    RegisterInstaller "starsector" 50 testSupportedContent
                      (installContent readFileAsync rjson_parse)],
   true).

End Registration.

End Starsector.

(* ================================================================== *)
(** * Definitions used by the statements and the proofs *)

Import Starsector.

(** ** File lists and instructions *)

(** The entries of a file list whose last segment is the manifest name. *)
Definition manifestEntries (files : list string) : list string :=
  List.filter (fun file => String.eqb (Path.basename file) MOD_INFO_FILE) files.

(** Whether an instruction is an attribute instruction. *)
Definition isAttribute (i : instruction) : bool :=
  match i with
  | Attribute _ _ => true
  | Copy _ _ => false
  end.

(** ** Values read from a manifest, and events *)

(** The value of a property of an object, [undefined] when the object has
    no such property. *)
Definition readKey (props : list (string * jsval)) (key : string) : jsval :=
  match assoc key props with
  | Some w => w
  | None => JUndefined
  end.

Definition isJStr (v : jsval) : bool :=
  match v with
  | JStr _ => true
  | _ => false
  end.

Definition isLog (ev : event) : bool :=
  match ev with
  | EvLog _ _ _ => true
  | _ => false
  end.

(** The log entry written when reading a property throws. *)
Definition missingAttribute (key : string) : event :=
  EvLog "info" "attribute missing in mod_info.json" [("key", key)].

(** That a parsed manifest has an [id] key: only an object has keys. *)
Definition hasId (v : jsval) : bool :=
  match v with
  | JObj props =>
      match assoc "id" props with
      | Some _ => true
      | None => false
      end
  | _ => false
  end.

(** The values read without a throw that have none of the manifest's
    properties: booleans, numbers, strings and arrays. *)
Definition isScalarOrArray (v : jsval) : bool :=
  match v with
  | JBool _ | JNum _ | JStr _ | JArr _ => true
  | _ => false
  end.

(** ** Sample packages *)

(** A file system holding the listed files. *)
Fixpoint sampleRead (disk : list (string * string)) (file : string) : error + string :=
  match disk with
  | [] => inl (HostError "ENOENT")
  | (name, text) :: disk' =>
      if String.eqb name file then inr text else sampleRead disk' file
  end.

(** A parser known by its results on the listed texts. *)
Fixpoint sampleParse (table : list (string * (string + jsval))) (text : string)
  : string + jsval :=
  match table with
  | [] => inl "unexpected input"
  | (t, r) :: table' => if String.eqb t text then r else sampleParse table' text
  end.

Definition packageFiles : list string := ["mod1/mod_info.json"; "mod1/data/foo.txt"].

Definition fullManifest : jsval :=
  JObj [("id", JStr "mod1"); ("name", JStr "My Mod");
        ("version", JStr "1.0"); ("author", JStr "Alice")].

(** The manifest of the sample package, with a comment after it, and what
    is left of it once the comment is stripped. *)
Definition fullText : string :=
  "{id:'mod1', name:'My Mod', version:'1.0', author:'Alice'} # metadata".

Definition fullStripped : string :=
  "{id:'mod1', name:'My Mod', version:'1.0', author:'Alice'} ".

Definition stagedDisk (text : string) : list (string * string) :=
  [("/staging/mod1/mod_info.json", text)].

Definition rootDisk : list (string * string) := [("/staging/mod_info.json", fullText)].

(** A manifest without author, with spaces around its name and version,
    and the text it is parsed from. *)
Definition spacedManifest : jsval :=
  JObj [("id", JStr "mod1"); ("name", JStr " My Mod "); ("version", JStr "1.0 ")].

Definition spacedText : string := "{id:'mod1', name:' My Mod ', version:'1.0 '}".

(** A manifest whose version is an object, and its text. *)
Definition structuredManifest : jsval :=
  JObj [("id", JStr "mod1"); ("name", JStr "My Mod");
        ("version", JObj [("major", JStr "1"); ("minor", JStr "0")])].

Definition structuredText : string :=
  "{id:'mod1', name:'My Mod', version:{major:'1', minor:'0'}}".

Definition nestedFiles : list string :=
  ["a/b/mod_info.json"; "a/b/"; "a/b/c/"; "a/b/c/d.txt"; "a/x.txt"].

Definition nestedDisk (text : string) : list (string * string) :=
  [("/staging/a/b/mod_info.json", text)].

(** ** The comment-stripping expression on texts without backslashes *)

Section StripSpec.

Import RegExp.
Local Open Scope list_scope.

(** The search of a lazy star whose body reads one character accepted by
    [ok]: the continuation is tried at every position until it succeeds. *)
Fixpoint lazy_chars (ok : ascii -> bool) (k : state -> option state)
         (caps : captures) (l : list ascii) : option state :=
  match k (l, caps) with
  | Some z => Some z
  | None =>
      match l with
      | [] => None
      | a :: t => if ok a then lazy_chars ok k caps t else None
      end
  end.

Definition noBackslashes (l : list ascii) : Prop :=
  Forall (fun c => Ascii.eqb backslash c = false) l.

(** The rest of the text after the quote that closes a literal opened by
    [q], when the line has one. *)
Fixpoint closing_quote (q : ascii) (l : list ascii) : option (list ascii) :=
  match l with
  | [] => None
  | a :: t =>
      if Ascii.eqb q a then Some t
      else if is_line_terminator a then None
      else closing_quote q t
  end.

(** The rest of the text after the hash that closes a span: a bracketed
    character is taken whole when the search succeeds after it, and
    character by character otherwise. *)
Fixpoint closing_hash (l : list ascii) : option (list ascii) :=
  match l with
  | [] => None
  | a :: t =>
      if Ascii.eqb hash a then Some t
      else
        let bracketed :=
          if Ascii.eqb "["%char a then
            match t with
            | x :: c :: t' =>
                if negb (is_line_terminator x) && Ascii.eqb "]"%char c
                then closing_hash t'
                else None
            | _ => None
            end
          else None in
        match bracketed with
        | Some r => Some r
        | None => if is_line_terminator a then None else closing_hash t
        end
  end.

(** The text from the end of the line on. *)
Fixpoint skip_line (l : list ascii) : list ascii :=
  match l with
  | [] => []
  | a :: t => if is_line_terminator a then l else skip_line t
  end.

(** The text read between [l] and its suffix [r]. *)
Definition keptOf (l r : list ascii) : list ascii :=
  firstn (List.length l - List.length r) l.

(** What one attempt of the expression does at the start of a text
    without backslashes: the text kept and the text still to read. *)
Definition specExec (l : list ascii) : option (list ascii * list ascii) :=
  match l with
  | [] => None
  | a :: t =>
      if mem a [quote; apostrophe] then
        match closing_quote a t with
        | Some r => Some (keptOf l r, r)
        | None => None
        end
      else if Ascii.eqb hash a then
        match (if match t with
                  | b :: _ => mem b [star; hash]
                  | [] => false
                  end
               then None else closing_hash t) with
        | Some r => Some (keptOf l r, r)
        | None => Some ([], skip_line t)
        end
      else None
  end.

(** [lineprefix l' l]: the first line of [l'] is a prefix of [l]. *)
Inductive lineprefix : list ascii -> list ascii -> Prop :=
| lineprefix_nil (l : list ascii) : lineprefix [] l
| lineprefix_break (a : ascii) (t l : list ascii) :
    is_line_terminator a = true -> lineprefix (a :: t) l
| lineprefix_cons (a : ascii) (t' t : list ascii) :
    is_line_terminator a = false -> lineprefix t' t -> lineprefix (a :: t') (a :: t).

Definition oneLine (c : list ascii) : Prop :=
  Forall (fun x => is_line_terminator x = false) c.

(** The bracketed alternative of [closing_hash], on its own. *)
Definition bracketed (a : ascii) (t : list ascii) : option (list ascii) :=
  if Ascii.eqb "["%char a then
    match t with
    | x :: c :: t' =>
        if negb (is_line_terminator x) && Ascii.eqb "]"%char c
        then closing_hash t'
        else None
    | _ => None
    end
  else None.

(** The three outcomes of one attempt. *)
Inductive attempt (l : list ascii) : option (list ascii * list ascii) -> Prop :=
| attempt_none : attempt l None
| attempt_kept (c r : list ascii) :
    l = c ++ r -> c <> [] -> oneLine c ->
    (forall r', lineprefix r' r -> specExec (c ++ r') = Some (c, r')) ->
    attempt l (Some (c, r))
| attempt_comment (t : list ascii) :
    l = hash :: t -> attempt l (Some ([], skip_line t)).

(** The expressions that read within one line: character tests that
    refuse the line terminators, sequences and alternatives. *)
Fixpoint lineLocal (r : regex) : bool :=
  match r with
  | Chr c => negb (is_line_terminator c)
  | Dot => true
  | OneOf cs => forallb (fun c => negb (is_line_terminator c)) cs
  | Cat r1 r2 | Alt r1 r2 => lineLocal r1 && lineLocal r2
  | _ => false
  end.

(** The texts that start with characters accepted by [ok], none of them a
    line terminator, up to the end of a line, where [rest] starts. *)
Definition lineOf (ok : ascii -> bool) (rest : list ascii) (l : list ascii) : Prop :=
  exists c, l = c ++ rest
            /\ Forall (fun x => ok x = true /\ is_line_terminator x = false) c.

(** The end of the text or of a line. *)
Definition atLineEndL (rest : list ascii) : Prop :=
  match rest with
  | [] => True
  | b :: _ => is_line_terminator b = true
  end.

(** [stripped out text]: [out] is [text] without some pieces, each of
    which starts at a hash, stays on its line and ends where the line
    ends. *)
Inductive stripped : list ascii -> list ascii -> Prop :=
| stripped_nil : stripped [] []
| stripped_keep (a : ascii) (out text : list ascii) :
    stripped out text -> stripped (a :: out) (a :: text)
| stripped_drop (c out rest : list ascii) :
    oneLine c -> atLineEndL rest -> stripped out rest ->
    stripped out (hash :: c ++ rest).

(** The expression without its last alternative, the block comment. *)
Definition withoutBlockComment : regex :=
  Alt (Group 1 (Alt quoted_literal hash_span)) line_comment.

(** The replacement on lists, with the counter the extension's call gives
    it. *)
Definition stripList (l : list ascii) : list ascii :=
  replace_loop COMMENT_STRIPPING_REGEX (S (List.length l)) l.

End StripSpec.

(** ** The comment-stripping expression on any text *)

Section ScanSpec.

Import RegExp.
Local Open Scope list_scope.

(** A way to read one item at the character [a] followed by [t]: the text
    after the item, when the item is there. *)
Definition jump : Type := ascii -> list ascii -> option (list ascii).

(** The alternatives of an item are tried in order; the first one after
    which the search succeeds is taken. *)
Fixpoint try_jumps (rec : list ascii -> option (list ascii)) (a : ascii)
         (t : list ascii) (jumps : list jump) : option (list ascii) :=
  match jumps with
  | [] => None
  | j :: jumps' =>
      match (match j a t with
             | Some u => rec u
             | None => None
             end) with
      | Some r => Some r
      | None => try_jumps rec a t jumps'
      end
  end.

(** The search of a lazy star for the closing character [e]: at each
    place the closing character is looked for first, and only then one
    more item is read; [n] bounds the number of items. The result is the
    text after the closing character. *)
Fixpoint search (e : ascii) (jumps : list jump) (n : nat) (l : list ascii)
  : option (list ascii) :=
  match n with
  | O => None
  | S n' =>
      match l with
      | [] => None
      | a :: t =>
          if Ascii.eqb e a then Some t
          else try_jumps (search e jumps n') a t jumps
      end
  end.

(** [\\[\s\S]]: a backslash and any character. *)
Definition escape_any : jump :=
  fun a t =>
    if Ascii.eqb backslash a then
      match t with
      | [] => None
      | _ :: u => Some u
      end
    else None.

(** [\\.]: a backslash and a character of the line. *)
Definition escape_char : jump :=
  fun a t =>
    if Ascii.eqb backslash a then
      match t with
      | [] => None
      | x :: u => if is_line_terminator x then None else Some u
      end
    else None.

(** [\[\\.\]]: an escaped character between brackets. *)
Definition bracket_escaped : jump :=
  fun a t =>
    if Ascii.eqb "["%char a then
      match t with
      | x :: y :: c :: u =>
          if Ascii.eqb backslash x && negb (is_line_terminator y) && Ascii.eqb "]"%char c
          then Some u else None
      | _ => None
      end
    else None.

(** [\[.\]]: a character of the line between brackets. *)
Definition bracket_char : jump :=
  fun a t =>
    if Ascii.eqb "["%char a then
      match t with
      | x :: c :: u =>
          if negb (is_line_terminator x) && Ascii.eqb "]"%char c then Some u else None
      | _ => None
      end
    else None.

(** [.]: a character of the line. *)
Definition plain_char : jump :=
  fun a t => if is_line_terminator a then None else Some t.

Definition literal_jumps : list jump := [escape_any; plain_char].

Definition span_jumps : list jump :=
  [escape_char; bracket_escaped; bracket_char; plain_char].

(** What one attempt of the expression does at the start of any text: the
    text kept and the text still to read. *)
Definition scanStep (l : list ascii) : option (list ascii * list ascii) :=
  match l with
  | [] => None
  | a :: t =>
      if mem a [quote; apostrophe] then
        match search a literal_jumps (S (List.length t)) t with
        | Some r => Some (keptOf l r, r)
        | None => None
        end
      else if Ascii.eqb hash a then
        match (if match t with
                  | b :: _ => mem b [star; hash]
                  | [] => false
                  end
               then None else search hash span_jumps (S (List.length t)) t) with
        | Some r => Some (keptOf l r, r)
        | None => Some ([], skip_line t)
        end
      else None
  end.

(** [cut b out text]: [out] is [text] without some line comments, each
    from a hash up to the end of its line; no comment is cut right after a
    backslash, and none at the very start unless [b] holds. *)
Inductive cut : bool -> list ascii -> list ascii -> Prop :=
| cut_nil (b : bool) : cut b [] []
| cut_keep (b : bool) (a : ascii) (out text : list ascii) :
    cut (negb (Ascii.eqb backslash a)) out text -> cut b (a :: out) (a :: text)
| cut_drop (c out rest : list ascii) :
    oneLine c -> atLineEndL rest -> cut true out rest ->
    cut true out (hash :: c ++ rest).

(** No backslash is followed by a hash. *)
Fixpoint noEscapedHashes (l : list ascii) : bool :=
  match l with
  | [] => true
  | a :: t =>
      negb (Ascii.eqb backslash a
            && match t with
               | b :: _ => Ascii.eqb hash b
               | [] => false
               end)
      && noEscapedHashes t
  end.

(** What the proofs need of one way to read an item: it reads nothing
    at a line terminator, it reads a prefix that it would read before any
    other text, and what it reads in a text with comments cut out it reads
    in the text. *)
Record jump_ok (j : jump) : Prop := {
  jump_dead : forall a t, is_line_terminator a = true -> j a t = None;
  jump_local : forall a t u,
      j a t = Some u ->
      exists p, t = p ++ u /\ forall u2, j a (p ++ u2) = Some u2;
  jump_cut : forall a t t' u',
      cut (negb (Ascii.eqb backslash a)) t' t -> j a t' = Some u' ->
      exists u b, j a t = Some u /\ cut b u' u
}.

(** Whether the replacement removes a comment that starts right after a
    backslash: the text is read as the replacement reads it, [prev]
    telling whether the last character passed over was a backslash. *)
Fixpoint cutsAfterBackslash (fuel : nat) (prev : bool) (l : list ascii) : bool :=
  match fuel with
  | O => false
  | S fuel' =>
      match exec COMMENT_STRIPPING_REGEX l with
      | Some (rest, caps) =>
          match dollar1 caps with
          | [] => prev || cutsAfterBackslash fuel' false rest
          | _ :: _ => cutsAfterBackslash fuel' false rest
          end
      | None =>
          match l with
          | [] => false
          | a :: t => cutsAfterBackslash fuel' (Ascii.eqb backslash a) t
          end
      end
  end.

(** Where a reader of quoted literals is: outside a literal, inside the
    literal opened by [q], or right after a backslash in it. *)
Inductive quoting : Type :=
| Outside
| Inside (q : ascii)
| Escaped (q : ascii).

(** A text made of string literals and, outside them, of characters that
    are no quote and no hash: every quote opens a literal, in which a
    backslash takes the character after it and which the same quote
    closes before a line terminator that no backslash takes. *)
Fixpoint wellQuotedFrom (st : quoting) (l : list ascii) : bool :=
  match l with
  | [] =>
      match st with
      | Outside => true
      | _ => false
      end
  | a :: t =>
      match st with
      | Outside =>
          if mem a [quote; apostrophe] then wellQuotedFrom (Inside a) t
          else if Ascii.eqb hash a then false
          else wellQuotedFrom Outside t
      | Inside q =>
          if Ascii.eqb q a then wellQuotedFrom Outside t
          else if Ascii.eqb backslash a then wellQuotedFrom (Escaped q) t
          else if is_line_terminator a then false
          else wellQuotedFrom (Inside q) t
      | Escaped q => wellQuotedFrom (Inside q) t
      end
  end.

End ScanSpec.

(** That a text has no backslash, as a test. *)
Definition noBackslash (s : string) : bool :=
  forallb (fun c => negb (Ascii.eqb backslash c)) (list_ascii_of_string s).

(** The body of a quoted literal opened by [q]: no further [q], no line
    terminator and no backslash. *)
Definition literalBody (q : ascii) (body : string) : bool :=
  forallb (fun x => negb (Ascii.eqb q x) && negb (RegExp.is_line_terminator x)
                    && negb (Ascii.eqb backslash x))
          (list_ascii_of_string body).

(** The text of a comment that runs to the end of its line: no second
    hash and no line terminator. *)
Definition commentBody (c : string) : bool :=
  forallb (fun x => negb (Ascii.eqb hash x) && negb (RegExp.is_line_terminator x))
          (list_ascii_of_string c).

(** The plain characters of a span between two hashes: no hash, no line
    terminator, no backslash and no opening bracket, and no star in the
    first place. *)
Definition spanBody (c : string) : bool :=
  match c with
  | EmptyString => false
  | String b _ =>
      negb (Ascii.eqb star b)
      && forallb (fun x => negb (Ascii.eqb hash x) && negb (RegExp.is_line_terminator x)
                           && negb (Ascii.eqb backslash x)
                           && negb (Ascii.eqb "["%char x))
                 (list_ascii_of_string c)
  end.

(** That a text has no hash, as a test. *)
Definition noHash (s : string) : bool :=
  forallb (fun c => negb (Ascii.eqb hash c)) (list_ascii_of_string s).

(** The line terminators of a text, in order. *)
Definition lineTerminators (s : string) : list ascii :=
  List.filter RegExp.is_line_terminator (list_ascii_of_string s).

(** The end of the text or of a line. *)
Definition atLineEnd (rest : string) : bool :=
  match rest with
  | EmptyString => true
  | String b _ => RegExp.is_line_terminator b
  end.

(** The body of a literal with escapes: a backslash takes the character
    after it, whatever it is; the other characters are not the quote [q]
    and not a line terminator. *)
Fixpoint escapedItems (q : ascii) (l : list ascii) : bool :=
  match l with
  | [] => true
  | a :: t =>
      if Ascii.eqb backslash a then
        match t with
        | [] => false
        | _ :: t' => escapedItems q t'
        end
      else negb (Ascii.eqb q a) && negb (RegExp.is_line_terminator a) && escapedItems q t
  end.

Definition escapedBody (q : ascii) (body : string) : bool :=
  escapedItems q (list_ascii_of_string body).

(** That no backslash of a text is followed by a hash, as a test. *)
Definition noEscapedHash (s : string) : bool :=
  noEscapedHashes (list_ascii_of_string s).

(** Whether stripping a text removes a comment that starts right after a
    backslash. *)
Definition commentAfterBackslash (s : string) : bool :=
  let l := list_ascii_of_string s in
  cutsAfterBackslash (S (List.length l)) false l.

(** A text made of string literals and of characters that are no quote
    and no hash. *)
Definition wellQuoted (s : string) : bool :=
  wellQuotedFrom Outside (list_ascii_of_string s).

(** The text of a comment that is removed up to the end of its line: no
    line terminator in it, and either a star or a hash in the first place
    or no hash at all. *)
Definition lineComment (c : string) : bool :=
  forallb (fun x => negb (RegExp.is_line_terminator x)) (list_ascii_of_string c)
  && (match c with
      | EmptyString => false
      | String b _ => Ascii.eqb star b || Ascii.eqb hash b
      end
      || forallb (fun x => negb (Ascii.eqb hash x)) (list_ascii_of_string c)).

(** Seven characters on two lines: a double quote, a backslash and a
    hash, then, after the line feed, a hash, a double quote and a hash. *)
Definition escapedLineEnd : string :=
  String quote (String backslash (String hash (String "010"%char
    (String hash (String quote (String hash EmptyString)))))).

(** A manifest with comments of the three kinds. *)
Definition commentedManifest : string :=
  "# a mod" ++ String "010"%char
  ("{id:'mod1', name:'a # b', ## draft" ++ String "010"%char
  (" version:'1.0'} #* the end")).

(** An author with an escaped quote and a hash, and a comment after it. *)
Definition escapedAuthor : string :=
  String backslash (String quote "Bob" ++ String backslash (String quote " #1")).

(** A manifest with two values, the second one the documented value with
    a hash in it. *)
Definition valuesText : string :=
  "{id:'mod1', name: " ++ String quote ("a # b" ++ String quote "}").

(** A manifest line with the documented value and a trailing comment. *)
Definition valueLine : string :=
  "{name: " ++ String quote ("a # b" ++ String quote "} # comment").

(** A manifest line whose value holds a backslash followed by a hash. *)
Definition pathLine : string :=
  "{path: " ++ String quote ("C:" ++ String backslash ("#mods" ++ String quote "} # comment")).

(* ================================================================== *)
(** * Properties *)

(** ** Evaluation of the library functions on sample arguments *)

Example basename_nested : Path.basename "mod1/mod_info.json" = "mod_info.json".
Proof. reflexivity. Qed.

Example basename_trailing_separators : Path.basename "a/b//" = "b".
Proof. reflexivity. Qed.

Example basename_root : Path.basename "/" = "".
Proof. reflexivity. Qed.

Example dirname_nested : Path.dirname "mod1/mod_info.json" = "mod1".
Proof. reflexivity. Qed.

Example dirname_bare_name : Path.dirname "mod_info.json" = ".".
Proof. reflexivity. Qed.

Example dirname_trailing_separator : Path.dirname "a/b/c/" = "a/b".
Proof. reflexivity. Qed.

Example dirname_double_root : Path.dirname "//a" = "//".
Proof. reflexivity. Qed.

Example join_plain : Path.join [PStr "mod1"; PStr "data/foo.txt"] = inr "mod1/data/foo.txt".
Proof. reflexivity. Qed.

Example join_normalizes : Path.join [PStr "a/b/../c/./d//e/"; PStr ""] = inr "a/c/d/e/".
Proof. reflexivity. Qed.

Example join_above_root : Path.join [PStr "../../a"; PStr "../b"] = inr "../../b".
Proof. reflexivity. Qed.

Example join_absolute : Path.join [PStr "/a/../.."; PStr "b"] = inr "/b".
Proof. reflexivity. Qed.

Example join_empty : Path.join [PStr ""; PStr ""] = inr ".".
Proof. reflexivity. Qed.

Example join_rejected_promise :
  Path.join [PRejected invalidManifest; PStr "data/foo.txt"] = inl TypeError.
Proof. reflexivity. Qed.

Example trim_both_sides : JS.trim "  My Mod  " = "My Mod".
Proof. reflexivity. Qed.

Example indexOf_found : JS.indexOf "mod1/mod_info.json" "mod_info.json" = 5%Z.
Proof. reflexivity. Qed.

Example indexOf_missing : JS.indexOf "mod1" "mod_info.json" = (-1)%Z.
Proof. reflexivity. Qed.

(** ** Helper lemmas on paths, lists and promises *)

(** Joining strings never throws. *)
Lemma join_strings (a b : string) : exists s, Path.join [PStr a; PStr b] = inr s.
Proof.
  unfold Path.join; simpl.
  destruct (0 <? JS.length a)%nat; destruct (0 <? JS.length b)%nat; eauto.
Qed.

(** Joining a rejected promise with anything throws. *)
Lemma join_rejected (e : error) (args : list pathval) :
  Path.join (PRejected e :: args) = inl TypeError.
Proof. reflexivity. Qed.

Lemma findManifest_none (files : list string) :
  findManifest files = None <->
  (forall file, In file files -> Path.basename file <> MOD_INFO_FILE).
Proof.
  unfold findManifest; split.
  - intros H file Hin Heq.
    apply (List.find_none _ _ H) in Hin.
    rewrite Heq, String.eqb_refl in Hin; discriminate.
  - intros H. induction files as [|f files IH]; simpl; [reflexivity|].
    destruct (String.eqb_spec (Path.basename f) MOD_INFO_FILE) as [E|_].
    + exfalso. apply (H f); [left; reflexivity|exact E].
    + apply IH. intros file Hin. apply H. right; exact Hin.
Qed.

Lemma findManifest_some (files : list string) (contentPath : string) :
  findManifest files = Some contentPath ->
  In contentPath files /\ Path.basename contentPath = MOD_INFO_FILE.
Proof.
  unfold findManifest; intros H.
  apply List.find_some in H. destruct H as [Hin Heq].
  split; [exact Hin|]. apply String.eqb_eq; exact Heq.
Qed.

Lemma findManifest_head (files : list string) :
  findManifest files = List.hd_error (manifestEntries files).
Proof.
  unfold findManifest, manifestEntries.
  induction files as [|f files IH]; simpl; [reflexivity|].
  destruct (String.eqb (Path.basename f) MOD_INFO_FILE); [reflexivity|exact IH].
Qed.

(** What the second [then] computes when no call of [path.join] throws. *)
Lemma map_throwing_inr {A B : Type} (f : A -> error + B) (xs : list A) (ys : list B) :
  map_throwing f xs = inr ys -> Forall2 (fun x y => f x = inr y) xs ys.
Proof.
  revert ys; induction xs as [|x xs IH]; simpl; intros ys H.
  - injection H as <-. constructor.
  - destruct (f x) as [e|y] eqn:Hx; [discriminate|].
    destruct (map_throwing f xs) as [e|ys'] eqn:Hxs; [discriminate|].
    injection H as <-. constructor; [exact Hx|]. apply IH; reflexivity.
Qed.

Lemma map_throwing_rejected (basePath : string) (e : error) (files : list string) :
  map_throwing (copyOf basePath (PRejected e)) files =
  match files with
  | [] => inr []
  | _ :: _ => inl TypeError
  end.
Proof. destruct files; reflexivity. Qed.

Lemma map_throwing_strings (basePath outputPath : string) (files : list string) :
  exists copies,
    map_throwing (copyOf basePath (PStr outputPath)) files = inr copies
    /\ Forall2 (fun file i =>
                  exists destination,
                    i = Copy file destination
                    /\ Path.join [PStr outputPath;
                                  PStr (JS.substring (JS.length basePath + 1) file)]
                       = inr destination)
               files copies.
Proof.
  induction files as [|f files [copies [IH1 IH2]]]; simpl.
  - exists []. split; [reflexivity|constructor].
  - unfold copyOf at 1.
    destruct (join_strings outputPath (JS.substring (JS.length basePath + 1) f))
      as [d Hd].
    rewrite Hd, IH1. exists (Copy f d :: copies). split; [reflexivity|].
    constructor; [exists d; split; [reflexivity|exact Hd]|exact IH2].
Qed.

Lemma join_error (args : list pathval) (e : error) :
  Path.join args = inl e -> e = TypeError.
Proof.
  unfold Path.join.
  assert (H : forall joined, Path.join_loop args joined = inl e -> e = TypeError).
  { induction args as [|[a|e'] args IH]; intros joined; simpl.
    - discriminate.
    - destruct (0 <? JS.length a)%nat; apply IH.
    - intros H; injection H as <-. reflexivity. }
  destruct (Path.join_loop args None) as [e'|[j|]] eqn:Hj; try discriminate.
  intros Heq. injection Heq as <-. exact (H _ Hj).
Qed.

Lemma map_throwing_copy_error (basePath : string) (outputPath : pathval)
      (files : list string) (e : error) :
  map_throwing (copyOf basePath outputPath) files = inl e -> e = TypeError.
Proof.
  induction files as [|f files IH]; simpl; [discriminate|].
  unfold copyOf at 1.
  destruct (Path.join _) as [e'|d] eqn:Hj.
  - intros H; injection H as <-. exact (join_error _ Hj).
  - destruct (map_throwing _ files) as [e'|cs]; [|discriminate].
    intros H. injection H as <-. apply IH. reflexivity.
Qed.

Lemma prefix_split (p s : string) :
  String.prefix p s = true -> s = p ++ JS.substring (String.length p) s.
Proof.
  revert s. induction p as [|a p IH]; intros s H; [reflexivity|].
  destruct s as [|b s]; [discriminate|]. simpl in H.
  destruct (ascii_dec a b) as [->|]; [|discriminate].
  simpl. f_equal. apply IH. exact H.
Qed.

Lemma substring_app (p s : string) (k : nat) :
  JS.substring (String.length p + k) (p ++ s) = JS.substring k s.
Proof. induction p as [|a p IH]; simpl; [reflexivity|exact IH]. Qed.

Lemma length_append (p s : string) :
  String.length (p ++ s) = (String.length p + String.length s)%nat.
Proof. induction p as [|a p IH]; simpl; [reflexivity|]. rewrite IH. reflexivity. Qed.

Lemma append_assoc' (a b c : string) : (a ++ b) ++ c = a ++ b ++ c.
Proof. induction a as [|x a IH]; simpl; [reflexivity|]. rewrite IH. reflexivity. Qed.

(** Whether a text ends with the separator is decided by its last
    character. *)
Lemma endsWith_app (p s : string) :
  s <> "" -> JS.endsWith (p ++ s) Path.sep = JS.endsWith s Path.sep.
Proof.
  intros Hs. unfold JS.endsWith, JS.length. rewrite length_append.
  destruct s as [|b s]; [contradiction|]. cbn [String.length Path.sep].
  replace (String.length p + S (String.length s) - 1)%nat
    with (String.length p + String.length s)%nat by lia.
  rewrite substring_app.
  replace (S (String.length s) - 1)%nat with (String.length s) by lia.
  replace (1 <=? String.length p + S (String.length s))%nat with true
    by (symmetry; apply Nat.leb_le; lia).
  reflexivity.
Qed.

(** ** The matcher *)

Section MatcherFacts.

Import RegExp.
Local Open Scope list_scope.

Lemma strip_prefix_length (p s t : list ascii) :
  strip_prefix p s = Some t -> (List.length t <= List.length s)%nat.
Proof.
  revert s; induction p as [|a p IH]; intros s H; simpl in H.
  - injection H as <-. lia.
  - destruct s as [|b s]; [discriminate|].
    destruct (Ascii.eqb a b); [|discriminate].
    apply IH in H. simpl. lia.
Qed.

(** A matcher calls its continuation only on states that are not behind
    the state it started from. *)
Lemma matcher_local (r : regex) :
  forall (x : state) (k k' : state -> option state),
    (forall y, (List.length (fst y) <= List.length (fst x))%nat -> k y = k' y) ->
    matcher r x k = matcher r x k'.
Proof.
  assert (Hchar : forall ok (x : state) (k k' : state -> option state),
             (forall y, (List.length (fst y) <= List.length (fst x))%nat -> k y = k' y) ->
             char_matcher ok x k = char_matcher ok x k').
  { intros ok [l caps] k k' H. unfold char_matcher; simpl.
    destruct l as [|a t]; [reflexivity|].
    destruct (ok a); [|reflexivity]. apply H. simpl. lia. }
  induction r as [c| | |cs|r1 IH1 r2 IH2|r1 IH1 r2 IH2|r1 IH1|n r1 IH1|n|r1 IH1|];
    intros x k k' H; cbn [matcher]; try (apply Hchar; exact H).
  - apply IH1. intros y Hy. apply IH2. intros z Hz. apply H. lia.
  - rewrite (IH1 x k k' H), (IH2 x k k' H). reflexivity.
  - generalize (S (List.length (fst x))). intros n. revert x H.
    induction n as [|n IHn]; intros x H; [reflexivity|].
    cbn [repeat_lazy]. rewrite (H x (Nat.le_refl _)).
    destruct (k' x); [reflexivity|].
    apply IH1. intros y Hy.
    destruct (List.length (fst y) =? List.length (fst x))%nat; [reflexivity|].
    apply IHn. intros z Hz. apply H. lia.
  - apply IH1. intros y Hy. apply H. exact Hy.
  - destruct (capture n (snd x)); [|apply H; lia].
    destruct (strip_prefix l (fst x)) as [t|] eqn:Ht; [|reflexivity].
    apply H. simpl. exact (strip_prefix_length _ _ Ht).
  - destruct (matcher r1 x Some); [reflexivity|]. apply H. lia.
  - destruct x as [[|a t] caps]; cbn [fst]; [apply H; apply Nat.le_refl|].
    destruct (is_line_terminator a); [|reflexivity]. apply H. apply Nat.le_refl.
Qed.

(** The counter of a star never runs out: any counter above the length of
    the rest of the input gives the result of the star. *)
Lemma repeat_lazy_fuel (r : regex) (k : state -> option state) :
  forall (n : nat) (x : state),
    (List.length (fst x) < n)%nat ->
    repeat_lazy (matcher r) k n x = matcher (LazyStar r) x k.
Proof.
  assert (H : forall n m x,
             (List.length (fst x) < n)%nat -> (List.length (fst x) < m)%nat ->
             repeat_lazy (matcher r) k n x = repeat_lazy (matcher r) k m x).
  { induction n as [|n IH]; intros m x Hn Hm; [lia|].
    destruct m as [|m]; [lia|]. cbn [repeat_lazy].
    destruct (k x); [reflexivity|].
    apply matcher_local. intros y Hy.
    destruct (List.length (fst y) =? List.length (fst x))%nat eqn:He; [reflexivity|].
    apply Nat.eqb_neq in He. apply IH; lia. }
  intros n x Hn. cbn [matcher]. apply H; [exact Hn|lia].
Qed.

End MatcherFacts.

(** ** The comment-stripping expression *)

Section StripFacts.

Import RegExp.
Local Open Scope list_scope.

Lemma repeat_lazy_chars (P : list ascii -> Prop) (ok : ascii -> bool)
      (body : state -> (state -> option state) -> option state)
      (k : state -> option state) (caps : captures) :
  (forall a t, P (a :: t) -> P t) ->
  (forall l k', P l -> body (l, caps) k' = char_matcher ok (l, caps) k') ->
  forall n l, P l -> (List.length l < n)%nat ->
  repeat_lazy body k n (l, caps) = lazy_chars ok k caps l.
Proof.
  intros Htail Hbody. induction n as [|n IH]; intros l HP Hlen; [lia|].
  simpl. destruct l as [|a t]; simpl.
  - destruct (k ([], caps)); [reflexivity|].
    rewrite Hbody by exact HP. reflexivity.
  - destruct (k (a :: t, caps)); [reflexivity|].
    rewrite Hbody by exact HP. unfold char_matcher; simpl.
    destruct (ok a); [|reflexivity].
    replace (List.length t =? S (List.length t))%nat with false
      by (symmetry; apply Nat.eqb_neq; lia).
    apply IH; [exact (Htail _ _ HP)|simpl in Hlen; lia].
Qed.

Lemma noBackslashes_tail a t : noBackslashes (a :: t) -> noBackslashes t.
Proof. intros H; inversion H; assumption. Qed.

Lemma literal_item_plain (caps : captures) (l : list ascii) k :
  noBackslashes l ->
  matcher literal_item (l, caps) k
  = char_matcher (fun a => negb (is_line_terminator a)) (l, caps) k.
Proof.
  intros H. unfold literal_item. cbn [matcher char_matcher fst snd].
  destruct l as [|a t]; [reflexivity|].
  inversion H as [|? ? Ha _]; subst. unfold char_matcher; cbn [fst snd].
  rewrite Ha. reflexivity.
Qed.

(** The star of a quoted literal followed by the closing quote. *)
Lemma literal_star_spec (q : ascii) (g : state -> state) (caps : captures) :
  capture 2 caps = Some [q] ->
  forall l, noBackslashes l ->
  matcher (Cat (LazyStar literal_item) (BackRef 2)) (l, caps) (fun y => Some (g y))
  = option_map (fun r => g (r, caps)) (closing_quote q l).
Proof.
  intros Hq l Hnb. cbn [matcher fst].
  rewrite (@repeat_lazy_chars noBackslashes (fun a => negb (is_line_terminator a))
             (matcher literal_item) _ caps noBackslashes_tail
             (fun l0 k' H0 => literal_item_plain caps k' H0)
             _ l Hnb (Nat.lt_succ_diag_r _)).
  clear Hnb. induction l as [|a t IH]; simpl; rewrite Hq; simpl.
  - reflexivity.
  - destruct (Ascii.eqb q a); [reflexivity|].
    destruct (is_line_terminator a); simpl; [reflexivity|]. exact IH.
Qed.

(** The star of a span followed by the closing hash. *)
Lemma span_star_spec (g : state -> state) (caps : captures) :
  forall n l, noBackslashes l -> (List.length l < n)%nat ->
  repeat_lazy (matcher span_item)
              (fun y => matcher (Chr hash) y (fun z => Some (g z))) n (l, caps)
  = option_map (fun r => g (r, caps)) (closing_hash l).
Proof.
  induction n as [|n IH]; intros l Hnb Hlen; [lia|].
  destruct l as [|a t]; [reflexivity|].
  inversion Hnb as [|? ? Ha Ht]; subst.
  cbn [repeat_lazy matcher closing_hash]. unfold char_matcher at 1. cbn [fst snd].
  destruct (Ascii.eqb hash a); [reflexivity|].
  unfold span_item at 1. cbn [matcher]. unfold char_matcher. cbn [fst snd]. rewrite Ha.
  assert (Hsingle :
            (if negb (is_line_terminator a)
             then if (List.length t =? List.length (a :: t))%nat then None
                  else repeat_lazy (matcher span_item)
                         (fun y => matcher (Chr hash) y (fun z => Some (g z))) n (t, caps)
             else None)
            = option_map (fun r => g (r, caps))
                         (if is_line_terminator a then None else closing_hash t)).
  { destruct (is_line_terminator a); [reflexivity|]. simpl negb. cbv iota.
    replace (List.length t =? List.length (a :: t))%nat with false
      by (symmetry; apply Nat.eqb_neq; simpl; lia).
    apply IH; [exact Ht|simpl in Hlen; lia]. }
  destruct (Ascii.eqb "[" a).
  - destruct t as [|x [|c t']].
    + exact Hsingle.
    + inversion Ht as [|? ? Hx _]; subst. rewrite Hx.
      destruct (negb (is_line_terminator x)); exact Hsingle.
    + inversion Ht as [|? ? Hx Ht']; subst. inversion Ht' as [|? ? _ Ht'']; subst.
      rewrite Hx. destruct (negb (is_line_terminator x)); [|exact Hsingle].
      cbn [andb]. destruct (Ascii.eqb "]" c); [|exact Hsingle].
      replace (List.length t' =? List.length (a :: x :: c :: t'))%nat with false
        by (symmetry; apply Nat.eqb_neq; simpl; lia).
      rewrite IH by (try exact Ht''; simpl in Hlen; lia).
      unfold span_item in Hsingle.
      destruct (closing_hash t'); [reflexivity|]. exact Hsingle.
  - exact Hsingle.
Qed.

Lemma line_star_spec (caps : captures) (l : list ascii) :
  matcher (Cat (LazyStar Dot) EndOfLine) (l, caps) Some = Some (skip_line l, caps).
Proof.
  cbn [matcher fst].
  rewrite (@repeat_lazy_chars (fun _ => True) (fun a => negb (is_line_terminator a))
             (matcher Dot) _ caps (fun _ _ _ => I) (fun _ _ _ => eq_refl)
             _ l I (Nat.lt_succ_diag_r _)).
  induction l as [|a t IH]; [reflexivity|].
  cbn [lazy_chars skip_line fst snd].
  destruct (is_line_terminator a); [reflexivity|]. exact IH.
Qed.

Lemma consumed_cons (a : ascii) (t : list ascii) (c1 c2 : captures) :
  consumed (a :: t, c1) (t, c2) = [a].
Proof.
  unfold consumed; cbn [fst List.length].
  replace (S (List.length t) - List.length t)%nat with 1%nat by lia. reflexivity.
Qed.

Lemma quoted_literal_spec (a : ascii) (t : list ascii) (g : state -> state) :
  noBackslashes t ->
  matcher quoted_literal (a :: t, []) (fun y => Some (g y))
  = if mem a [quote; apostrophe]
    then option_map (fun r => g (r, [(2%nat, [a])])) (closing_quote a t)
    else None.
Proof.
  intros Hnb. unfold quoted_literal.
  remember (Cat (LazyStar literal_item) (BackRef 2)) as rest eqn:Hrest.
  cbn [matcher]. unfold char_matcher. cbn [fst snd].
  destruct (mem a [quote; apostrophe]); [|reflexivity].
  rewrite consumed_cons. subst rest.
  apply literal_star_spec; [reflexivity|exact Hnb].
Qed.

Lemma hash_span_spec (a : ascii) (t : list ascii) (g : state -> state) :
  noBackslashes t ->
  matcher hash_span (a :: t, []) (fun y => Some (g y))
  = if Ascii.eqb hash a
    then if match t with
            | b :: _ => mem b [star; hash]
            | [] => false
            end
         then None
         else option_map (fun r => g (r, [])) (closing_hash t)
    else None.
Proof.
  intros Hnb. unfold hash_span.
  remember (Cat (LazyStar span_item) (Chr hash)) as rest eqn:Hrest.
  cbn [matcher]. unfold char_matcher. cbn [fst snd].
  destruct (Ascii.eqb hash a); [|reflexivity].
  assert (Hrest' : matcher rest (t, []) (fun y => Some (g y))
                   = option_map (fun r => g (r, [])) (closing_hash t)).
  { subst rest. cbn [matcher fst].
    apply span_star_spec; [exact Hnb|lia]. }
  destruct t as [|b t']; [exact Hrest'|].
  destruct (mem b [star; hash]); [reflexivity|exact Hrest'].
Qed.

Lemma line_comment_spec (a : ascii) (t : list ascii) :
  matcher line_comment (a :: t, []) Some
  = if Ascii.eqb hash a then Some (skip_line t, []) else None.
Proof.
  unfold line_comment.
  remember (Cat (LazyStar Dot) EndOfLine) as rest eqn:Hrest.
  cbn [matcher]. unfold char_matcher. cbn [fst snd].
  destruct (Ascii.eqb hash a); [|reflexivity].
  subst rest. apply line_star_spec.
Qed.

Lemma block_comment_needs_hash (a : ascii) (t : list ascii) k :
  Ascii.eqb hash a = false -> matcher block_comment (a :: t, []) k = None.
Proof.
  intros Hh. unfold block_comment.
  remember (Cat (Chr star) (Cat (LazyStar AnyChar) (Cat (Chr star) (Chr hash)))) as rest.
  cbn [matcher]. unfold char_matcher. cbn [fst snd]. rewrite Hh. reflexivity.
Qed.

Lemma quote_is_not_hash (a : ascii) :
  mem a [quote; apostrophe] = true -> Ascii.eqb hash a = false.
Proof.
  cbn [mem]. intros Hq. apply orb_true_iff in Hq. destruct Hq as [Hq|Hq].
  - apply Ascii.eqb_eq in Hq. subst a. reflexivity.
  - apply orb_true_iff in Hq. destruct Hq as [Hq|Hq]; [|discriminate].
    apply Ascii.eqb_eq in Hq. subst a. reflexivity.
Qed.

Lemma exec_spec (l : list ascii) :
  noBackslashes l ->
  option_map (fun y => (dollar1 (snd y), fst y)) (exec COMMENT_STRIPPING_REGEX l)
  = specExec l.
Proof.
  intros Hnb. destruct l as [|a t]; [reflexivity|].
  apply noBackslashes_tail in Hnb.
  unfold exec, COMMENT_STRIPPING_REGEX.
  remember (Alt quoted_literal hash_span) as kept eqn:Hkept.
  remember (Alt line_comment block_comment) as dropped eqn:Hdropped.
  cbn [matcher]. subst kept dropped. cbn [matcher].
  rewrite (@quoted_literal_spec a t
             (fun y => (fst y, (1%nat, consumed (a :: t, []) y) :: snd y)) Hnb).
  rewrite (@hash_span_spec a t
             (fun y => (fst y, (1%nat, consumed (a :: t, []) y) :: snd y)) Hnb).
  rewrite line_comment_spec.
  unfold specExec.
  destruct (mem a [quote; apostrophe]) eqn:Hq.
  - rewrite (quote_is_not_hash a Hq).
    rewrite (@block_comment_needs_hash a t Some (quote_is_not_hash a Hq)).
    destruct (closing_quote a t) as [r|]; reflexivity.
  - destruct (Ascii.eqb hash a) eqn:Hh.
    + destruct (match t with
                | b :: _ => mem b [star; hash]
                | [] => false
                end); [reflexivity|].
      destruct (closing_hash t) as [r|]; reflexivity.
    + rewrite (@block_comment_needs_hash a t Some Hh). reflexivity.
Qed.

Lemma lineprefix_app (c r' r : list ascii) :
  oneLine c -> lineprefix r' r -> lineprefix (c ++ r') (c ++ r).
Proof.
  intros Hc Hr. induction Hc as [|x c Hx _ IH]; [exact Hr|].
  simpl. apply lineprefix_cons; assumption.
Qed.

Lemma closing_quote_shorter (q : ascii) (l r : list ascii) :
  closing_quote q l = Some r -> (List.length r < List.length l)%nat.
Proof.
  revert r; induction l as [|a t IH]; simpl; intros r H; [discriminate|].
  destruct (Ascii.eqb q a).
  - injection H as <-. lia.
  - destruct (is_line_terminator a); [discriminate|].
    apply IH in H. lia.
Qed.

Lemma closing_hash_shorter (l r : list ascii) :
  closing_hash l = Some r -> (List.length r < List.length l)%nat.
Proof.
  remember (List.length l) as n eqn:Hn. revert l Hn r.
  induction n as [n IH] using lt_wf_ind. intros l Hn r H.
  destruct l as [|a t]; [discriminate|]. simpl in Hn. cbn [closing_hash] in H.
  destruct (Ascii.eqb hash a).
  - injection H as <-. simpl. lia.
  - assert (Hs : (if is_line_terminator a then None else closing_hash t) = Some r ->
                 (List.length r < n)%nat).
    { destruct (is_line_terminator a); [discriminate|]. intros H'.
      apply (IH (List.length t)) with (l := t) in H'; lia. }
    destruct (Ascii.eqb "[" a); [|subst n; apply Hs; exact H].
    destruct t as [|x [|c t']]; try (subst n; apply Hs; exact H).
    destruct (negb (is_line_terminator x) && Ascii.eqb "]" c);
      [|subst n; apply Hs; exact H].
    destruct (closing_hash t') as [r0|] eqn:Hb; [|subst n; apply Hs; exact H].
    injection H as <-.
    apply (IH (List.length t')) with (l := t') in Hb; simpl in *; lia.
Qed.

Lemma app_same_length_nil (c r : list ascii) : c ++ r = r -> c = [].
Proof.
  intros H. apply (f_equal (@List.length ascii)) in H. rewrite length_app in H.
  destruct c; [reflexivity|simpl in H; lia].
Qed.

(** The closing quote is found at the same place whatever follows it. *)
Lemma closing_quote_stable (q : ascii) (c r r' : list ascii) :
  is_line_terminator q = false ->
  closing_quote q (c ++ r) = Some r ->
  closing_quote q (c ++ r') = Some r' /\ oneLine c /\ c <> [].
Proof.
  intros Hq0. induction c as [|a c IH]; simpl; intros H.
  - apply closing_quote_shorter in H. lia.
  - destruct (Ascii.eqb q a) eqn:Hq.
    + injection H as H. apply app_same_length_nil in H. subst c.
      apply Ascii.eqb_eq in Hq. subst a. split; [reflexivity|]. split; [|discriminate].
      constructor; [exact Hq0|constructor].
    + destruct (is_line_terminator a) eqn:Ha; [discriminate|].
      destruct (IH H) as (H1 & H2 & _). split; [exact H1|].
      split; [constructor; assumption|discriminate].
Qed.

(** A line without a closing quote has none in any of its prefixes. *)
Lemma closing_quote_none (q : ascii) (l' l : list ascii) :
  is_line_terminator q = false ->
  lineprefix l' l -> closing_quote q l = None -> closing_quote q l' = None.
Proof.
  intros Hq0 Hlp. induction Hlp as [l|a t l Ha|a t' t Ha Hlp IH]; intros H.
  - reflexivity.
  - simpl. destruct (Ascii.eqb q a) eqn:Hq.
    + apply Ascii.eqb_eq in Hq. congruence.
    + rewrite Ha. reflexivity.
  - simpl in *. destruct (Ascii.eqb q a); [discriminate|].
    rewrite Ha in *. apply IH; exact H.
Qed.

(** The same for the hash that closes a span. *)
Lemma closing_hash_none (l' l : list ascii) :
  lineprefix l' l -> closing_hash l = None -> closing_hash l' = None.
Proof.
  remember (List.length l') as n eqn:Hn. revert l' Hn l.
  induction n as [n IH] using lt_wf_ind. intros l' Hn l Hlp H.
  destruct Hlp as [l|a t l Ha|a t' t Ha Hlp].
  - reflexivity.
  - cbn [closing_hash].
    destruct (Ascii.eqb hash a) eqn:Hh;
      [apply Ascii.eqb_eq in Hh; subst a; discriminate|].
    destruct (Ascii.eqb "[" a) eqn:Hb;
      [apply Ascii.eqb_eq in Hb; subst a; discriminate|].
    rewrite Ha. reflexivity.
  - cbn [closing_hash] in H |- *. simpl in Hn.
    destruct (Ascii.eqb hash a); [discriminate|].
    rewrite Ha in *.
    assert (Hsingle : closing_hash t = None -> closing_hash t' = None).
    { intros Ht. apply (IH (List.length t')) with (l := t); [lia|reflexivity|assumption..]. }
    destruct (Ascii.eqb "[" a).
    + destruct t' as [|x' [|c' t'']]; try (apply Hsingle;
        destruct t as [|x [|c t2]]; [exact H..|];
        destruct (negb (is_line_terminator x) && Ascii.eqb "]" c);
        [destruct (closing_hash t2); [discriminate|exact H]|exact H]).
      destruct (negb (is_line_terminator x') && Ascii.eqb "]" c') eqn:Hshape.
      * apply andb_true_iff in Hshape. destruct Hshape as [Hx' Hc'].
        apply negb_true_iff in Hx'. apply Ascii.eqb_eq in Hc'. subst c'.
        inversion Hlp as [|? ? ? Hbad|? ? t1 _ Hlp1]; subst; [congruence|].
        inversion Hlp1 as [|? ? ? Hbad|? ? t2 _ Hlp2]; subst; [discriminate|].
        rewrite Hx' in H. cbn [negb andb] in H. rewrite Ascii.eqb_refl in H.
        destruct (closing_hash t2) eqn:Ht2; [discriminate|].
        rewrite (IH (List.length t'')) with (l' := t'') (l := t2);
          [|simpl; lia|reflexivity|assumption..].
        apply (IH (List.length (x' :: "]"%char :: t''))) with (l := x' :: "]"%char :: t2);
          [simpl; lia|reflexivity| |exact H].
        constructor; [exact Hx'|]. constructor; [reflexivity|exact Hlp2].
      * apply Hsingle.
        destruct t as [|x [|c t2]]; [exact H..|].
        destruct (negb (is_line_terminator x) && Ascii.eqb "]" c);
          [destruct (closing_hash t2); [discriminate|exact H]|exact H].
    + apply Hsingle. exact H.
Qed.

Lemma closing_hash_cons (a : ascii) (t : list ascii) :
  closing_hash (a :: t)
  = if Ascii.eqb hash a then Some t
    else match bracketed a t with
         | Some r => Some r
         | None => if is_line_terminator a then None else closing_hash t
         end.
Proof. reflexivity. Qed.

Lemma bracketed_some (a : ascii) (t r : list ascii) :
  bracketed a t = Some r ->
  exists x t', t = x :: "]"%char :: t' /\ is_line_terminator x = false
               /\ a = "["%char /\ closing_hash t' = Some r.
Proof.
  unfold bracketed. destruct (Ascii.eqb "[" a) eqn:Ha; [|discriminate].
  destruct t as [|x [|c t']]; try discriminate.
  destruct (negb (is_line_terminator x) && Ascii.eqb "]" c) eqn:Hs; [|discriminate].
  apply andb_true_iff in Hs. destruct Hs as [Hx Hc].
  apply negb_true_iff in Hx. apply Ascii.eqb_eq in Hc. apply Ascii.eqb_eq in Ha.
  intros H. exists x, t'. subst. repeat split; assumption.
Qed.

Lemma bracketed_none (a : ascii) (t' t : list ascii) :
  lineprefix t' t -> bracketed a t = None -> bracketed a t' = None.
Proof.
  intros Hlp H. destruct (bracketed a t') as [r'|] eqn:H'; [|reflexivity].
  apply bracketed_some in H'. destruct H' as (x & t'' & -> & Hx & -> & Hr').
  inversion Hlp as [|? ? ? Hbad|? ? t1 _ Hlp1]; subst; [congruence|].
  inversion Hlp1 as [|? ? ? Hbad|? ? t2 _ Hlp2]; subst; [discriminate|].
  unfold bracketed in H. cbn in H. rewrite Hx in H. cbn in H.
  rewrite (closing_hash_none Hlp2 H) in Hr'. discriminate.
Qed.

(** The hash that closes a span is found at the same place when the line
    after it is cut short. *)
Lemma closing_hash_stable (c r r' : list ascii) :
  closing_hash (c ++ r) = Some r -> lineprefix r' r ->
  closing_hash (c ++ r') = Some r' /\ oneLine c /\ c <> [].
Proof.
  remember (List.length c) as n eqn:Hn. revert c Hn.
  induction n as [n IH] using lt_wf_ind. intros c Hn H Hlp.
  destruct c as [|a c1].
  - apply closing_hash_shorter in H. simpl in H. lia.
  - simpl app in *. rewrite closing_hash_cons in H |- *. simpl in Hn.
    destruct (Ascii.eqb hash a) eqn:Hh.
    + injection H as H. apply app_same_length_nil in H. subst c1.
      apply Ascii.eqb_eq in Hh. subst a.
      split; [reflexivity|]. split; [|discriminate].
      constructor; [reflexivity|constructor].
    + destruct (bracketed a (c1 ++ r)) as [r0|] eqn:Hb.
      * injection H as ->.
        apply bracketed_some in Hb. destruct Hb as (x & t2 & Hc1 & Hx & -> & Ht2).
        pose proof (closing_hash_shorter _ Ht2) as Hlen.
        destruct c1 as [|x0 [|c0 c2]]; simpl in Hc1.
        -- subst r. simpl in Hlen. lia.
        -- injection Hc1 as -> ->. simpl in Hlen. lia.
        -- injection Hc1 as -> -> <-.
           destruct (IH (List.length c2)) with (c := c2) as (H1 & H2 & _);
             [simpl in Hn; lia|reflexivity|exact Ht2|exact Hlp|].
           split.
           ++ unfold bracketed. cbn. rewrite Hx. cbn. rewrite H1. reflexivity.
           ++ split; [|discriminate].
              constructor; [reflexivity|]. constructor; [exact Hx|].
              constructor; [reflexivity|exact H2].
      * destruct (is_line_terminator a) eqn:Ha; [discriminate|].
        destruct (IH (List.length c1)) with (c := c1) as (H1 & H2 & _);
          [lia|reflexivity|exact H|exact Hlp|].
        rewrite (bracketed_none a (lineprefix_app H2 Hlp) Hb).
        split; [exact H1|]. split; [constructor; assumption|discriminate].
Qed.

(** The rest found by the searches is a suffix of the text searched. *)
Lemma closing_quote_suffix (q : ascii) (l r : list ascii) :
  closing_quote q l = Some r -> exists c, l = c ++ r.
Proof.
  revert r; induction l as [|a t IH]; simpl; intros r H; [discriminate|].
  destruct (Ascii.eqb q a).
  - injection H as <-. exists [a]. reflexivity.
  - destruct (is_line_terminator a); [discriminate|].
    destruct (IH _ H) as [c ->]. exists (a :: c). reflexivity.
Qed.

Lemma closing_hash_suffix (l r : list ascii) :
  closing_hash l = Some r -> exists c, l = c ++ r.
Proof.
  remember (List.length l) as n eqn:Hn. revert l Hn r.
  induction n as [n IH] using lt_wf_ind. intros l Hn r H.
  destruct l as [|a t]; [discriminate|]. simpl in Hn.
  rewrite closing_hash_cons in H.
  destruct (Ascii.eqb hash a).
  - injection H as <-. exists [a]. reflexivity.
  - destruct (bracketed a t) as [r0|] eqn:Hb.
    + injection H as ->. apply bracketed_some in Hb.
      destruct Hb as (x & t' & -> & _ & -> & Hr).
      destruct (IH (List.length t')) with (l := t') (r := r) as [c ->];
        [simpl in Hn; lia|reflexivity|exact Hr|].
      exists ("["%char :: x :: "]"%char :: c). reflexivity.
    + destruct (is_line_terminator a); [discriminate|].
      destruct (IH (List.length t)) with (l := t) (r := r) as [c ->];
        [lia|reflexivity|exact H|].
      exists (a :: c). reflexivity.
Qed.

Lemma skip_line_suffix (l : list ascii) : exists c, l = c ++ skip_line l.
Proof.
  induction l as [|a t [c IH]]; simpl.
  - exists []. reflexivity.
  - destruct (is_line_terminator a).
    + exists []. reflexivity.
    + exists (a :: c). simpl. rewrite <- IH. reflexivity.
Qed.

Lemma skip_line_head (l : list ascii) :
  match skip_line l with
  | [] => True
  | b :: _ => is_line_terminator b = true
  end.
Proof.
  induction l as [|a t IH]; simpl; [exact I|].
  destruct (is_line_terminator a) eqn:Ha; [exact Ha|exact IH].
Qed.

Lemma skip_line_app (c rest : list ascii) :
  oneLine c ->
  match rest with
  | [] => True
  | b :: _ => is_line_terminator b = true
  end ->
  skip_line (c ++ rest) = rest.
Proof.
  intros Hc Hrest. induction Hc as [|x c Hx _ IH]; simpl.
  - destruct rest as [|b u]; [reflexivity|]. simpl. rewrite Hrest. reflexivity.
  - rewrite Hx. exact IH.
Qed.

Lemma keptOf_app (c r : list ascii) : keptOf (c ++ r) r = c.
Proof.
  unfold keptOf. rewrite length_app.
  replace (List.length c + List.length r - List.length r)%nat with (List.length c) by lia.
  rewrite firstn_app, Nat.sub_diag, firstn_all. simpl. apply app_nil_r.
Qed.

Lemma quote_is_not_terminator (a : ascii) :
  mem a [quote; apostrophe] = true -> is_line_terminator a = false.
Proof.
  cbn [mem]. intros Hq. apply orb_true_iff in Hq. destruct Hq as [Hq|Hq].
  - apply Ascii.eqb_eq in Hq. subst a. reflexivity.
  - apply orb_true_iff in Hq. destruct Hq as [Hq|Hq]; [|discriminate].
    apply Ascii.eqb_eq in Hq. subst a. reflexivity.
Qed.

Lemma terminator_starts_nothing (b : ascii) (u : list ascii) :
  is_line_terminator b = true -> specExec (b :: u) = None.
Proof.
  unfold is_line_terminator. intros H. apply orb_true_iff in H.
  destruct H as [H|H]; apply Ascii.eqb_eq in H; subst b; reflexivity.
Qed.

Lemma specExec_attempt (l : list ascii) : attempt l (specExec l).
Proof.
  destruct l as [|a t]; [constructor|].
  unfold specExec.
  destruct (mem a [quote; apostrophe]) eqn:Hq.
  - destruct (closing_quote a t) as [r|] eqn:Hr; [|constructor].
    destruct (@closing_quote_suffix a t r Hr) as [c ->].
    change (a :: c ++ r) with ((a :: c) ++ r). rewrite keptOf_app.
    pose proof (quote_is_not_terminator a Hq) as Ha.
    apply attempt_kept; [reflexivity|discriminate| |].
    + constructor; [exact Ha|].
      apply (@closing_quote_stable a c r r Ha Hr).
    + intros r' _. change ((a :: c) ++ r') with (a :: (c ++ r')).
      unfold specExec. rewrite Hq.
      destruct (@closing_quote_stable a c r r' Ha Hr) as (-> & _ & _).
      change (a :: c ++ r') with ((a :: c) ++ r'). rewrite keptOf_app. reflexivity.
  - destruct (Ascii.eqb hash a) eqn:Hh; [|constructor].
    apply Ascii.eqb_eq in Hh. subst a.
    destruct (match t with
              | b :: _ => mem b [star; hash]
              | [] => false
              end) eqn:Hahead; [apply attempt_comment; reflexivity|].
    destruct (closing_hash t) as [r|] eqn:Hr; [|apply attempt_comment; reflexivity].
    destruct (@closing_hash_suffix t r Hr) as [c ->].
    change (hash :: c ++ r) with ((hash :: c) ++ r). rewrite keptOf_app.
    apply attempt_kept; [reflexivity|discriminate| |].
    + constructor; [reflexivity|].
      apply (@closing_hash_stable c r [] Hr (lineprefix_nil r)).
    + intros r' Hlp.
      destruct (@closing_hash_stable c r r' Hr Hlp) as (Hr' & _ & Hne).
      destruct c as [|b c]; [congruence|].
      change ((hash :: (b :: c)) ++ r') with (hash :: b :: (c ++ r')).
      change ((b :: c) ++ r) with (b :: (c ++ r)) in Hahead.
      change ((b :: c) ++ r') with (b :: (c ++ r')) in Hr'.
      unfold specExec. rewrite Hq, Ascii.eqb_refl, Hahead, Hr'.
      change (hash :: b :: c ++ r') with ((hash :: b :: c) ++ r').
      rewrite keptOf_app. reflexivity.
Qed.

(** A larger counter changes nothing. *)
Lemma replace_loop_fuel (r : regex) (n m : nat) (l : list ascii) :
  (List.length l < n)%nat -> (List.length l < m)%nat ->
  replace_loop r n l = replace_loop r m l.
Proof.
  revert m l. induction n as [|n IH]; intros m l Hn Hm; [lia|].
  destruct m as [|m]; [lia|]. cbn [replace_loop].
  assert (Hstep : match l with
                  | [] => []
                  | c :: t => c :: replace_loop r n t
                  end
                  = match l with
                    | [] => []
                    | c :: t => c :: replace_loop r m t
                    end).
  { destruct l as [|c t]; [reflexivity|]. simpl in Hn, Hm.
    f_equal. apply IH; lia. }
  destruct (exec r l) as [[rest caps]|]; [|exact Hstep].
  destruct (List.length rest <? List.length l)%nat eqn:Hlt.
  - apply Nat.ltb_lt in Hlt. f_equal. apply IH; lia.
  - f_equal. exact Hstep.
Qed.

Lemma attempt_shorter (l kept rest : list ascii) :
  attempt l (Some (kept, rest)) -> (List.length rest < List.length l)%nat.
Proof.
  intros H. inversion H as [|c r Hl Hc _ _|t Hl]; subst.
  - rewrite length_app. destruct kept; [congruence|simpl; lia].
  - destruct (skip_line_suffix t) as [c Hc].
    rewrite Hc at 2. simpl. rewrite length_app. lia.
Qed.

Lemma stripList_unfold (l : list ascii) :
  noBackslashes l ->
  stripList l
  = match specExec l with
    | Some (kept, rest) => kept ++ stripList rest
    | None =>
        match l with
        | [] => []
        | a :: t => a :: stripList t
        end
    end.
Proof.
  intros Hnb. unfold stripList at 1. cbn [replace_loop].
  assert (Hstep : match l with
                  | [] => []
                  | c :: t => c :: replace_loop COMMENT_STRIPPING_REGEX (List.length l) t
                  end
                  = match l with
                    | [] => []
                    | a :: t => a :: stripList t
                    end).
  { destruct l as [|a t]; reflexivity. }
  pose proof (exec_spec Hnb) as Hspec.
  pose proof (specExec_attempt l) as Hatt.
  destruct (exec COMMENT_STRIPPING_REGEX l) as [[rest caps]|];
    cbn [option_map fst snd] in Hspec; rewrite <- Hspec in *; [|exact Hstep].
  apply attempt_shorter in Hatt.
  apply Nat.ltb_lt in Hatt. rewrite Hatt. f_equal.
  apply replace_loop_fuel; apply Nat.ltb_lt in Hatt; lia.
Qed.

Lemma noBackslashes_app (c r : list ascii) :
  noBackslashes (c ++ r) <-> noBackslashes c /\ noBackslashes r.
Proof. apply Forall_app. Qed.

(** What is left has no backslash either, and its first line is the start
    of the first line of the text. *)
Lemma stripList_invariants (l : list ascii) :
  noBackslashes l -> noBackslashes (stripList l) /\ lineprefix (stripList l) l.
Proof.
  remember (List.length l) as n eqn:Hn. revert l Hn.
  induction n as [n IH] using lt_wf_ind. intros l Hn Hnb.
  rewrite (stripList_unfold Hnb).
  pose proof (specExec_attempt l) as Hatt.
  destruct (specExec l) as [[kept rest]|].
  - pose proof (attempt_shorter Hatt) as Hlen.
    inversion Hatt as [|c r Hl Hc Hone _|t Hl]; subst.
    + apply noBackslashes_app in Hnb. destruct Hnb as [Hk Hr].
      destruct (IH (List.length rest)) with (l := rest) as [H1 H2];
        [lia|reflexivity|exact Hr|].
      split; [apply noBackslashes_app; split; assumption|].
      apply lineprefix_app; assumption.
    + cbn [app].
      assert (Hrest : noBackslashes (skip_line t)).
      { destruct (skip_line_suffix t) as [c Hc].
        apply noBackslashes_tail in Hnb. rewrite Hc in Hnb.
        apply noBackslashes_app in Hnb. tauto. }
      destruct (IH (List.length (skip_line t))) with (l := skip_line t) as [H1 _];
        [lia|reflexivity|exact Hrest|].
      split; [exact H1|].
      pose proof (skip_line_head t) as Hhead.
      rewrite (stripList_unfold Hrest).
      destruct (skip_line t) as [|b u]; [constructor|].
      rewrite (@terminator_starts_nothing b u Hhead).
      apply lineprefix_break. exact Hhead.
  - destruct l as [|a t]; [split; constructor|].
    destruct (IH (List.length t)) with (l := t) as [H1 H2];
      [simpl in Hn; lia|reflexivity|exact (noBackslashes_tail Hnb)|].
    split.
    + inversion Hnb; subst. constructor; assumption.
    + destruct (is_line_terminator a) eqn:Ha.
      * apply lineprefix_break. exact Ha.
      * apply lineprefix_cons; assumption.
Qed.

(** An attempt that fails at a character fails there when the line after
    it is cut short. *)
Lemma specExec_none_stable (a : ascii) (t' t : list ascii) :
  lineprefix t' t -> specExec (a :: t) = None -> specExec (a :: t') = None.
Proof.
  intros Hlp. unfold specExec.
  destruct (mem a [quote; apostrophe]) eqn:Hq.
  - destruct (closing_quote a t) eqn:Hr; [discriminate|]. intros _.
    rewrite (@closing_quote_none a t' t (quote_is_not_terminator a Hq) Hlp Hr). reflexivity.
  - destruct (Ascii.eqb hash a); [|reflexivity].
    destruct (if match t with
                 | b :: _ => mem b [star; hash]
                 | [] => false
                 end then None else closing_hash t); discriminate.
Qed.

(** Stripping twice is stripping once, on a text without backslashes. *)
Lemma stripList_idempotent (l : list ascii) :
  noBackslashes l -> stripList (stripList l) = stripList l.
Proof.
  remember (List.length l) as n eqn:Hn. revert l Hn.
  induction n as [n IH] using lt_wf_ind. intros l Hn Hnb.
  pose proof (stripList_invariants Hnb) as [Hnb' _].
  rewrite (stripList_unfold Hnb) in Hnb' |- *.
  pose proof (specExec_attempt l) as Hatt.
  destruct (specExec l) as [[kept rest]|] eqn:Hspec.
  - pose proof (attempt_shorter Hatt) as Hlen.
    inversion Hatt as [|c r Hl Hc Hone Hstable|t Hl]; subst.
    + apply noBackslashes_app in Hnb. destruct Hnb as [_ Hr].
      destruct (stripList_invariants Hr) as [_ Hlp].
      rewrite (stripList_unfold Hnb'), (Hstable _ Hlp).
      f_equal. apply (IH (List.length rest)); [lia|reflexivity|exact Hr].
    + cbn [app] in *.
      apply (IH (List.length (skip_line t))); [lia|reflexivity|].
      destruct (skip_line_suffix t) as [c Hc].
      apply noBackslashes_tail in Hnb. rewrite Hc in Hnb.
      apply noBackslashes_app in Hnb. tauto.
  - destruct l as [|a t]; [reflexivity|].
    pose proof (noBackslashes_tail Hnb) as Ht.
    destruct (stripList_invariants Ht) as [_ Hlp].
    rewrite (stripList_unfold Hnb'), (@specExec_none_stable a _ t Hlp Hspec).
    f_equal. apply (IH (List.length t)); [simpl in Hn; lia|reflexivity|exact Ht].
Qed.

Lemma mem_terminator (cs : list ascii) (b : ascii) :
  forallb (fun c => negb (is_line_terminator c)) cs = true ->
  is_line_terminator b = true -> mem b cs = false.
Proof.
  induction cs as [|c cs IH]; simpl; intros H Hb; [reflexivity|].
  apply andb_true_iff in H. destruct H as [Hc H].
  rewrite (IH H Hb), orb_false_r.
  apply Ascii.eqb_neq. intros ->. rewrite Hb in Hc. discriminate.
Qed.

(** Started in a line, a line-local expression hands over only states of
    the same line: when the continuation fails on all of them, so does
    the expression. *)
Lemma lineLocal_none (ok : ascii -> bool) (rest : list ascii) (r : regex) :
  atLineEndL rest -> lineLocal r = true ->
  forall (l : list ascii) (caps : captures) (k : state -> option state),
    lineOf ok rest l ->
    (forall l' caps', lineOf ok rest l' -> k (l', caps') = None) ->
    matcher r (l, caps) k = None.
Proof.
  intros Hend.
  assert (Hchar : forall (test : ascii -> bool),
             (forall b, is_line_terminator b = true -> test b = false) ->
             forall l caps (k : state -> option state),
               lineOf ok rest l ->
               (forall l' caps', lineOf ok rest l' -> k (l', caps') = None) ->
               char_matcher test (l, caps) k = None).
  { intros test Htest l caps k [c [-> Hc]] Hk. unfold char_matcher. cbn [fst snd].
    destruct c as [|a c]; cbn [app].
    - destruct rest as [|b u]; [reflexivity|]. rewrite (Htest b Hend). reflexivity.
    - destruct (test a); [|reflexivity]. apply Hk. exists c. split; [reflexivity|].
      inversion Hc; assumption. }
  induction r as [c| | |cs|r1 IH1 r2 IH2|r1 IH1 r2 IH2|r1 IH1|n r1 IH1|n|r1 IH1|];
    intros Hr l caps k Hl Hk; cbn [lineLocal] in Hr; try discriminate; cbn [matcher].
  - apply Hchar; [|exact Hl|exact Hk].
    intros b Hb. apply Ascii.eqb_neq. intros ->. rewrite Hb in Hr. discriminate.
  - apply Hchar; [|exact Hl|exact Hk]. intros b Hb. rewrite Hb. reflexivity.
  - apply Hchar; [|exact Hl|exact Hk]. intros b Hb. apply mem_terminator; assumption.
  - apply andb_true_iff in Hr. destruct Hr as [Hr1 Hr2].
    apply IH1; [exact Hr1|exact Hl|]. intros l' caps' Hl'.
    apply IH2; [exact Hr2|exact Hl'|exact Hk].
  - apply andb_true_iff in Hr. destruct Hr as [Hr1 Hr2].
    rewrite (IH1 Hr1 l caps k Hl Hk). apply IH2; assumption.
Qed.

(** On a line without a hash the search for the hash that closes a span
    fails. *)
Lemma span_star_hashless (rest : list ascii) (k : state -> option state) :
  atLineEndL rest ->
  forall (n : nat) (l : list ascii) (caps : captures),
    lineOf (fun x => negb (Ascii.eqb hash x)) rest l ->
    repeat_lazy (matcher span_item) (fun y => matcher (Chr hash) y k) n (l, caps) = None.
Proof.
  intros Hend. induction n as [|n IH]; intros l caps Hl; [reflexivity|].
  cbn [repeat_lazy].
  assert (Hk : matcher (Chr hash) (l, caps) k = None).
  { cbn [matcher]. unfold char_matcher. cbn [fst snd].
    destruct Hl as [c [-> Hc]]. destruct c as [|a c]; cbn [app].
    - destruct rest as [|b u]; [reflexivity|].
      destruct (Ascii.eqb hash b) eqn:Hb; [|reflexivity].
      apply Ascii.eqb_eq in Hb. subst b. discriminate.
    - inversion Hc as [|? ? [Ha _] _]; subst.
      apply negb_true_iff in Ha. rewrite Ha. reflexivity. }
  rewrite Hk.
  apply (@lineLocal_none (fun x => negb (Ascii.eqb hash x)) rest span_item Hend eq_refl);
    [exact Hl|].
  intros l' caps' Hl'. cbn [fst].
  destruct (List.length l' =? List.length l)%nat; [reflexivity|].
  apply IH. exact Hl'.
Qed.

Lemma quoted_literal_needs_quote (a : ascii) (t : list ascii) (caps : captures)
      (k : state -> option state) :
  mem a [quote; apostrophe] = false -> matcher quoted_literal (a :: t, caps) k = None.
Proof.
  intros Ha. unfold quoted_literal.
  remember (Cat (LazyStar literal_item) (BackRef 2)) as rest.
  cbn [matcher]. unfold char_matcher. cbn [fst snd]. rewrite Ha. reflexivity.
Qed.

(** One step of the replacement at a match that reads something. *)
Lemma stripList_step (l rest : list ascii) (caps : captures) :
  exec COMMENT_STRIPPING_REGEX l = Some (rest, caps) ->
  (List.length rest < List.length l)%nat ->
  stripList l = dollar1 caps ++ stripList rest.
Proof.
  intros Hexec Hlen. unfold stripList at 1. cbn [replace_loop]. rewrite Hexec.
  pose proof Hlen as Hlt. apply Nat.ltb_lt in Hlt. rewrite Hlt. f_equal.
  apply replace_loop_fuel; lia.
Qed.

(** No span starts at a hash with no second hash on its line. *)
Lemma hash_span_hashless (rest t : list ascii) (g : state -> state) :
  atLineEndL rest ->
  lineOf (fun x => negb (Ascii.eqb hash x)) rest t ->
  matcher hash_span (hash :: t, []) (fun y => Some (g y)) = None.
Proof.
  intros Hend Hline. unfold hash_span.
  remember (Cat (LazyStar span_item) (Chr hash)) as inner eqn:Hinner.
  cbn [matcher]. unfold char_matcher. cbn [fst snd]. rewrite Ascii.eqb_refl.
  match goal with
  | |- match ?m with Some _ => None | None => _ end = None => destruct m
  end; [reflexivity|].
  subst inner. cbn [matcher fst].
  apply (@span_star_hashless rest _ Hend _ _ _ Hline).
Qed.

(** A hash with no second hash on its line starts a match that reads the
    line to its end and keeps nothing, whatever the text after the line. *)
Lemma exec_comment (c rest : list ascii) :
  Forall (fun x => Ascii.eqb hash x = false /\ is_line_terminator x = false) c ->
  atLineEndL rest ->
  exec COMMENT_STRIPPING_REGEX (hash :: c ++ rest) = Some (rest, []).
Proof.
  intros Hc Hend.
  assert (Hline : lineOf (fun x => negb (Ascii.eqb hash x)) rest (c ++ rest)).
  { exists c. split; [reflexivity|]. eapply Forall_impl; [|exact Hc].
    intros x [H1 H2]. rewrite H1. split; [reflexivity|exact H2]. }
  assert (Hone : oneLine c).
  { unfold oneLine. eapply Forall_impl; [|exact Hc]. intros x [_ Hx]; exact Hx. }
  unfold exec, COMMENT_STRIPPING_REGEX.
  remember (Alt quoted_literal hash_span) as kept eqn:Hkept.
  remember (Alt line_comment block_comment) as dropped eqn:Hdropped.
  cbn [matcher]. subst kept dropped. cbn [matcher].
  rewrite (@quoted_literal_needs_quote hash (c ++ rest) [] _ eq_refl).
  rewrite (@hash_span_hashless rest (c ++ rest)
             (fun y => (fst y, (1%nat, consumed (hash :: c ++ rest, []) y) :: snd y))
             Hend Hline).
  rewrite line_comment_spec, Ascii.eqb_refl.
  rewrite (@skip_line_app c rest Hone Hend). reflexivity.
Qed.

(** The star of a literal reads a body without quote, line terminator and
    backslash up to the closing quote, whatever the text after it. *)
Lemma literal_star_found (q : ascii) (rest : list ascii) (caps : captures)
      (kq : state -> option state) (z : state) :
  (forall x l, Ascii.eqb q x = false -> kq (x :: l, caps) = None) ->
  kq (q :: rest, caps) = Some z ->
  forall (body : list ascii) (n : nat),
    Forall (fun x => Ascii.eqb q x = false /\ is_line_terminator x = false
                     /\ Ascii.eqb backslash x = false) body ->
    (List.length body < n)%nat ->
    repeat_lazy (matcher literal_item) kq n (body ++ q :: rest, caps) = Some z.
Proof.
  intros Hmiss Hhit. induction body as [|x body IH]; intros n Hbody Hn.
  - destruct n as [|n]; [simpl in Hn; lia|].
    cbn [app repeat_lazy]. rewrite Hhit. reflexivity.
  - destruct n as [|n]; [simpl in Hn; lia|].
    inversion Hbody as [|? ? (Hx1 & Hx2 & Hx3) Hbody']; subst.
    cbn [app repeat_lazy]. rewrite (Hmiss x _ Hx1).
    unfold literal_item at 1. cbn [matcher]. unfold char_matcher. cbn [fst snd].
    rewrite Hx3, Hx2. cbn [negb].
    replace (List.length (body ++ q :: rest) =? List.length (x :: body ++ q :: rest))%nat
      with false by (symmetry; apply Nat.eqb_neq; simpl; lia).
    apply IH; [exact Hbody'|simpl in Hn; lia].
Qed.

(** The opening quote of a literal closed on its line, with no backslash
    in it, starts a match that keeps the literal. *)
Lemma exec_literal (q : ascii) (body rest : list ascii) :
  mem q [quote; apostrophe] = true ->
  Forall (fun x => Ascii.eqb q x = false /\ is_line_terminator x = false
                   /\ Ascii.eqb backslash x = false) body ->
  exec COMMENT_STRIPPING_REGEX (q :: body ++ q :: rest)
  = Some (rest, [(1%nat, q :: body ++ [q]); (2%nat, [q])]).
Proof.
  intros Hq Hbody.
  unfold exec, COMMENT_STRIPPING_REGEX.
  remember (Alt quoted_literal hash_span) as kept eqn:Hkept.
  remember (Alt line_comment block_comment) as dropped eqn:Hdropped.
  cbn [matcher]. subst kept. cbn [matcher].
  unfold quoted_literal.
  remember (Cat (LazyStar literal_item) (BackRef 2)) as inner eqn:Hinner.
  cbn [matcher]. unfold char_matcher at 1. cbn [fst snd]. rewrite Hq.
  rewrite consumed_cons. subst inner. cbn [matcher fst].
  rewrite (@literal_star_found q rest [(2%nat, [q])] _
             (rest, [(1%nat, q :: body ++ [q]); (2%nat, [q])])).
  - reflexivity.
  - intros x l Hx. cbn [snd capture Nat.eqb fst strip_prefix]. rewrite Hx. reflexivity.
  - cbn [snd capture Nat.eqb fst strip_prefix]. rewrite Ascii.eqb_refl.
    unfold consumed. cbn [fst].
    change (q :: body ++ q :: rest) with ((q :: body) ++ q :: rest).
    replace ((q :: body) ++ q :: rest) with (((q :: body) ++ [q]) ++ rest)
      by (rewrite <- app_assoc; reflexivity).
    fold (keptOf (((q :: body) ++ [q]) ++ rest) rest). rewrite keptOf_app.
    reflexivity.
  - exact Hbody.
  - rewrite length_app. simpl. lia.
Qed.

Lemma stripList_literal_anywhere (q : ascii) (body rest : list ascii) :
  mem q [quote; apostrophe] = true ->
  Forall (fun x => Ascii.eqb q x = false /\ is_line_terminator x = false
                   /\ Ascii.eqb backslash x = false) body ->
  stripList (q :: body ++ q :: rest) = q :: body ++ q :: stripList rest.
Proof.
  intros Hq Hbody.
  rewrite (@stripList_step _ _ _ (@exec_literal q body rest Hq Hbody))
    by (simpl; rewrite length_app; simpl; lia).
  unfold dollar1. cbn [capture Nat.eqb app]. rewrite <- app_assoc. reflexivity.
Qed.

Lemma stripList_comment_anywhere (c rest : list ascii) :
  Forall (fun x => Ascii.eqb hash x = false /\ is_line_terminator x = false) c ->
  atLineEndL rest ->
  stripList (hash :: c ++ rest) = stripList rest.
Proof.
  intros Hc Hend.
  rewrite (@stripList_step _ _ _ (@exec_comment c rest Hc Hend))
    by (simpl; rewrite length_app; lia).
  reflexivity.
Qed.

Lemma strip_prefix_suffix (p s t : list ascii) :
  strip_prefix p s = Some t -> exists c, s = c ++ t.
Proof.
  revert s; induction p as [|a p IH]; intros s H; simpl in H.
  - injection H as <-. exists []. reflexivity.
  - destruct s as [|b s]; [discriminate|].
    destruct (Ascii.eqb a b); [|discriminate].
    destruct (IH _ H) as [c ->]. exists (b :: c). reflexivity.
Qed.

(** A match ends in a state handed to the continuation, and the rest of the
    input there is a suffix of the rest of the input at the start. *)
Lemma matcher_reaches (r : regex) :
  forall (x : state) (k : state -> option state) (z : state),
    matcher r x k = Some z ->
    exists y, (exists c, fst x = c ++ fst y) /\ k y = Some z.
Proof.
  assert (Hchar : forall ok (x : state) (k : state -> option state) z,
             char_matcher ok x k = Some z ->
             exists y, (exists c, fst x = c ++ fst y) /\ k y = Some z).
  { intros ok [l caps] k z. unfold char_matcher; cbn [fst snd].
    destruct l as [|a t]; [discriminate|].
    destruct (ok a); [|discriminate]. intros H.
    exists (t, caps). split; [exists [a]; reflexivity|exact H]. }
  induction r as [c| | |cs|r1 IH1 r2 IH2|r1 IH1 r2 IH2|r1 IH1|n r1 IH1|n|r1 IH1|];
    intros x k z H; cbn [matcher] in H; try (apply Hchar in H; exact H).
  - apply IH1 in H. destruct H as (y & [c Hc] & H).
    apply IH2 in H. destruct H as (y' & [c' Hc'] & H).
    exists y'. split; [|exact H]. exists (c ++ c'). rewrite Hc, Hc', app_assoc. reflexivity.
  - destruct (matcher r1 x k) eqn:H1.
    + injection H as ->. apply IH1 in H1. exact H1.
    + apply IH2 in H. exact H.
  - revert H. generalize (S (List.length (fst x))). intros n. revert x.
    induction n as [|n IHn]; intros x H; [discriminate|].
    cbn [repeat_lazy] in H. destruct (k x) eqn:Hk.
    + injection H as ->. exists x. split; [exists []; reflexivity|exact Hk].
    + apply IH1 in H. destruct H as (y & [c Hc] & H).
      destruct (List.length (fst y) =? List.length (fst x))%nat; [discriminate|].
      apply IHn in H. destruct H as (y' & [c' Hc'] & H).
      exists y'. split; [|exact H]. exists (c ++ c'). rewrite Hc, Hc', app_assoc. reflexivity.
  - apply IH1 in H. destruct H as (y & Hy & H).
    exists (fst y, (n, consumed x y) :: snd y). split; [exact Hy|exact H].
  - destruct (capture n (snd x)).
    + destruct (strip_prefix l (fst x)) as [t|] eqn:Ht; [|discriminate].
      exists (t, snd x). split; [exact (strip_prefix_suffix _ _ Ht)|exact H].
    + exists x. split; [exists []; reflexivity|exact H].
  - destruct (matcher r1 x Some); [discriminate|].
    exists x. split; [exists []; reflexivity|exact H].
  - exists x. split; [exists []; reflexivity|].
    destruct (fst x) as [|a t]; [exact H|].
    destruct (is_line_terminator a); [exact H|discriminate].
Qed.

(** What the first parenthesis matches is kept as it is; what is matched
    outside it starts at a hash and runs to the end of the line. *)
Lemma exec_general (l rest : list ascii) (caps : captures) :
  exec COMMENT_STRIPPING_REGEX l = Some (rest, caps) ->
  (exists c, l = c ++ rest /\ dollar1 caps = c)
  \/ (exists t, l = hash :: t /\ rest = skip_line t /\ dollar1 caps = []).
Proof.
  unfold exec, COMMENT_STRIPPING_REGEX.
  remember (Alt quoted_literal hash_span) as kept eqn:Hkept.
  remember (Alt line_comment block_comment) as dropped eqn:Hdropped.
  cbn [matcher].
  match goal with
  | |- match ?m with Some _ => _ | None => _ end = _ -> _ =>
      destruct m as [z|] eqn:Hk
  end.
  - intros H. injection H as ->. apply matcher_reaches in Hk.
    destruct Hk as (y & [c Hc] & Hy). injection Hy as <- <-.
    cbn [fst] in Hc. left. exists c. split; [exact Hc|].
    unfold dollar1. cbn [capture Nat.eqb]. unfold consumed. cbn [fst].
    rewrite Hc. apply keptOf_app.
  - subst dropped. cbn [matcher]. destruct l as [|a t].
    + unfold line_comment, block_comment. cbn [matcher]. unfold char_matcher.
      cbn [fst]. discriminate.
    + rewrite line_comment_spec. destruct (Ascii.eqb hash a) eqn:Ha.
      * intros H. injection H as <- <-. apply Ascii.eqb_eq in Ha. subst a.
        right. exists t. repeat split.
      * rewrite (@block_comment_needs_hash a t Some Ha). discriminate.
Qed.

Lemma skip_line_split (t : list ascii) :
  exists c, t = c ++ skip_line t /\ oneLine c.
Proof.
  induction t as [|a t (c & IH & Hc)]; simpl.
  - exists []. split; [reflexivity|constructor].
  - destruct (is_line_terminator a) eqn:Ha.
    + exists []. split; [reflexivity|constructor].
    + exists (a :: c). split; [simpl; rewrite <- IH; reflexivity|].
      constructor; assumption.
Qed.

Lemma stripped_app (c out text : list ascii) :
  stripped out text -> stripped (c ++ out) (c ++ text).
Proof. intros H. induction c as [|a c IH]; [exact H|]. simpl. constructor. exact IH. Qed.

(** What the replacement returns is the text without some comments, each
    running from a hash to the end of its line. *)
Lemma stripList_stripped (l : list ascii) : stripped (stripList l) l.
Proof.
  remember (List.length l) as n eqn:Hn. revert l Hn.
  induction n as [n IH] using lt_wf_ind. intros l Hn.
  unfold stripList. cbn [replace_loop].
  assert (Hstep : stripped (match l with
                            | [] => []
                            | c :: t => c :: replace_loop COMMENT_STRIPPING_REGEX
                                                          (List.length l) t
                            end) l).
  { destruct l as [|a t]; [constructor|]. constructor.
    apply (IH (List.length t)); [simpl in Hn; lia|reflexivity]. }
  destruct (exec COMMENT_STRIPPING_REGEX l) as [[rest caps]|] eqn:Hexec;
    [|exact Hstep].
  apply exec_general in Hexec.
  destruct Hexec as [(c & Hl & Hc)|(t & Hl & Hrest & Hc)]; rewrite Hc.
  - destruct (List.length rest <? List.length l)%nat eqn:Hlt.
    + apply Nat.ltb_lt in Hlt.
      rewrite (@replace_loop_fuel _ (List.length l) (S (List.length rest)) rest)
        by lia.
      subst l. apply stripped_app.
      apply (IH (List.length rest)); [lia|reflexivity].
    + apply Nat.ltb_ge in Hlt. rewrite Hl, length_app in Hlt.
      destruct c; [exact Hstep|simpl in Hlt; lia].
  - destruct (skip_line_split t) as (c' & Ht & Hone).
    assert (Hlen : (List.length rest < List.length l)%nat).
    { rewrite Hl, Hrest. simpl. rewrite Ht at 2. rewrite length_app. lia. }
    pose proof Hlen as Hlt. apply Nat.ltb_lt in Hlt. rewrite Hlt.
    rewrite (@replace_loop_fuel _ (List.length l) (S (List.length rest)) rest)
      by lia.
    cbn [app]. subst l rest.
    replace (hash :: t) with (hash :: c' ++ skip_line t)
      by (rewrite <- Ht; reflexivity).
    apply stripped_drop; [exact Hone|apply skip_line_head|].
    apply (IH (List.length (skip_line t))); [lia|reflexivity].
Qed.

Lemma stripped_hashless (out text : list ascii) :
  stripped out text ->
  Forall (fun x => Ascii.eqb hash x = false) text -> out = text.
Proof.
  induction 1 as [|a out text _ IH|c out rest _ _ _ _]; intros Hh.
  - reflexivity.
  - inversion Hh; subst. f_equal. apply IH. assumption.
  - inversion Hh as [|? ? Hbad _]; subst. discriminate Hbad.
Qed.

Lemma stripped_length (out text : list ascii) :
  stripped out text -> (List.length out <= List.length text)%nat.
Proof.
  induction 1 as [|a out text _ IH|c out rest _ _ _ IH]; simpl.
  - lia.
  - lia.
  - rewrite length_app. lia.
Qed.

Lemma filter_oneLine (c : list ascii) :
  oneLine c -> List.filter is_line_terminator c = [].
Proof.
  induction 1 as [|x c Hx _ IH]; simpl; [reflexivity|]. rewrite Hx. exact IH.
Qed.

Lemma stripped_terminators (out text : list ascii) :
  stripped out text ->
  List.filter is_line_terminator out = List.filter is_line_terminator text.
Proof.
  induction 1 as [|a out text _ IH|c out rest Hc _ _ IH].
  - reflexivity.
  - simpl. rewrite IH. reflexivity.
  - cbn [List.filter]. replace (is_line_terminator hash) with false by reflexivity.
    rewrite filter_app, (filter_oneLine Hc). exact IH.
Qed.

(** The search goes the same way for two expressions that match alike. *)
Lemma replace_loop_ext (r r' : regex) :
  (forall l, exec r l = exec r' l) ->
  forall n l, replace_loop r n l = replace_loop r' n l.
Proof.
  intros H. induction n as [|n IH]; intros l; [reflexivity|].
  cbn [replace_loop]. rewrite H.
  destruct l as [|c t]; destruct (exec r' _) as [[rest caps]|];
    rewrite ?IH; reflexivity.
Qed.

(** At a hash the line comment always matches, so that the block comment,
    which comes after it, is never tried with success. *)
Lemma exec_withoutBlockComment (l : list ascii) :
  exec withoutBlockComment l = exec COMMENT_STRIPPING_REGEX l.
Proof.
  unfold exec, withoutBlockComment, COMMENT_STRIPPING_REGEX.
  remember (Alt quoted_literal hash_span) as kept eqn:Hkept.
  cbn [matcher].
  match goal with
  | |- match ?m with Some _ => _ | None => _ end = _ => destruct m as [z|]
  end; [reflexivity|].
  destruct l as [|a t].
  - reflexivity.
  - rewrite line_comment_spec. destruct (Ascii.eqb hash a) eqn:Ha; [reflexivity|].
    rewrite (@block_comment_needs_hash a t Some Ha). reflexivity.
Qed.

(** The star of a span reads plain characters up to the closing hash,
    whatever the text after it. *)
Lemma span_star_found (rest : list ascii) (caps : captures)
      (kh : state -> option state) (z : state) :
  (forall x l, Ascii.eqb hash x = false -> kh (x :: l, caps) = None) ->
  kh (hash :: rest, caps) = Some z ->
  forall (body : list ascii) (n : nat),
    Forall (fun x => Ascii.eqb hash x = false /\ is_line_terminator x = false
                     /\ Ascii.eqb backslash x = false
                     /\ Ascii.eqb "["%char x = false) body ->
    (List.length body < n)%nat ->
    repeat_lazy (matcher span_item) kh n (body ++ hash :: rest, caps) = Some z.
Proof.
  intros Hmiss Hhit. induction body as [|x body IH]; intros n Hbody Hn.
  - destruct n as [|n]; [simpl in Hn; lia|].
    cbn [app repeat_lazy]. rewrite Hhit. reflexivity.
  - destruct n as [|n]; [simpl in Hn; lia|].
    inversion Hbody as [|? ? (Hx1 & Hx2 & Hx3 & Hx4) Hbody']; subst.
    cbn [app repeat_lazy]. rewrite (Hmiss x _ Hx1).
    unfold span_item at 1. cbn [matcher]. unfold char_matcher. cbn [fst snd].
    rewrite Hx3, Hx4, Hx2. cbn [negb].
    replace (List.length (body ++ hash :: rest) =? List.length (x :: body ++ hash :: rest))%nat
      with false by (symmetry; apply Nat.eqb_neq; simpl; lia).
    apply IH; [exact Hbody'|simpl in Hn; lia].
Qed.

(** A hash followed on its line by plain characters, the first of them not
    a star, and a second hash starts a match that keeps the span. *)
Lemma exec_span (b : ascii) (body rest : list ascii) :
  Ascii.eqb star b = false ->
  Forall (fun x => Ascii.eqb hash x = false /\ is_line_terminator x = false
                   /\ Ascii.eqb backslash x = false
                   /\ Ascii.eqb "["%char x = false) (b :: body) ->
  exec COMMENT_STRIPPING_REGEX (hash :: (b :: body) ++ hash :: rest)
  = Some (rest, [(1%nat, hash :: (b :: body) ++ [hash])]).
Proof.
  intros Hstar Hbody.
  assert (Hb : Ascii.eqb hash b = false) by (inversion Hbody; tauto).
  unfold exec, COMMENT_STRIPPING_REGEX.
  remember (Alt line_comment block_comment) as dropped eqn:Hdropped.
  cbn [matcher].
  rewrite (@quoted_literal_needs_quote hash ((b :: body) ++ hash :: rest) [] _ eq_refl).
  unfold hash_span.
  remember (Cat (LazyStar span_item) (Chr hash)) as inner eqn:Hinner.
  cbn [matcher]. unfold char_matcher at 1. cbn [fst snd]. rewrite Ascii.eqb_refl.
  unfold char_matcher at 1. cbn [fst snd app mem]. rewrite Hstar, Hb. cbn [orb].
  subst inner. cbn [matcher fst].
  change (b :: body ++ hash :: rest) with ((b :: body) ++ hash :: rest).
  rewrite (@span_star_found rest [] _
             (rest, [(1%nat, hash :: (b :: body) ++ [hash])])).
  - reflexivity.
  - intros x l Hx. unfold char_matcher. cbn [fst snd]. rewrite Hx. reflexivity.
  - unfold char_matcher. cbn [fst snd]. rewrite Ascii.eqb_refl.
    unfold consumed. cbn [fst].
    match goal with
    | |- context [firstn (List.length ?L - List.length rest) ?L] =>
        change (firstn (List.length L - List.length rest) L) with (keptOf L rest);
        replace L with ((hash :: (b :: body) ++ [hash]) ++ rest)
          by (simpl; rewrite <- app_assoc; reflexivity)
    end.
    rewrite keptOf_app. reflexivity.
  - exact Hbody.
  - simpl. rewrite length_app. simpl. lia.
Qed.

Lemma stripList_span (b : ascii) (body rest : list ascii) :
  Ascii.eqb star b = false ->
  Forall (fun x => Ascii.eqb hash x = false /\ is_line_terminator x = false
                   /\ Ascii.eqb backslash x = false
                   /\ Ascii.eqb "["%char x = false) (b :: body) ->
  stripList (hash :: (b :: body) ++ hash :: rest)
  = hash :: (b :: body) ++ hash :: stripList rest.
Proof.
  intros Hstar Hbody.
  rewrite (@stripList_step _ _ _ (@exec_span b body rest Hstar Hbody))
    by (simpl; rewrite length_app; simpl; lia).
  unfold dollar1. cbn [capture Nat.eqb app]. rewrite <- app_assoc. reflexivity.
Qed.

(** No match starts at a character that is neither a quote nor a hash. *)
Lemma exec_plain (a : ascii) (t : list ascii) :
  mem a [quote; apostrophe] = false -> Ascii.eqb hash a = false ->
  exec COMMENT_STRIPPING_REGEX (a :: t) = None.
Proof.
  intros Hq Hh. unfold exec, COMMENT_STRIPPING_REGEX. cbn [matcher].
  rewrite (@quoted_literal_needs_quote a t [] _ Hq).
  rewrite line_comment_spec, Hh, (@block_comment_needs_hash a t Some Hh).
  unfold hash_span.
  remember (Cat (NotAhead (OneOf [star; hash])) (Cat (LazyStar span_item) (Chr hash)))
    as inner.
  cbn [matcher]. unfold char_matcher. cbn [fst snd]. rewrite Hh. reflexivity.
Qed.

Lemma stripList_plain (a : ascii) (t : list ascii) :
  mem a [quote; apostrophe] = false -> Ascii.eqb hash a = false ->
  stripList (a :: t) = a :: stripList t.
Proof.
  intros Hq Hh. unfold stripList at 1. cbn [replace_loop].
  rewrite (@exec_plain a t Hq Hh). reflexivity.
Qed.

(** The closing quote of a literal is not found on a line without the
    quote and without a backslash. *)
Lemma literal_star_unclosed (q : ascii) (rest : list ascii)
      (kq : state -> option state) (caps : captures) :
  atLineEndL rest ->
  (forall l,
      lineOf (fun x => negb (Ascii.eqb q x) && negb (Ascii.eqb backslash x)) rest l ->
      kq (l, caps) = None) ->
  forall (n : nat) (l : list ascii),
    lineOf (fun x => negb (Ascii.eqb q x) && negb (Ascii.eqb backslash x)) rest l ->
    repeat_lazy (matcher literal_item) kq n (l, caps) = None.
Proof.
  intros Hend Hk. induction n as [|n IH]; intros l Hl; [reflexivity|].
  cbn [repeat_lazy]. rewrite (Hk l Hl).
  unfold literal_item. cbn [matcher]. unfold char_matcher. cbn [fst snd].
  destruct Hl as [c [-> Hc]]. destruct c as [|a c]; cbn [app].
  - destruct rest as [|b u]; [reflexivity|]. cbn in Hend.
    destruct (Ascii.eqb backslash b) eqn:Hb.
    + apply Ascii.eqb_eq in Hb. subst b. discriminate.
    + rewrite Hend. reflexivity.
  - inversion Hc as [|? ? [Ha Ha'] Hc']; subst.
    apply andb_true_iff in Ha. destruct Ha as [_ Ha]. apply negb_true_iff in Ha.
    rewrite Ha, Ha'. cbn [negb].
    destruct (List.length (c ++ rest) =? List.length (a :: c ++ rest))%nat;
      [reflexivity|].
    apply IH. exists c. split; [reflexivity|exact Hc'].
Qed.

(** A quote with no second quote and no backslash on its line starts no
    match. *)
Lemma exec_unclosed (q : ascii) (c rest : list ascii) :
  mem q [quote; apostrophe] = true ->
  Forall (fun x => Ascii.eqb q x = false /\ is_line_terminator x = false
                   /\ Ascii.eqb backslash x = false) c ->
  atLineEndL rest ->
  exec COMMENT_STRIPPING_REGEX (q :: c ++ rest) = None.
Proof.
  intros Hq Hc Hend.
  pose proof (quote_is_not_hash q Hq) as Hh.
  unfold exec, COMMENT_STRIPPING_REGEX.
  remember (Alt quoted_literal hash_span) as kept eqn:Hkept.
  remember (Alt line_comment block_comment) as dropped eqn:Hdropped.
  cbn [matcher]. subst kept dropped. cbn [matcher].
  rewrite line_comment_spec, Hh, (@block_comment_needs_hash q (c ++ rest) Some Hh).
  assert (Hspan : forall k, matcher hash_span (q :: c ++ rest, []) k = None).
  { intros k. unfold hash_span.
    remember (Cat (NotAhead (OneOf [star; hash])) (Cat (LazyStar span_item) (Chr hash)))
      as inner.
    cbn [matcher]. unfold char_matcher. cbn [fst snd]. rewrite Hh. reflexivity. }
  rewrite Hspan.
  assert (Hlit : forall k, matcher quoted_literal (q :: c ++ rest, []) k = None).
  { intros k. unfold quoted_literal.
    remember (Cat (LazyStar literal_item) (BackRef 2)) as inner eqn:Hinner.
    cbn [matcher]. unfold char_matcher at 1. cbn [fst snd]. rewrite Hq.
    rewrite consumed_cons. subst inner. cbn [matcher fst].
    apply (@literal_star_unclosed q rest _ _ Hend).
    - intros l [c' [-> Hc']]. cbn [snd capture Nat.eqb fst strip_prefix].
      destruct c' as [|a c']; cbn [app].
      + destruct rest as [|b u]; [reflexivity|]. cbn in Hend.
        destruct (Ascii.eqb q b) eqn:Hb; [|reflexivity].
        apply Ascii.eqb_eq in Hb. subst b.
        rewrite (quote_is_not_terminator q Hq) in Hend. discriminate.
      + inversion Hc' as [|? ? [Ha _] _]; subst.
        apply andb_true_iff in Ha. destruct Ha as [Ha _]. apply negb_true_iff in Ha.
        rewrite Ha. reflexivity.
    - exists c. split; [reflexivity|]. eapply Forall_impl; [|exact Hc].
      intros x (H1 & H2 & H3). rewrite H1, H3. split; [reflexivity|exact H2]. }
  rewrite Hlit. reflexivity.
Qed.

Lemma stripList_unclosed (q : ascii) (c rest : list ascii) :
  mem q [quote; apostrophe] = true ->
  Forall (fun x => Ascii.eqb q x = false /\ is_line_terminator x = false
                   /\ Ascii.eqb backslash x = false) c ->
  atLineEndL rest ->
  stripList (q :: c ++ rest) = q :: stripList (c ++ rest).
Proof.
  intros Hq Hc Hend. unfold stripList at 1. cbn [replace_loop].
  rewrite (@exec_unclosed q c rest Hq Hc Hend). reflexivity.
Qed.

Lemma literal_star_escaped_fuel (q : ascii) (rest : list ascii) (caps : captures)
      (kq : state -> option state) (z : state) :
  Ascii.eqb q backslash = false ->
  (forall x l, Ascii.eqb q x = false -> kq (x :: l, caps) = None) ->
  kq (q :: rest, caps) = Some z ->
  forall (m : nat) (body : list ascii) (n : nat),
    (List.length body < m)%nat ->
    escapedItems q body = true ->
    (List.length body < n)%nat ->
    repeat_lazy (matcher literal_item) kq n (body ++ q :: rest, caps) = Some z.
Proof.
  intros Hqb Hmiss Hhit. induction m as [|m IH]; intros body n Hm Hbody Hn; [lia|].
  destruct n as [|n]; [lia|].
  destruct body as [|a body].
  - cbn [app repeat_lazy]. rewrite Hhit. reflexivity.
  - cbn [escapedItems] in Hbody. cbn [app repeat_lazy].
    destruct (Ascii.eqb backslash a) eqn:Ha.
    + apply Ascii.eqb_eq in Ha. subst a.
      destruct body as [|x body]; [discriminate|].
      rewrite (Hmiss backslash _ Hqb).
      unfold literal_item at 1. cbn [matcher]. unfold char_matcher. cbn [fst snd app].
      rewrite Ascii.eqb_refl.
      replace (List.length (body ++ q :: rest)
               =? List.length (backslash :: x :: body ++ q :: rest))%nat
        with false by (symmetry; apply Nat.eqb_neq; simpl; lia).
      rewrite (IH body n); [reflexivity| |exact Hbody|]; simpl in *; lia.
    + apply andb_true_iff in Hbody. destruct Hbody as [Hbody Hrest].
      apply andb_true_iff in Hbody. destruct Hbody as [Hq Ht].
      apply negb_true_iff in Hq. apply negb_true_iff in Ht.
      rewrite (Hmiss a _ Hq).
      unfold literal_item at 1. cbn [matcher]. unfold char_matcher. cbn [fst snd].
      rewrite Ha, Ht. cbn [negb].
      replace (List.length (body ++ q :: rest) =? List.length (a :: body ++ q :: rest))%nat
        with false by (symmetry; apply Nat.eqb_neq; simpl; lia).
      apply IH; [simpl in Hm; lia|exact Hrest|simpl in Hn; lia].
Qed.

(** The star of a literal reads a body with escapes up to the closing
    quote, whatever the text after it. *)
Lemma literal_star_escaped (q : ascii) (rest : list ascii) (caps : captures)
      (kq : state -> option state) (z : state) :
  Ascii.eqb q backslash = false ->
  (forall x l, Ascii.eqb q x = false -> kq (x :: l, caps) = None) ->
  kq (q :: rest, caps) = Some z ->
  forall (body : list ascii) (n : nat),
    escapedItems q body = true ->
    (List.length body < n)%nat ->
    repeat_lazy (matcher literal_item) kq n (body ++ q :: rest, caps) = Some z.
Proof.
  intros Hqb Hmiss Hhit body n Hbody Hn.
  apply (@literal_star_escaped_fuel q rest caps kq z Hqb Hmiss Hhit
           (S (List.length body)) body n); [lia|exact Hbody|exact Hn].
Qed.

Lemma exec_escaped_literal (q : ascii) (body rest : list ascii) :
  mem q [quote; apostrophe] = true ->
  escapedItems q body = true ->
  exec COMMENT_STRIPPING_REGEX (q :: body ++ q :: rest)
  = Some (rest, [(1%nat, q :: body ++ [q]); (2%nat, [q])]).
Proof.
  intros Hq Hbody.
  unfold exec, COMMENT_STRIPPING_REGEX.
  remember (Alt quoted_literal hash_span) as kept eqn:Hkept.
  remember (Alt line_comment block_comment) as dropped eqn:Hdropped.
  cbn [matcher]. subst kept. cbn [matcher].
  unfold quoted_literal.
  remember (Cat (LazyStar literal_item) (BackRef 2)) as inner eqn:Hinner.
  cbn [matcher]. unfold char_matcher at 1. cbn [fst snd]. rewrite Hq.
  rewrite consumed_cons. subst inner. cbn [matcher fst].
  rewrite (@literal_star_escaped q rest [(2%nat, [q])] _
             (rest, [(1%nat, q :: body ++ [q]); (2%nat, [q])])).
  - reflexivity.
  - cbn [mem] in Hq. destruct (Ascii.eqb q backslash) eqn:Hb; [|reflexivity].
    apply Ascii.eqb_eq in Hb. subst q. discriminate.
  - intros x l Hx. cbn [snd capture Nat.eqb fst strip_prefix]. rewrite Hx. reflexivity.
  - cbn [snd capture Nat.eqb fst strip_prefix]. rewrite Ascii.eqb_refl.
    unfold consumed. cbn [fst].
    change (q :: body ++ q :: rest) with ((q :: body) ++ q :: rest).
    replace ((q :: body) ++ q :: rest) with (((q :: body) ++ [q]) ++ rest)
      by (rewrite <- app_assoc; reflexivity).
    fold (keptOf (((q :: body) ++ [q]) ++ rest) rest). rewrite keptOf_app.
    reflexivity.
  - exact Hbody.
  - rewrite length_app. simpl. lia.
Qed.

Lemma stripList_escaped_literal (q : ascii) (body rest : list ascii) :
  mem q [quote; apostrophe] = true ->
  escapedItems q body = true ->
  stripList (q :: body ++ q :: rest) = q :: body ++ q :: stripList rest.
Proof.
  intros Hq Hbody.
  rewrite (@stripList_step _ _ _ (@exec_escaped_literal q body rest Hq Hbody))
    by (simpl; rewrite length_app; simpl; lia).
  unfold dollar1. cbn [capture Nat.eqb app]. rewrite <- app_assoc. reflexivity.
Qed.

(** *** The expression on any text *)

(** The star of a quoted literal followed by the closing quote, on any
    text. *)
Lemma literal_star_search (q : ascii) (g : state -> state) (caps : captures) :
  capture 2 caps = Some [q] ->
  forall n l,
    repeat_lazy (matcher literal_item)
                (fun y => matcher (BackRef 2) y (fun z => Some (g z))) n (l, caps)
    = option_map (fun r => g (r, caps)) (search q literal_jumps n l).
Proof.
  intros Hq. unfold literal_jumps, escape_any, plain_char.
  induction n as [|n IH]; intros l; [reflexivity|].
  cbn [repeat_lazy search matcher fst snd]. rewrite Hq.
  destruct l as [|a t].
  - cbn [strip_prefix]. unfold literal_item. cbn [matcher]. unfold char_matcher.
    cbn [fst]. reflexivity.
  - cbn [strip_prefix]. destruct (Ascii.eqb q a); [reflexivity|].
    unfold literal_item at 1. cbn [matcher]. unfold char_matcher. cbn [fst snd].
    cbn [try_jumps].
    assert (Hlen1 : (List.length t =? List.length (a :: t))%nat = false)
      by (apply Nat.eqb_neq; simpl; lia).
    rewrite Hlen1.
    destruct (Ascii.eqb backslash a); destruct (is_line_terminator a); cbn [negb];
      destruct t as [|x u]; rewrite ?IH;
      try replace (List.length u =? List.length (a :: x :: u))%nat with false
        by (symmetry; apply Nat.eqb_neq; simpl; lia);
      rewrite ?IH;
      repeat match goal with
             | |- context [search ?e ?js ?m ?l] => destruct (search e js m l)
             end; reflexivity.
Qed.

Ltac length_checks :=
  repeat match goal with
         | |- context [(List.length ?u =? List.length ?l)%nat] =>
             replace (List.length u =? List.length l)%nat with false
               by (symmetry; apply Nat.eqb_neq; simpl; lia)
         end.

Ltac search_cases :=
  repeat match goal with
         | |- context [search ?e ?js ?m ?l] => destruct (search e js m l)
         end.

(** The star of a span followed by the closing hash, on any text. *)
Lemma span_star_search (g : state -> state) (caps : captures) :
  forall n l,
    repeat_lazy (matcher span_item)
                (fun y => matcher (Chr hash) y (fun z => Some (g z))) n (l, caps)
    = option_map (fun r => g (r, caps)) (search hash span_jumps n l).
Proof.
  unfold span_jumps, escape_char, bracket_escaped, bracket_char, plain_char.
  induction n as [|n IH]; intros l; [reflexivity|].
  cbn [repeat_lazy search matcher]. unfold char_matcher at 1. cbn [fst snd].
  destruct l as [|a t]; [reflexivity|].
  destruct (Ascii.eqb hash a); [reflexivity|].
  unfold span_item at 1. cbn [matcher]. unfold char_matcher. cbn [fst snd].
  cbn [try_jumps].
  destruct (Ascii.eqb backslash a); destruct (Ascii.eqb "[" a);
    destruct (is_line_terminator a); cbn [negb andb];
    destruct t as [|x [|y [|c u]]]; cbn [negb andb];
    length_checks; rewrite ?IH;
    repeat match goal with
           | |- context [is_line_terminator ?b] => destruct (is_line_terminator b)
           | |- context [Ascii.eqb ?b ?c] => destruct (Ascii.eqb b c)
           end; cbn [negb andb]; length_checks; rewrite ?IH;
    search_cases; reflexivity.
Qed.

Lemma quoted_literal_search (a : ascii) (t : list ascii) (g : state -> state) :
  matcher quoted_literal (a :: t, []) (fun y => Some (g y))
  = if mem a [quote; apostrophe]
    then option_map (fun r => g (r, [(2%nat, [a])]))
                    (search a literal_jumps (S (List.length t)) t)
    else None.
Proof.
  unfold quoted_literal.
  remember (Cat (LazyStar literal_item) (BackRef 2)) as rest eqn:Hrest.
  cbn [matcher]. unfold char_matcher. cbn [fst snd].
  destruct (mem a [quote; apostrophe]); [|reflexivity].
  rewrite consumed_cons. subst rest. cbn [matcher fst].
  apply literal_star_search. reflexivity.
Qed.

Lemma hash_span_search (a : ascii) (t : list ascii) (g : state -> state) :
  matcher hash_span (a :: t, []) (fun y => Some (g y))
  = if Ascii.eqb hash a
    then if match t with
            | b :: _ => mem b [star; hash]
            | [] => false
            end
         then None
         else option_map (fun r => g (r, []))
                         (search hash span_jumps (S (List.length t)) t)
    else None.
Proof.
  unfold hash_span.
  remember (Cat (LazyStar span_item) (Chr hash)) as rest eqn:Hrest.
  cbn [matcher]. unfold char_matcher. cbn [fst snd].
  destruct (Ascii.eqb hash a); [|reflexivity].
  assert (Hrest' : matcher rest (t, []) (fun y => Some (g y))
                   = option_map (fun r => g (r, []))
                                (search hash span_jumps (S (List.length t)) t)).
  { subst rest. cbn [matcher fst]. apply span_star_search. }
  destruct t as [|b t']; [exact Hrest'|].
  destruct (mem b [star; hash]); [reflexivity|exact Hrest'].
Qed.

(** One attempt of the expression, on any text. *)
Lemma exec_scanStep (l : list ascii) :
  option_map (fun y => (dollar1 (snd y), fst y)) (exec COMMENT_STRIPPING_REGEX l)
  = scanStep l.
Proof.
  destruct l as [|a t]; [reflexivity|].
  unfold exec, COMMENT_STRIPPING_REGEX.
  remember (Alt quoted_literal hash_span) as kept eqn:Hkept.
  remember (Alt line_comment block_comment) as dropped eqn:Hdropped.
  cbn [matcher]. subst kept dropped. cbn [matcher].
  rewrite (@quoted_literal_search a t
             (fun y => (fst y, (1%nat, consumed (a :: t, []) y) :: snd y))).
  rewrite (@hash_span_search a t
             (fun y => (fst y, (1%nat, consumed (a :: t, []) y) :: snd y))).
  rewrite line_comment_spec.
  unfold scanStep.
  destruct (mem a [quote; apostrophe]) eqn:Hq.
  - rewrite (quote_is_not_hash a Hq).
    rewrite (@block_comment_needs_hash a t Some (quote_is_not_hash a Hq)).
    destruct (search a literal_jumps (S (List.length t)) t) as [r|]; reflexivity.
  - destruct (Ascii.eqb hash a) eqn:Hh.
    + destruct (match t with
                | b :: _ => mem b [star; hash]
                | [] => false
                end); [reflexivity|].
      destruct (search hash span_jumps (S (List.length t)) t) as [r|]; reflexivity.
    + rewrite (@block_comment_needs_hash a t Some Hh). reflexivity.
Qed.

Lemma cut_nil_inv (b : bool) (out : list ascii) : cut b out [] -> out = [].
Proof. intros H. inversion H. reflexivity. Qed.

Lemma cut_end (b : bool) (out rest : list ascii) :
  atLineEndL rest -> cut b out rest -> atLineEndL out.
Proof.
  intros Hend H. destruct rest as [|x rest].
  - apply cut_nil_inv in H. subst out. exact I.
  - cbn in Hend. inversion H; subst.
    + exact Hend.
    + discriminate.
Qed.

(** The start of a text with comments cut out: the same character, or the
    end of a line where a comment was. *)
Lemma cut_cons_inv (b : bool) (out : list ascii) (x : ascii) (t : list ascii) :
  cut b out (x :: t) ->
  (exists out', out = x :: out' /\ cut (negb (Ascii.eqb backslash x)) out' t)
  \/ (b = true /\ x = hash /\ atLineEndL out).
Proof.
  intros H. inversion H; subst.
  - left. eexists. split; [reflexivity|assumption].
  - right. split; [reflexivity|]. split; [reflexivity|].
    eapply cut_end; eassumption.
Qed.

Lemma cut_length (b : bool) (out text : list ascii) :
  cut b out text -> (List.length out <= List.length text)%nat.
Proof.
  induction 1; simpl; try lia. rewrite length_app. lia.
Qed.

Lemma cut_same_prefix (e : ascii) (r' r : list ascii) :
  Ascii.eqb backslash e = false -> cut true r' r ->
  forall (c : list ascii) (b : bool), cut b (c ++ e :: r') (c ++ e :: r).
Proof.
  intros He Hr. induction c as [|a c IH]; intros b; cbn [app].
  - apply cut_keep. rewrite He. exact Hr.
  - apply cut_keep. apply IH.
Qed.

Ltac cut_inv H :=
  let out' := fresh "out" in
  let Hout := fresh "Hout" in
  let Hcut := fresh "Hcut" in
  let Hb := fresh "Hb" in
  let Hx := fresh "Hx" in
  let Hend := fresh "Hend" in
  apply cut_cons_inv in H;
  destruct H as [(out' & Hout & Hcut)|(Hb & Hx & Hend)].

Lemma atLineEndL_cases (l : list ascii) :
  atLineEndL l -> l = [] \/ exists b u, l = b :: u /\ is_line_terminator b = true.
Proof.
  destruct l as [|b u]; [left; reflexivity|].
  intros H. right. exists b, u. split; [reflexivity|exact H].
Qed.

Lemma escape_any_ok : jump_ok escape_any.
Proof.
  constructor; unfold escape_any.
  - intros a t Ha. destruct (Ascii.eqb backslash a) eqn:E; [|reflexivity].
    apply Ascii.eqb_eq in E. subst a. discriminate.
  - intros a t u H. destruct (Ascii.eqb backslash a); [|discriminate].
    destruct t as [|x t]; [discriminate|]. injection H as <-.
    exists [x]. split; [reflexivity|]. intros u2. reflexivity.
  - intros a t t' u' Hcut H. destruct (Ascii.eqb backslash a); [|discriminate].
    cbn [negb] in Hcut. destruct t' as [|x t'']; [discriminate|]. injection H as <-.
    inversion Hcut; subst. eexists. eexists. split; [reflexivity|eassumption].
Qed.

Lemma plain_char_ok : jump_ok plain_char.
Proof.
  constructor; unfold plain_char.
  - intros a t Ha. rewrite Ha. reflexivity.
  - intros a t u H. destruct (is_line_terminator a); [discriminate|].
    injection H as <-. exists []. split; [reflexivity|]. intros u2. reflexivity.
  - intros a t t' u' Hcut H. destruct (is_line_terminator a); [discriminate|].
    injection H as <-. eexists. eexists. split; [reflexivity|exact Hcut].
Qed.

Lemma escape_char_ok : jump_ok escape_char.
Proof.
  constructor; unfold escape_char.
  - intros a t Ha. destruct (Ascii.eqb backslash a) eqn:E; [|reflexivity].
    apply Ascii.eqb_eq in E. subst a. discriminate.
  - intros a t u H. destruct (Ascii.eqb backslash a); [|discriminate].
    destruct t as [|x t]; [discriminate|].
    destruct (is_line_terminator x) eqn:Hx; [discriminate|]. injection H as <-.
    exists [x]. split; [reflexivity|]. intros u2. cbn [app]. rewrite Hx. reflexivity.
  - intros a t t' u' Hcut H. destruct (Ascii.eqb backslash a); [|discriminate].
    cbn [negb] in Hcut. destruct t' as [|x t'']; [discriminate|].
    destruct (is_line_terminator x) eqn:Hx; [discriminate|]. injection H as <-.
    inversion Hcut; subst. rewrite Hx. eexists. eexists.
    split; [reflexivity|eassumption].
Qed.

Lemma bracket_is_not_backslash (a : ascii) :
  Ascii.eqb "["%char a = true -> Ascii.eqb backslash a = false.
Proof. intros H. apply Ascii.eqb_eq in H. subst a. reflexivity. Qed.

Lemma bracket_char_ok : jump_ok bracket_char.
Proof.
  constructor; unfold bracket_char.
  - intros a t Ha. destruct (Ascii.eqb "[" a) eqn:E; [|reflexivity].
    apply Ascii.eqb_eq in E. subst a. discriminate.
  - intros a t u H. destruct (Ascii.eqb "[" a); [|discriminate].
    destruct t as [|x [|c t]]; try discriminate.
    destruct (negb (is_line_terminator x) && Ascii.eqb "]" c) eqn:E; [|discriminate].
    injection H as <-. exists [x; c]. split; [reflexivity|].
    intros u2. cbn [app]. rewrite E. reflexivity.
  - intros a t t' u' Hcut H. destruct (Ascii.eqb "[" a) eqn:Ea; [|discriminate].
    rewrite (bracket_is_not_backslash _ Ea) in Hcut. cbn [negb] in Hcut.
    destruct t' as [|x [|c t'']]; try discriminate.
    destruct (negb (is_line_terminator x) && Ascii.eqb "]" c) eqn:E; [|discriminate].
    injection H as <-. apply andb_true_iff in E. destruct E as [Ex Ec].
    apply negb_true_iff in Ex. apply Ascii.eqb_eq in Ec. subst c.
    inversion Hcut as [|b0 a0 o0 tx0 Hc1|c0 o0 r0 Hone Hend0 Hc0]; subst.
    + inversion Hc1 as [|b1 a1 o1 tx1 Hc2|c1 o1 r1 Hone1 Hend1 Hc1']; subst.
      * rewrite Ex. cbn [negb andb Ascii.eqb]. 
        eexists. eexists. split; [reflexivity|eassumption].
      * exfalso. apply (cut_end Hend1) in Hc1'. cbn in Hc1'. discriminate.
    + exfalso. apply (cut_end Hend0) in Hc0. cbn in Hc0. rewrite Ex in Hc0.
      discriminate.
Qed.

Lemma bracket_escaped_ok : jump_ok bracket_escaped.
Proof.
  constructor; unfold bracket_escaped.
  - intros a t Ha. destruct (Ascii.eqb "[" a) eqn:E; [|reflexivity].
    apply Ascii.eqb_eq in E. subst a. discriminate.
  - intros a t u H. destruct (Ascii.eqb "[" a); [|discriminate].
    destruct t as [|x [|y [|c t]]]; try discriminate.
    destruct (Ascii.eqb backslash x && negb (is_line_terminator y) && Ascii.eqb "]" c)
      eqn:E; [|discriminate].
    injection H as <-. exists [x; y; c]. split; [reflexivity|].
    intros u2. cbn [app]. rewrite E. reflexivity.
  - intros a t t' u' Hcut H. destruct (Ascii.eqb "[" a) eqn:Ea; [|discriminate].
    rewrite (bracket_is_not_backslash _ Ea) in Hcut. cbn [negb] in Hcut.
    destruct t' as [|x [|y [|c t'']]]; try discriminate.
    destruct (Ascii.eqb backslash x && negb (is_line_terminator y) && Ascii.eqb "]" c)
      eqn:E; [|discriminate].
    injection H as <-. apply andb_true_iff in E. destruct E as [E Ec].
    apply andb_true_iff in E. destruct E as [Ex Ey].
    apply negb_true_iff in Ey. apply Ascii.eqb_eq in Ec. subst c.
    apply Ascii.eqb_eq in Ex. subst x.
    inversion Hcut as [|b0 a0 o0 tx0 Hc1|c0 o0 r0 Hone Hend0 Hc0]; subst.
    + cbn in Hc1.
      inversion Hc1 as [|b1 a1 o1 tx1 Hc2|]; subst.
      inversion Hc2 as [|b2 a2 o2 tx2 Hc3|c2 o2 r2 Hone2 Hend2 Hc2']; subst.
      * rewrite Ey. cbn [negb andb Ascii.eqb].
        eexists. eexists. split; [reflexivity|eassumption].
      * exfalso. apply (cut_end Hend2) in Hc2'. cbn in Hc2'. discriminate.
    + exfalso. apply (cut_end Hend0) in Hc0. cbn in Hc0. discriminate.
Qed.

Lemma literal_jumps_ok : Forall jump_ok literal_jumps.
Proof.
  unfold literal_jumps.
  repeat (constructor; [first [apply escape_any_ok|apply plain_char_ok]|]).
  constructor.
Qed.

Lemma span_jumps_ok : Forall jump_ok span_jumps.
Proof.
  unfold span_jumps.
  repeat (constructor;
          [first [apply escape_char_ok|apply bracket_escaped_ok
                 |apply bracket_char_ok|apply plain_char_ok]|]).
  constructor.
Qed.

Lemma try_jumps_none (rec : list ascii -> option (list ascii)) (a : ascii)
      (t : list ascii) (js : list jump) :
  try_jumps rec a t js = None
  <-> forall j u, In j js -> j a t = Some u -> rec u = None.
Proof.
  induction js as [|j js IH]; cbn [try_jumps].
  - split; [intros _ j u []|reflexivity].
  - split.
    + intros H j0 u [<-|Hin] Hj.
      * rewrite Hj in H. destruct (rec u); [discriminate|reflexivity].
      * destruct (match j a t with Some u0 => rec u0 | None => None end);
          [discriminate|].
        apply (proj1 IH H j0 u Hin Hj).
    + intros H. destruct (j a t) as [u|] eqn:Hj.
      * rewrite (H j u (or_introl eq_refl) Hj). apply IH.
        intros j0 u0 Hin. apply H. right. exact Hin.
      * apply IH. intros j0 u0 Hin. apply H. right. exact Hin.
Qed.

Lemma try_jumps_some (rec : list ascii -> option (list ascii)) (a : ascii)
      (t : list ascii) (js : list jump) (r : list ascii) :
  try_jumps rec a t js = Some r ->
  exists pre j post u,
    js = pre ++ j :: post
    /\ (forall j0 u0, In j0 pre -> j0 a t = Some u0 -> rec u0 = None)
    /\ j a t = Some u /\ rec u = Some r.
Proof.
  induction js as [|j js IH]; cbn [try_jumps]; [discriminate|].
  destruct (j a t) as [u|] eqn:Hj.
  - destruct (rec u) as [r0|] eqn:Hr.
    + intros H. injection H as <-. exists [], j, js, u.
      split; [reflexivity|]. split; [intros j0 u0 []|]. split; assumption.
    + intros H. destruct (IH H) as (pre & j1 & post & u1 & -> & Hpre & Hj1 & Hr1).
      exists (j :: pre), j1, post, u1. split; [reflexivity|]. split.
      * intros j0 u0 [<-|Hin] Hj0.
        -- rewrite Hj in Hj0. injection Hj0 as <-. exact Hr.
        -- apply (Hpre j0 u0 Hin Hj0).
      * split; assumption.
  - intros H. destruct (IH H) as (pre & j1 & post & u1 & -> & Hpre & Hj1 & Hr1).
    exists (j :: pre), j1, post, u1. split; [reflexivity|]. split.
    + intros j0 u0 [<-|Hin] Hj0.
      * rewrite Hj in Hj0. discriminate.
      * apply (Hpre j0 u0 Hin Hj0).
    + split; assumption.
Qed.

Lemma try_jumps_intro (rec : list ascii -> option (list ascii)) (a : ascii)
      (t : list ascii) (pre post : list jump) (j : jump) (u r : list ascii) :
  (forall j0 u0, In j0 pre -> j0 a t = Some u0 -> rec u0 = None) ->
  j a t = Some u -> rec u = Some r ->
  try_jumps rec a t (pre ++ j :: post) = Some r.
Proof.
  intros Hpre Hj Hr. induction pre as [|j0 pre IH]; cbn [app try_jumps].
  - rewrite Hj, Hr. reflexivity.
  - destruct (j0 a t) as [u0|] eqn:Hj0.
    + rewrite (Hpre j0 u0 (or_introl eq_refl) Hj0). apply IH.
      intros j1 u1 Hin. apply Hpre. right. exact Hin.
    + apply IH. intros j1 u1 Hin. apply Hpre. right. exact Hin.
Qed.

Lemma jumps_in (jumps : list jump) (j : jump) :
  Forall jump_ok jumps -> In j jumps -> jump_ok j.
Proof. intros Hok H. exact (proj1 (Forall_forall _ _) Hok j H). Qed.

(** A search that succeeds stops right after a closing character. *)
Lemma search_split (e : ascii) (jumps : list jump) (n : nat) :
  Forall jump_ok jumps ->
  forall l r, search e jumps n l = Some r -> exists body, l = body ++ e :: r.
Proof.
  intros Hjumps.
  induction n as [|n IH]; intros l r; cbn [search]; [discriminate|].
  destruct l as [|a t]; [discriminate|].
  destruct (Ascii.eqb e a) eqn:Ea.
  - intros H. injection H as <-. apply Ascii.eqb_eq in Ea. subst a.
    exists []. reflexivity.
  - intros H. apply try_jumps_some in H.
    destruct H as (pre & j & post & u & Hjs & _ & Hj & Hr).
    assert (Hok : jump_ok j)
      by (apply (@jumps_in jumps j Hjumps); rewrite Hjs; apply in_elt).
    destruct (@jump_local j Hok a t u Hj) as (p & -> & _).
    destruct (IH _ _ Hr) as [body ->].
    exists (a :: p ++ body). cbn [app]. rewrite <- app_assoc. reflexivity.
Qed.

Lemma search_shorter (e : ascii) (jumps : list jump) (n : nat) (l r : list ascii) :
  Forall jump_ok jumps ->
  search e jumps n l = Some r -> (List.length r < List.length l)%nat.
Proof.
  intros Hjumps H. apply (@search_split e jumps n Hjumps) in H.
  destruct H as [body ->]. rewrite length_app. simpl. lia.
Qed.

(** The counter does not matter once it exceeds the length of the text. *)
Lemma search_fuel (e : ascii) (jumps : list jump) (n : nat) :
  Forall jump_ok jumps ->
  forall m l, (List.length l < n)%nat -> (List.length l < m)%nat ->
              search e jumps n l = search e jumps m l.
Proof.
  intros Hjumps.
  induction n as [|n IH]; intros m l Hn Hm; [lia|].
  destruct m as [|m]; [lia|]. cbn [search].
  destruct l as [|a t]; [reflexivity|].
  destruct (Ascii.eqb e a); [reflexivity|].
  simpl in Hn, Hm.
  assert (H : forall js, (forall j, In j js -> jump_ok j) ->
                         try_jumps (search e jumps n) a t js
                         = try_jumps (search e jumps m) a t js).
  { induction js as [|j js IHjs]; intros Hjs; cbn [try_jumps]; [reflexivity|].
    rewrite IHjs by (intros j0 Hin; apply Hjs; right; exact Hin).
    destruct (j a t) as [u|] eqn:Hj; [|reflexivity].
    destruct (@jump_local j (Hjs j (or_introl eq_refl)) a t u Hj) as (p & -> & _).
    rewrite length_app in Hn, Hm.
    rewrite (IH m u) by lia. reflexivity. }
  apply H. intros j Hin. exact (@jumps_in jumps j Hjumps Hin).
Qed.

(** A search that fails in a text fails in the text with comments cut
    out. *)
Lemma search_none_cut (e : ascii) (jumps : list jump) (n : nat) :
  Forall jump_ok jumps -> is_line_terminator e = false ->
  forall (b : bool) (l' l : list ascii),
    cut b l' l -> search e jumps n l = None -> search e jumps n l' = None.
Proof.
  intros Hjumps e_in_line.
  induction n as [|n IH]; intros b l' l Hcut Hnone; [reflexivity|].
  destruct l as [|a t].
  - apply cut_nil_inv in Hcut. subst l'. reflexivity.
  - cut_inv Hcut.
    + subst l'. cbn [search] in Hnone |- *.
      destruct (Ascii.eqb e a); [discriminate|].
      apply try_jumps_none. intros j u' Hin Hj.
      destruct (@jump_cut j (@jumps_in jumps j Hjumps Hin) a t out u' Hcut0 Hj)
        as (u & b' & Hju & Hcu).
      apply (IH b' u' u Hcu).
      exact (proj1 (try_jumps_none _ _ _ _) Hnone j u Hin Hju).
    + destruct (atLineEndL_cases _ Hend) as [->|(b0 & u & -> & Hb0)]; [reflexivity|].
      cbn [search].
      destruct (Ascii.eqb e b0) eqn:Eb.
      * apply Ascii.eqb_eq in Eb. subst b0. rewrite e_in_line in Hb0. discriminate.
      * apply try_jumps_none. intros j u0 Hin Hj.
        rewrite (@jump_dead j (@jumps_in jumps j Hjumps Hin) b0 u Hb0) in Hj.
        discriminate.
Qed.

(** A search that succeeds in a text succeeds alike when comments are cut
    out of the text after the closing character. *)
Lemma search_some_cut (e : ascii) (jumps : list jump) (n : nat) :
  Forall jump_ok jumps -> is_line_terminator e = false ->
  Ascii.eqb backslash e = false ->
  forall (body r r' : list ascii),
    cut true r' r ->
    search e jumps n (body ++ e :: r) = Some r ->
    search e jumps n (body ++ e :: r') = Some r'.
Proof.
  intros Hjumps e_in_line e_plain.
  induction n as [|n IH]; intros body r r' Hcut Hsome; [discriminate|].
  destruct body as [|a body]; cbn [app search] in Hsome |- *.
  - rewrite Ascii.eqb_refl. reflexivity.
  - destruct (Ascii.eqb e a) eqn:Ea.
    + injection Hsome as Hsome. exfalso.
      apply (f_equal (@List.length ascii)) in Hsome.
      rewrite length_app in Hsome. simpl in Hsome. lia.
    + apply try_jumps_some in Hsome.
      destruct Hsome as (pre & j & post & u & Hjs & Hpre & Hj & Hr).
      assert (Hok : jump_ok j)
        by (apply (@jumps_in jumps j Hjumps); rewrite Hjs; apply in_elt).
      destruct (@jump_local j Hok a (body ++ e :: r) u Hj) as (p & Hp & Hloc).
      destruct (@search_split e jumps n Hjumps u r Hr) as [body' ->].
      assert (Hbody : body = p ++ body').
      { rewrite app_assoc in Hp. apply app_inv_tail in Hp. exact Hp. }
      subst body.
      match goal with
      | |- try_jumps ?rec ?x ?y jumps = _ =>
          replace (try_jumps rec x y jumps) with (try_jumps rec x y (pre ++ j :: post))
            by (rewrite <- Hjs; reflexivity)
      end.
      apply try_jumps_intro with (u := body' ++ e :: r').
      * intros j0 u0' Hin Hj0.
        assert (Hin' : In j0 jumps) by (rewrite Hjs; apply in_or_app; left; exact Hin).
        destruct (@jump_cut j0 (@jumps_in jumps j0 Hjumps Hin') a
                            ((p ++ body') ++ e :: r)
                            ((p ++ body') ++ e :: r') u0'
                            (@cut_same_prefix e r' r e_plain Hcut (p ++ body')
                                              (negb (Ascii.eqb backslash a))) Hj0)
          as (u0 & b' & Hju & Hcu).
        apply (@search_none_cut e jumps n Hjumps e_in_line b' u0' u0 Hcu).
        exact (Hpre j0 u0 Hin Hju).
      * rewrite <- app_assoc. apply Hloc.
      * apply (IH body' r r' Hcut Hr).
Qed.

Lemma quote_in_line (a : ascii) :
  mem a [quote; apostrophe] = true ->
  is_line_terminator a = false /\ Ascii.eqb backslash a = false.
Proof.
  cbn [mem]. intros Hq. apply orb_true_iff in Hq. destruct Hq as [Hq|Hq].
  - apply Ascii.eqb_eq in Hq. subst a. split; reflexivity.
  - apply orb_true_iff in Hq. destruct Hq as [Hq|Hq]; [|discriminate].
    apply Ascii.eqb_eq in Hq. subst a. split; reflexivity.
Qed.

Lemma literal_end_fuel (q : ascii) (n m : nat) (l : list ascii) :
  (List.length l < n)%nat -> (List.length l < m)%nat ->
  search q literal_jumps n l = search q literal_jumps m l.
Proof. apply search_fuel. exact literal_jumps_ok. Qed.

(** What an attempt keeps is the start of the text; a comment starts at
    a hash and ends with its line. *)
Lemma scanStep_cases (l kept rest : list ascii) :
  scanStep l = Some (kept, rest) ->
  (kept <> [] /\ l = kept ++ rest)
  \/ (kept = [] /\ exists t, l = hash :: t /\ rest = skip_line t).
Proof.
  destruct l as [|a t]; [discriminate|]. unfold scanStep.
  assert (Hkept : forall e n r,
             search e (if Ascii.eqb e hash then span_jumps else literal_jumps) n t
             = Some r ->
             keptOf (a :: t) r <> [] /\ a :: t = keptOf (a :: t) r ++ r).
  { intros e n r H.
    assert (Hs : exists body, t = body ++ e :: r).
    { destruct (Ascii.eqb e hash).
      - exact (@search_split e span_jumps n span_jumps_ok t r H).
      - exact (@search_split e literal_jumps n literal_jumps_ok t r H). }
    destruct Hs as [body ->].
    replace (a :: body ++ e :: r) with ((a :: body ++ [e]) ++ r)
      by (cbn [app]; rewrite <- app_assoc; reflexivity).
    rewrite keptOf_app. split; [discriminate|reflexivity]. }
  destruct (mem a [quote; apostrophe]) eqn:Hq.
  - destruct (search a literal_jumps (S (List.length t)) t) as [r|] eqn:Hs;
      [|discriminate].
    intros H. injection H as <- <-. left.
    apply (Hkept a (S (List.length t)) r).
    replace (Ascii.eqb a hash) with false; [exact Hs|].
    symmetry. rewrite Ascii.eqb_sym. exact (quote_is_not_hash a Hq).
  - destruct (Ascii.eqb hash a) eqn:Hh; [|discriminate].
    apply Ascii.eqb_eq in Hh. subst a.
    destruct (if match t with
                 | b :: _ => mem b [star; hash]
                 | [] => false
                 end
              then None else search hash span_jumps (S (List.length t)) t)
      as [r|] eqn:Hs.
    + intros H. injection H as <- <-. left.
      destruct (match t with
                | b :: _ => mem b [star; hash]
                | [] => false
                end); [discriminate|].
      apply (Hkept hash (S (List.length t)) r). exact Hs.
    + intros H. injection H as <- <-. right. split; [reflexivity|].
      exists t. split; reflexivity.
Qed.

Lemma scanStep_shorter (l kept rest : list ascii) :
  scanStep l = Some (kept, rest) -> (List.length rest < List.length l)%nat.
Proof.
  intros H. apply scanStep_cases in H.
  destruct H as [[Hk ->]|(_ & t & -> & ->)].
  - rewrite length_app. destruct kept; [congruence|simpl; lia].
  - destruct (skip_line_suffix t) as [c Hc].
    rewrite Hc at 2. simpl. rewrite length_app. lia.
Qed.

(** The replacement, one attempt at a time, on any text. *)
Lemma stripList_scan (l : list ascii) :
  stripList l
  = match scanStep l with
    | Some (kept, rest) => kept ++ stripList rest
    | None =>
        match l with
        | [] => []
        | a :: t => a :: stripList t
        end
    end.
Proof.
  unfold stripList at 1. cbn [replace_loop].
  assert (Hstep : match l with
                  | [] => []
                  | c :: t => c :: replace_loop COMMENT_STRIPPING_REGEX (List.length l) t
                  end
                  = match l with
                    | [] => []
                    | a :: t => a :: stripList t
                    end).
  { destruct l as [|a t]; reflexivity. }
  pose proof (exec_scanStep l) as Hspec.
  destruct (exec COMMENT_STRIPPING_REGEX l) as [[rest caps]|];
    cbn [option_map fst snd] in Hspec; rewrite <- Hspec; [|exact Hstep].
  symmetry in Hspec. apply scanStep_shorter in Hspec.
  pose proof Hspec as Hlt. apply Nat.ltb_lt in Hlt. rewrite Hlt. f_equal.
  apply replace_loop_fuel; lia.
Qed.

(** An attempt that finds nothing finds nothing when comments are cut out
    of the text after its first character. *)
Lemma scanStep_none_cut (a : ascii) (t t' : list ascii) :
  cut (negb (Ascii.eqb backslash a)) t' t ->
  scanStep (a :: t) = None -> scanStep (a :: t') = None.
Proof.
  intros Hcut. unfold scanStep.
  destruct (mem a [quote; apostrophe]) eqn:Hq.
  - destruct (quote_in_line a Hq) as [Hline Hplain].
    destruct (search a literal_jumps (S (List.length t)) t) eqn:Hs; [discriminate|].
    intros _.
    pose proof (@search_none_cut a literal_jumps (S (List.length t))
                  literal_jumps_ok Hline _ t' t Hcut Hs) as Hs'.
    pose proof (cut_length Hcut) as Hlen.
    rewrite (@literal_end_fuel a (S (List.length t')) (S (List.length t)) t')
      by lia.
    rewrite Hs'. reflexivity.
  - destruct (Ascii.eqb hash a); [|reflexivity].
    destruct (if match t with
                 | b :: _ => mem b [star; hash]
                 | [] => false
                 end
              then None else search hash span_jumps (S (List.length t)) t);
      discriminate.
Qed.

(** An attempt that keeps a piece keeps it when comments are cut out of
    the text after the piece. *)
Lemma scanStep_some_cut (kept r r' : list ascii) :
  kept <> [] -> cut true r' r ->
  scanStep (kept ++ r) = Some (kept, r) ->
  scanStep (kept ++ r') = Some (kept, r').
Proof.
  intros Hk Hcut. destruct kept as [|a ct]; [congruence|]. clear Hk.
  cbn [app]. unfold scanStep.
  assert (Hgo : forall e jumps,
             Forall jump_ok jumps -> is_line_terminator e = false ->
             Ascii.eqb backslash e = false ->
             forall r0,
               search e jumps (S (List.length (ct ++ r))) (ct ++ r) = Some r0 ->
               Some (keptOf (a :: ct ++ r) r0, r0) = Some (a :: ct, r) ->
               search e jumps (S (List.length (ct ++ r'))) (ct ++ r') = Some r'
               /\ keptOf (a :: ct ++ r') r' = a :: ct).
  { intros e jumps Hok Hline Hplain r0 Hs H. injection H as _ ->.
    destruct (@search_split e jumps _ Hok _ _ Hs) as [body Hbody].
    assert (Hct : ct = body ++ [e]).
    { replace (body ++ e :: r) with ((body ++ [e]) ++ r) in Hbody
        by (rewrite <- app_assoc; reflexivity).
      apply app_inv_tail in Hbody. exact Hbody. }
    subst ct. split.
    - rewrite <- !app_assoc in *. cbn [app] in *.
      pose proof (cut_length Hcut) as Hlen.
      rewrite (@search_fuel e jumps (S (List.length (body ++ e :: r'))) Hok
                 (S (List.length (body ++ e :: r))) (body ++ e :: r'))
        by (rewrite ?length_app; simpl; lia).
      apply (@search_some_cut e jumps _ Hok Hline Hplain body r r' Hcut Hs).
    - change (a :: (body ++ [e]) ++ r') with ((a :: body ++ [e]) ++ r').
      apply keptOf_app. }
  destruct (mem a [quote; apostrophe]) eqn:Hq.
  - destruct (quote_in_line a Hq) as [Hline Hplain].
    destruct (search a literal_jumps (S (List.length (ct ++ r))) (ct ++ r))
      as [r0|] eqn:Hs; [|discriminate].
    intros H.
    destruct (Hgo a literal_jumps literal_jumps_ok Hline Hplain r0 Hs H) as [Hs' Hk'].
    rewrite Hs', Hk'. reflexivity.
  - destruct (Ascii.eqb hash a) eqn:Hh; [|discriminate].
    destruct ct as [|b ct'].
    + cbn [app]. intros H. exfalso.
      destruct (if match r with
                   | b :: _ => mem b [star; hash]
                   | [] => false
                   end
                then None else search hash span_jumps (S (List.length r)) r)
        as [r0|] eqn:Hs; [|discriminate].
      injection H as _ ->.
      destruct (match r with
                | b :: _ => mem b [star; hash]
                | [] => false
                end); [discriminate|].
      apply (@search_shorter hash span_jumps _ _ _ span_jumps_ok) in Hs. lia.
    + cbn [app]. destruct (mem b [star; hash]); [discriminate|].
      destruct (search hash span_jumps (S (List.length (b :: ct' ++ r)))
                       (b :: ct' ++ r)) as [r0|] eqn:Hs; [|discriminate].
      intros H.
      destruct (Hgo hash span_jumps span_jumps_ok eq_refl eq_refl r0 Hs H)
        as [Hs' Hk'].
      cbn [app] in Hs', Hk'. rewrite Hs', Hk'. reflexivity.
Qed.

Lemma noEscapedHashes_tail (a : ascii) (t : list ascii) :
  noEscapedHashes (a :: t) = true -> noEscapedHashes t = true.
Proof. cbn [noEscapedHashes]. intros H. apply andb_true_iff in H. apply H. Qed.

Lemma noEscapedHashes_app (c r : list ascii) :
  noEscapedHashes (c ++ r) = true -> noEscapedHashes r = true.
Proof.
  induction c as [|a c IH]; [trivial|]. cbn [app]. intros H.
  apply IH. exact (noEscapedHashes_tail _ _ H).
Qed.

(** In a text where no backslash is followed by a hash, what stripping
    leaves is the text with comments cut out, none of them right after a
    backslash. *)
Lemma stripped_cut (out text : list ascii) :
  stripped out text ->
  noEscapedHashes text = true ->
  forall b, (b = true \/ forall t, text <> hash :: t) -> cut b out text.
Proof.
  induction 1 as [|a out text _ IH|c out rest Hone Hend _ IH]; intros HA b Hb.
  - constructor.
  - apply cut_keep. apply IH; [exact (noEscapedHashes_tail _ _ HA)|].
    destruct (Ascii.eqb backslash a) eqn:Ea; [|left; reflexivity].
    right. intros t ->. cbn [noEscapedHashes] in HA. rewrite Ea in HA.
    cbn in HA. discriminate.
  - destruct Hb as [->|Hb]; [|exfalso; exact (Hb _ eq_refl)].
    apply cut_drop; [exact Hone|exact Hend|].
    apply IH; [|left; reflexivity].
    change (hash :: c ++ rest) with ((hash :: c) ++ rest) in HA.
    exact (noEscapedHashes_app _ _ HA).
Qed.

(** Stripping twice is stripping once, on every text where no backslash
    is followed by a hash. *)
Lemma stripList_twice (l : list ascii) :
  noEscapedHashes l = true -> stripList (stripList l) = stripList l.
Proof.
  remember (List.length l) as n eqn:Hn. revert l Hn.
  induction n as [n IH] using lt_wf_ind. intros l Hn HA.
  rewrite (stripList_scan l).
  destruct (scanStep l) as [[kept rest]|] eqn:Hscan.
  - pose proof (scanStep_shorter _ Hscan) as Hlen.
    destruct (scanStep_cases _ Hscan) as [[Hk Hl]|(-> & t & Hl & Hrest)].
    + assert (HArest : noEscapedHashes rest = true).
      { rewrite Hl in HA. exact (noEscapedHashes_app _ _ HA). }
      rewrite (stripList_scan (kept ++ stripList rest)).
      rewrite Hl in Hscan.
      rewrite (@scanStep_some_cut kept rest (stripList rest) Hk
                 (@stripped_cut _ _ (stripList_stripped rest) HArest true
                                (or_introl eq_refl)) Hscan).
      f_equal. apply (IH (List.length rest)); [lia|reflexivity|exact HArest].
    + cbn [app]. apply (IH (List.length rest)); [lia|reflexivity|].
      destruct (skip_line_suffix t) as [c Hc]. subst l rest.
      rewrite Hc in HA.
      change (hash :: c ++ skip_line t) with ((hash :: c) ++ skip_line t) in HA.
      exact (noEscapedHashes_app _ _ HA).
  - destruct l as [|a t]; [reflexivity|].
    assert (HAt : noEscapedHashes t = true) by exact (noEscapedHashes_tail _ _ HA).
    assert (Hcut : cut (negb (Ascii.eqb backslash a)) (stripList t) t).
    { apply stripped_cut; [apply stripList_stripped|exact HAt|].
      destruct (Ascii.eqb backslash a) eqn:Ea; [|left; reflexivity].
      right. intros u ->. cbn [noEscapedHashes] in HA. rewrite Ea in HA.
      cbn in HA. discriminate. }
    rewrite (stripList_scan (a :: stripList t)).
    rewrite (@scanStep_none_cut a t (stripList t) Hcut Hscan).
    f_equal. apply (IH (List.length t)); [simpl in Hn; lia|reflexivity|exact HAt].
Qed.

Lemma cutsAfterBackslash_scan (n : nat) (prev : bool) (l : list ascii) :
  cutsAfterBackslash (S n) prev l
  = match scanStep l with
    | Some ([], rest) => prev || cutsAfterBackslash n false rest
    | Some (_ :: _, rest) => cutsAfterBackslash n false rest
    | None =>
        match l with
        | [] => false
        | a :: t => cutsAfterBackslash n (Ascii.eqb backslash a) t
        end
    end.
Proof.
  cbn [cutsAfterBackslash]. rewrite <- (exec_scanStep l).
  destruct (exec COMMENT_STRIPPING_REGEX l) as [[rest caps]|]; reflexivity.
Qed.

(** What an attempt keeps ends with a quote or a hash. *)
Lemma scanStep_kept_last (l kept rest : list ascii) :
  scanStep l = Some (kept, rest) -> kept <> [] ->
  exists c e, kept = c ++ [e] /\ Ascii.eqb backslash e = false.
Proof.
  destruct l as [|a t]; [discriminate|]. unfold scanStep.
  assert (Hkept : forall e jumps n r,
             Forall jump_ok jumps -> Ascii.eqb backslash e = false ->
             search e jumps n t = Some r ->
             exists c e0, keptOf (a :: t) r = c ++ [e0]
                          /\ Ascii.eqb backslash e0 = false).
  { intros e jumps n r Hok He H.
    destruct (@search_split e jumps n Hok t r H) as [body ->].
    replace (a :: body ++ e :: r) with (((a :: body) ++ [e]) ++ r)
      by (cbn [app]; rewrite <- app_assoc; reflexivity).
    rewrite keptOf_app. exists (a :: body), e. split; [reflexivity|exact He]. }
  destruct (mem a [quote; apostrophe]) eqn:Hq.
  - destruct (search a literal_jumps (S (List.length t)) t) as [r|] eqn:Hs;
      [|discriminate].
    intros H _. injection H as <- <-.
    exact (Hkept a literal_jumps _ r literal_jumps_ok (proj2 (quote_in_line a Hq)) Hs).
  - destruct (Ascii.eqb hash a) eqn:Hh; [|discriminate].
    destruct (if match t with
                 | b :: _ => mem b [star; hash]
                 | [] => false
                 end
              then None else search hash span_jumps (S (List.length t)) t)
      as [r|] eqn:Hs.
    + intros H _. injection H as <- <-.
      destruct (match t with
                | b :: _ => mem b [star; hash]
                | [] => false
                end); [discriminate|].
      exact (Hkept hash span_jumps _ r span_jumps_ok eq_refl Hs).
    + intros H Hk. injection H as <- _. congruence.
Qed.

Lemma cut_kept (kept out rest : list ascii) :
  (exists c e, kept = c ++ [e] /\ Ascii.eqb backslash e = false) ->
  cut true out rest -> forall b, cut b (kept ++ out) (kept ++ rest).
Proof.
  intros (c & e & -> & He) Hcut b. rewrite <- !app_assoc. cbn [app].
  apply cut_same_prefix; assumption.
Qed.

(** What stripping leaves is the text with comments cut out, none of them
    right after a backslash when the replacement removes none there. *)
Lemma stripList_cut (n : nat) :
  forall (l : list ascii) (prev : bool),
    (List.length l < n)%nat -> cutsAfterBackslash n prev l = false ->
    cut (negb prev) (stripList l) l.
Proof.
  induction n as [|n IH]; intros l prev Hn HB; [lia|].
  rewrite cutsAfterBackslash_scan in HB. rewrite (stripList_scan l).
  destruct (scanStep l) as [[kept rest]|] eqn:Hscan.
  - pose proof (scanStep_shorter _ Hscan) as Hlen.
    destruct (scanStep_cases _ Hscan) as [[Hk Hl]|(-> & t & Hl & Hrest)].
    + destruct kept as [|k0 kept0]; [congruence|].
      rewrite Hl.
      apply cut_kept; [exact (scanStep_kept_last _ Hscan Hk)|].
      apply (IH rest false); [lia|exact HB].
    + apply orb_false_iff in HB. destruct HB as [-> HB]. cbn [negb app].
      destruct (skip_line_split t) as (c & Ht & Hone).
      rewrite Hl.
      replace (hash :: t) with (hash :: c ++ rest)
        by (rewrite Hrest, <- Ht; reflexivity).
      apply cut_drop; [exact Hone|rewrite Hrest; apply skip_line_head|].
      apply (IH rest false); [lia|exact HB].
  - destruct l as [|a t]; [constructor|].
    apply cut_keep. apply (IH t (Ascii.eqb backslash a)); [simpl in Hn; lia|exact HB].
Qed.

(** Stripping twice is stripping once, on every text in which the
    replacement removes no comment right after a backslash. *)
Lemma stripList_twice_cut (n : nat) :
  forall (l : list ascii) (prev : bool),
    (List.length l < n)%nat -> cutsAfterBackslash n prev l = false ->
    stripList (stripList l) = stripList l.
Proof.
  induction n as [|n IH]; intros l prev Hn HB; [lia|].
  rewrite cutsAfterBackslash_scan in HB. rewrite (stripList_scan l).
  destruct (scanStep l) as [[kept rest]|] eqn:Hscan.
  - pose proof (scanStep_shorter _ Hscan) as Hlen.
    destruct (scanStep_cases _ Hscan) as [[Hk Hl]|(-> & t & Hl & Hrest)].
    + destruct kept as [|k0 kept0]; [congruence|].
      rewrite (stripList_scan ((k0 :: kept0) ++ stripList rest)).
      rewrite Hl in Hscan.
      rewrite (@scanStep_some_cut (k0 :: kept0) rest (stripList rest) Hk
                 (@stripList_cut n rest false ltac:(lia) HB) Hscan).
      f_equal. apply (IH rest false); [lia|exact HB].
    + apply orb_false_iff in HB. destruct HB as [_ HB]. cbn [app].
      apply (IH rest false); [lia|exact HB].
  - destruct l as [|a t]; [reflexivity|]. simpl in Hn.
    rewrite (stripList_scan (a :: stripList t)).
    rewrite (@scanStep_none_cut a t (stripList t)
               (@stripList_cut n t (Ascii.eqb backslash a) ltac:(lia) HB) Hscan).
    f_equal. apply (IH t (Ascii.eqb backslash a)); [lia|exact HB].
Qed.

Lemma wellQuoted_inside (q : ascii) (n : nat) :
  Ascii.eqb backslash q = false ->
  forall l, (List.length l < n)%nat ->
            wellQuotedFrom (Inside q) l = true ->
            exists body t,
              l = body ++ q :: t /\ escapedItems q body = true
              /\ wellQuotedFrom Outside t = true.
Proof.
  intros Hq. induction n as [|n IH]; intros l Hn H; [lia|].
  destruct l as [|a t]; [discriminate|]. cbn [wellQuotedFrom] in H. simpl in Hn.
  destruct (Ascii.eqb q a) eqn:Ea.
  - apply Ascii.eqb_eq in Ea. subst a. exists [], t.
    split; [reflexivity|]. split; [reflexivity|exact H].
  - destruct (Ascii.eqb backslash a) eqn:Eb.
    + destruct t as [|x t]; [discriminate|]. cbn [wellQuotedFrom] in H.
      simpl in Hn. destruct (IH t ltac:(lia) H) as (body & t' & -> & Hbody & Ht').
      exists (a :: x :: body), t'. split; [reflexivity|].
      split; [|exact Ht']. cbn [escapedItems]. rewrite Eb. exact Hbody.
    + destruct (is_line_terminator a) eqn:Et; [discriminate|].
      destruct (IH t ltac:(lia) H) as (body & t' & -> & Hbody & Ht').
      exists (a :: body), t'. split; [reflexivity|].
      split; [|exact Ht']. cbn [escapedItems]. rewrite Eb, Ea, Et. exact Hbody.
Qed.

(** A text of literals and plain characters is kept as it is, whatever
    follows it. *)
Lemma stripList_wellQuoted (n : nat) :
  forall pre, (List.length pre < n)%nat ->
              wellQuotedFrom Outside pre = true ->
              forall l, stripList (pre ++ l) = pre ++ stripList l.
Proof.
  induction n as [|n IH]; intros pre Hn H l; [lia|].
  destruct pre as [|a t]; [reflexivity|]. cbn [wellQuotedFrom] in H. simpl in Hn.
  destruct (mem a [quote; apostrophe]) eqn:Hq.
  - destruct (@wellQuoted_inside a (S (List.length t))
                (proj2 (quote_in_line a Hq)) t (Nat.lt_succ_diag_r _) H)
      as (body & t' & -> & Hbody & Ht').
    cbn [app]. rewrite <- !app_assoc. cbn [app].
    rewrite (@stripList_escaped_literal a body (t' ++ l) Hq Hbody).
    rewrite (IH t'); [reflexivity| |exact Ht'].
    rewrite length_app in Hn. simpl in Hn. lia.
  - destruct (Ascii.eqb hash a) eqn:Hh; [discriminate|].
    cbn [app]. rewrite (@stripList_plain a (t ++ l) Hq Hh).
    rewrite (IH t); [reflexivity|lia|exact H].
Qed.

(** A hash followed by a star or a hash starts a comment that runs to the
    end of the line. *)
Lemma stripList_marked_comment (b : ascii) (c rest : list ascii) :
  mem b [star; hash] = true -> oneLine (b :: c) -> atLineEndL rest ->
  stripList (hash :: (b :: c) ++ rest) = stripList rest.
Proof.
  intros Hb Hone Hend. rewrite stripList_scan.
  cbn [app]. unfold scanStep.
  change (mem hash [quote; apostrophe]) with false. cbv iota.
  rewrite Ascii.eqb_refl, Hb.
  change (b :: c ++ rest) with ((b :: c) ++ rest).
  rewrite (@skip_line_app (b :: c) rest Hone Hend). reflexivity.
Qed.

Local Open Scope string_scope.

Lemma list_ascii_of_string_app (a b : string) :
  list_ascii_of_string (a ++ b) = (list_ascii_of_string a ++ list_ascii_of_string b)%list.
Proof. induction a as [|c a IH]; simpl; [reflexivity|]. rewrite IH. reflexivity. Qed.

Lemma string_of_list_ascii_app (a b : list ascii) :
  string_of_list_ascii (a ++ b)%list = string_of_list_ascii a ++ string_of_list_ascii b.
Proof. induction a as [|c a IH]; simpl; [reflexivity|]. rewrite IH. reflexivity. Qed.

Lemma stripComments_stripList (s : string) :
  stripComments s = string_of_list_ascii (stripList (list_ascii_of_string s)).
Proof. reflexivity. Qed.

Lemma noBackslash_noBackslashes (s : string) :
  noBackslash s = true -> noBackslashes (list_ascii_of_string s).
Proof.
  unfold noBackslash, noBackslashes. rewrite forallb_forall, Forall_forall.
  intros H x Hx. apply negb_true_iff. apply H. exact Hx.
Qed.

Lemma stripComments_idempotent (s : string) :
  noBackslash s = true -> stripComments (stripComments s) = stripComments s.
Proof.
  intros H. rewrite !stripComments_stripList.
  rewrite list_ascii_of_string_of_list_ascii.
  rewrite (stripList_idempotent (noBackslash_noBackslashes s H)). reflexivity.
Qed.

Lemma literalBody_spec (q : ascii) (body : string) :
  literalBody q body = true ->
  Forall (fun x => Ascii.eqb q x = false /\ is_line_terminator x = false
                   /\ Ascii.eqb backslash x = false)
         (list_ascii_of_string body).
Proof.
  unfold literalBody. rewrite forallb_forall, Forall_forall.
  intros H x Hx. specialize (H x Hx).
  apply andb_true_iff in H. destruct H as [H H3].
  apply andb_true_iff in H. destruct H as [H1 H2].
  rewrite negb_true_iff in *. auto.
Qed.

Lemma commentBody_spec (c : string) :
  commentBody c = true ->
  Forall (fun x => Ascii.eqb hash x = false /\ is_line_terminator x = false)
         (list_ascii_of_string c).
Proof.
  unfold commentBody. rewrite forallb_forall, Forall_forall.
  intros H x Hx. specialize (H x Hx).
  apply andb_true_iff in H. destruct H as [H1 H2].
  rewrite negb_true_iff in *. auto.
Qed.

Lemma stripComments_prefix (pre s : string) :
  wellQuoted pre = true -> stripComments (pre ++ s) = pre ++ stripComments s.
Proof.
  unfold wellQuoted. intros Hpre.
  rewrite !stripComments_stripList, list_ascii_of_string_app.
  rewrite (@stripList_wellQuoted _ _ (Nat.lt_succ_diag_r _) Hpre).
  rewrite string_of_list_ascii_app, string_of_list_ascii_of_string. reflexivity.
Qed.

Lemma stripComments_twice_cut (s : string) :
  commentAfterBackslash s = false ->
  stripComments (stripComments s) = stripComments s.
Proof.
  unfold commentAfterBackslash. intros H.
  rewrite !stripComments_stripList, list_ascii_of_string_of_list_ascii.
  rewrite (@stripList_twice_cut _ _ false (Nat.lt_succ_diag_r _) H). reflexivity.
Qed.

Lemma stripComments_twice (s : string) :
  noEscapedHash s = true ->
  stripComments (stripComments s) = stripComments s.
Proof.
  unfold noEscapedHash. intros H.
  rewrite !stripComments_stripList, list_ascii_of_string_of_list_ascii.
  rewrite (@stripList_twice _ H). reflexivity.
Qed.

Lemma stripComments_literal (q : ascii) (body rest : string) :
  q = quote \/ q = apostrophe ->
  escapedBody q body = true ->
  stripComments (String q (body ++ String q rest))
  = String q (body ++ String q (stripComments rest)).
Proof.
  intros Hq Hbody.
  rewrite !stripComments_stripList. cbn [list_ascii_of_string].
  rewrite list_ascii_of_string_app. cbn [list_ascii_of_string].
  rewrite (@stripList_escaped_literal q _ _).
  - cbn [string_of_list_ascii]. rewrite string_of_list_ascii_app.
    cbn [string_of_list_ascii]. rewrite string_of_list_ascii_of_string. reflexivity.
  - destruct Hq as [->| ->]; reflexivity.
  - exact Hbody.
Qed.

Lemma stripComments_line_comment (c rest : string) :
  lineComment c = true -> atLineEnd rest = true ->
  stripComments (String hash (c ++ rest)) = stripComments rest.
Proof.
  unfold lineComment. intros Hc Hend.
  apply andb_true_iff in Hc. destruct Hc as [Hline Hkind].
  assert (Hone : oneLine (list_ascii_of_string c)).
  { unfold oneLine. rewrite forallb_forall in Hline. apply Forall_forall.
    intros x Hx. apply negb_true_iff. apply Hline. exact Hx. }
  assert (HendL : atLineEndL (list_ascii_of_string rest))
    by (destruct rest as [|b u]; [exact I|exact Hend]).
  rewrite !stripComments_stripList. cbn [list_ascii_of_string].
  rewrite list_ascii_of_string_app.
  apply orb_true_iff in Hkind. destruct Hkind as [Hmark|Hnohash].
  - destruct c as [|b c]; [discriminate|]. cbn [list_ascii_of_string] in *.
    rewrite (@stripList_marked_comment b _ _); [reflexivity| |exact Hone|exact HendL].
    cbn [mem]. apply orb_true_iff in Hmark.
    destruct Hmark as [->| ->]; rewrite ?orb_true_r; reflexivity.
  - rewrite (@stripList_comment_anywhere _ _); [reflexivity| |exact HendL].
    rewrite forallb_forall in Hnohash. apply Forall_forall. intros x Hx. split.
    + apply negb_true_iff. apply Hnohash. exact Hx.
    + exact (proj1 (Forall_forall _ _) Hone x Hx).
Qed.

(** C8, as the code has it: stripping is idempotent on every text in
    which it removes no comment that starts right after a backslash, and so
    on every text in which no backslash is followed by a hash. It is safe
    for string literals: a text made of string literals and, outside them,
    of characters that are no quote and no hash (in a literal a backslash
    takes the character after it, and the quote that opened it closes it
    before a line terminator that no backslash takes) is kept unchanged,
    hashes included, whatever follows it, and the scan goes on after it; so
    is the literal that the scan meets after such a text. And a trailing comment is removed: a hash
    met after such a text and followed, up to the end of its line, by a
    text that starts with a star or a hash or holds no hash is removed with
    that text, what is before it is kept, and the scan goes on with the end
    of the line. *)
Theorem stripComments_properties :
  (forall s, commentAfterBackslash s = false ->
             stripComments (stripComments s) = stripComments s)
  /\ (forall s, noEscapedHash s = true ->
                stripComments (stripComments s) = stripComments s)
  /\ (forall pre rest,
         wellQuoted pre = true ->
         stripComments (pre ++ rest) = pre ++ stripComments rest)
  /\ (forall pre q body rest,
         wellQuoted pre = true ->
         q = quote \/ q = apostrophe ->
         escapedBody q body = true ->
         stripComments (pre ++ String q (body ++ String q rest))
         = pre ++ String q (body ++ String q (stripComments rest)))
  /\ (forall pre c rest,
         wellQuoted pre = true ->
         lineComment c = true -> atLineEnd rest = true ->
         stripComments (pre ++ String hash (c ++ rest)) = pre ++ stripComments rest).
Proof.
  split; [exact stripComments_twice_cut|].
  split; [exact stripComments_twice|].
  split; [exact stripComments_prefix|]. split.
  - intros pre q body rest Hpre Hq Hbody.
    rewrite (@stripComments_prefix pre _ Hpre).
    rewrite (@stripComments_literal q body rest Hq Hbody). reflexivity.
  - intros pre c rest Hpre Hc Hend.
    rewrite (@stripComments_prefix pre _ Hpre).
    rewrite (@stripComments_line_comment c rest Hc Hend). reflexivity.
Qed.

Lemma stripComments_properties_witness :
  stripComments (stripComments pathLine) = stripComments pathLine
  /\ stripComments (stripComments commentedManifest) = stripComments commentedManifest
  /\ stripComments (valuesText ++ " # comment") = valuesText ++ stripComments " # comment"
  /\ stripComments ("{name: " ++ String quote ("a # b" ++ String quote "} # comment"))
     = "{name: " ++ String quote ("a # b" ++ String quote (stripComments "} # comment"))
  /\ stripComments ((valuesText ++ " ")
                    ++ String hash (" comment" ++ String "010"%char "{id:'mod2'}"))
     = (valuesText ++ " ") ++ stripComments (String "010"%char "{id:'mod2'}").
Proof.
  destruct stripComments_properties as (H1 & H2 & H3 & H4 & H5).
  split; [|split; [|split; [|split]]].
  - apply (H1 pathLine). vm_compute. reflexivity.
  - apply (H2 commentedManifest). vm_compute. reflexivity.
  - apply (H3 valuesText " # comment"). vm_compute. reflexivity.
  - apply (H4 "{name: " quote "a # b" "} # comment");
      [vm_compute; reflexivity|left; reflexivity|vm_compute; reflexivity].
  - apply (H5 (valuesText ++ " ") " comment" (String "010"%char "{id:'mod2'}"));
      vm_compute; reflexivity.
Defined.

(** A manifest with two values and a trailing comment, followed by a
    second line: both values are kept, the comment is removed. *)
Example stripComments_values :
  stripComments (valuesText ++ " # comment" ++ String "010"%char "{id:'mod2'}")
  = valuesText ++ " " ++ String "010"%char "{id:'mod2'}".
Proof. vm_compute. reflexivity. Qed.

(** The documented value in a manifest line: the value is kept, the
    trailing comment is removed. *)
Example stripComments_value_line :
  stripComments valueLine = "{name: " ++ String quote ("a # b" ++ String quote "} ").
Proof. vm_compute. reflexivity. Qed.

(** A backslash followed by a hash inside a literal does no harm; in
    [escapedLineEnd] the comment that is removed starts right after the
    backslash. *)
Example stripComments_path_line :
  noEscapedHash pathLine = false
  /\ commentAfterBackslash pathLine = false
  /\ commentAfterBackslash escapedLineEnd = true
  /\ stripComments pathLine
     = "{path: " ++ String quote ("C:" ++ String backslash ("#mods" ++ String quote "} ")).
Proof. repeat split; vm_compute; reflexivity. Qed.

Example stripComments_sample :
  stripComments commentedManifest
  = String "010"%char
      ("{id:'mod1', name:'a # b', " ++ String "010"%char " version:'1.0'} ").
Proof. vm_compute. reflexivity. Qed.

Example stripComments_literal_with_hash :
  stripComments (String quote ("a # b" ++ String quote " # comment"))
  = String quote ("a # b" ++ String quote " ").
Proof. vm_compute. reflexivity. Qed.

(** C8 as stated fails: stripping the seven characters of
    [escapedLineEnd] once removes the hash before the line feed; stripping
    the result again removes the last hash, because the backslash now
    escapes the line feed and the literal closes on the second line. And
    a trailing comment with a second hash in it is not removed. *)
Lemma stripComments_not_idempotent :
  stripComments escapedLineEnd
  = String quote (String backslash (String "010"%char
      (String hash (String quote (String hash EmptyString)))))
  /\ stripComments (stripComments escapedLineEnd)
     = String quote (String backslash (String "010"%char
         (String hash (String quote EmptyString))))
  /\ stripComments (stripComments escapedLineEnd) <> stripComments escapedLineEnd
  /\ stripComments "x = 1 # see #2" = "x = 1 # see #2".
Proof.
  split; [vm_compute; reflexivity|]. split; [vm_compute; reflexivity|].
  split; [vm_compute; discriminate|]. vm_compute. reflexivity.
Qed.

(** *** Further properties of the stripping *)

Lemma length_list_ascii_of_string (s : string) :
  List.length (list_ascii_of_string s) = String.length s.
Proof. induction s as [|c s IH]; simpl; [reflexivity|]. rewrite IH. reflexivity. Qed.

(** X10: a text without a hash is left as it is, whatever its quotes and
    backslashes. *)
Theorem stripComments_without_hash (s : string) :
  noHash s = true -> stripComments s = s.
Proof.
  intros H. rewrite stripComments_stripList.
  rewrite (stripped_hashless (stripList_stripped (list_ascii_of_string s))).
  - apply string_of_list_ascii_of_string.
  - unfold noHash in H. rewrite forallb_forall in H. apply Forall_forall.
    intros x Hx. apply negb_true_iff. apply H. exact Hx.
Qed.

(** X11: stripping removes no line terminator, so that the text keeps its
    lines and their order, and it never makes the text longer. *)
Theorem stripComments_keeps_lines (s : string) :
  lineTerminators (stripComments s) = lineTerminators s
  /\ (String.length (stripComments s) <= String.length s)%nat.
Proof.
  pose proof (stripList_stripped (list_ascii_of_string s)) as H.
  unfold lineTerminators. rewrite stripComments_stripList.
  rewrite list_ascii_of_string_of_list_ascii. split.
  - apply stripped_terminators. exact H.
  - rewrite <- !length_list_ascii_of_string, list_ascii_of_string_of_list_ascii.
    apply stripped_length. exact H.
Qed.

(** X12: the last alternative of the expression, the block comment, never
    decides anything: the expression without it strips every text alike.
    The opening line of a block comment is removed as a line comment, and
    the lines after it are stripped on their own. *)
Theorem stripComments_block_comment_unused :
  (forall s, replace_dollar1 withoutBlockComment s = stripComments s)
  /\ (forall c rest,
         commentBody c = true ->
         stripComments (String hash (String star (c ++ String "010"%char rest)))
         = String "010"%char (stripComments rest)).
Proof.
  split.
  - intros s. unfold stripComments, replace_dollar1. f_equal.
    apply replace_loop_ext. exact exec_withoutBlockComment.
  - intros c rest Hc. apply commentBody_spec in Hc.
    rewrite !stripComments_stripList. cbn [list_ascii_of_string].
    rewrite list_ascii_of_string_app. cbn [list_ascii_of_string].
    change (hash :: star :: (list_ascii_of_string c
                             ++ "010"%char :: list_ascii_of_string rest)%list)
      with (hash :: ((star :: list_ascii_of_string c)
                     ++ "010"%char :: list_ascii_of_string rest)%list).
    rewrite (@stripList_comment_anywhere (star :: list_ascii_of_string c)
               ("010"%char :: list_ascii_of_string rest)).
    + rewrite (@stripList_plain "010"%char _ eq_refl eq_refl). reflexivity.
    + constructor; [split; reflexivity|exact Hc].
    + reflexivity.
Qed.

Lemma spanBody_spec (b : ascii) (c : string) :
  spanBody (String b c) = true ->
  Ascii.eqb star b = false
  /\ Forall (fun x => Ascii.eqb hash x = false /\ is_line_terminator x = false
                      /\ Ascii.eqb backslash x = false
                      /\ Ascii.eqb "["%char x = false)
            (b :: list_ascii_of_string c).
Proof.
  unfold spanBody. intros H. apply andb_true_iff in H. destruct H as [Hb H].
  split; [apply negb_true_iff; exact Hb|].
  rewrite forallb_forall in H. apply Forall_forall. intros x Hx.
  specialize (H x Hx).
  apply andb_true_iff in H. destruct H as [H H4].
  apply andb_true_iff in H. destruct H as [H H3].
  apply andb_true_iff in H. destruct H as [H1 H2].
  rewrite negb_true_iff in *. auto.
Qed.

(** X14: a span between two hashes on one line is not a comment: where
    the scan meets a hash followed by plain characters, the first of them
    not a star, and by a second hash, the two hashes and what is between
    them are kept, and the scan goes on after the second hash. *)
Theorem stripComments_keeps_span (c rest : string) :
  spanBody c = true ->
  stripComments (String hash (c ++ String hash rest))
  = String hash (c ++ String hash (stripComments rest)).
Proof.
  destruct c as [|b c]; [discriminate|]. intros H.
  apply spanBody_spec in H. destruct H as [Hstar Hbody].
  rewrite !stripComments_stripList. cbn [list_ascii_of_string append].
  rewrite list_ascii_of_string_app. cbn [list_ascii_of_string].
  change (hash :: b :: (list_ascii_of_string c ++ hash :: list_ascii_of_string rest)%list)
    with (hash :: ((b :: list_ascii_of_string c) ++ hash :: list_ascii_of_string rest)%list).
  rewrite (@stripList_span b _ _ Hstar Hbody).
  cbn [string_of_list_ascii app]. rewrite string_of_list_ascii_app.
  cbn [string_of_list_ascii].
  rewrite string_of_list_ascii_of_string. reflexivity.
Qed.

Lemma atLineEnd_spec (rest : string) :
  atLineEnd rest = true -> atLineEndL (list_ascii_of_string rest).
Proof. destruct rest as [|b rest]; simpl; [trivial|intros H; exact H]. Qed.

(** X17: a quote that is not closed on its line opens no literal: when
    the rest of the line has no such quote and no backslash, the quote is
    kept and the scan goes on right after it, so that a comment later on
    the line is still removed. *)
Theorem stripComments_unclosed_quote (q : ascii) (c rest : string) :
  q = quote \/ q = apostrophe ->
  literalBody q c = true -> atLineEnd rest = true ->
  stripComments (String q (c ++ rest)) = String q (stripComments (c ++ rest)).
Proof.
  intros Hq Hc Hend.
  rewrite !stripComments_stripList. cbn [list_ascii_of_string].
  rewrite list_ascii_of_string_app.
  rewrite (@stripList_unclosed q _ _).
  - reflexivity.
  - destruct Hq as [->| ->]; reflexivity.
  - apply literalBody_spec. exact Hc.
  - apply atLineEnd_spec. exact Hend.
Qed.

(** X19: a quoted literal with escapes is kept whole: where the scan
    meets a quote followed by a body in which every backslash takes the
    character after it (a quote and a line terminator included) and the
    other characters are neither that quote nor a line terminator, and then
    by the same quote, the literal survives unchanged, hashes included, and
    the scan goes on after it. *)
Theorem stripComments_keeps_escaped_literal (q : ascii) (body rest : string) :
  q = quote \/ q = apostrophe ->
  escapedBody q body = true ->
  stripComments (String q (body ++ String q rest))
  = String q (body ++ String q (stripComments rest)).
Proof.
  intros Hq Hbody.
  rewrite !stripComments_stripList. cbn [list_ascii_of_string].
  rewrite list_ascii_of_string_app. cbn [list_ascii_of_string].
  rewrite (@stripList_escaped_literal q _ _).
  - cbn [string_of_list_ascii]. rewrite string_of_list_ascii_app.
    cbn [string_of_list_ascii]. rewrite string_of_list_ascii_of_string. reflexivity.
  - destruct Hq as [->| ->]; reflexivity.
  - exact Hbody.
Qed.

End StripFacts.

(** ** The game locator *)

(** C9, as the code has it: [findGame] makes exactly one call, the registry
    lookup, and nothing else. It fails when the lookup raises (with the
    error raised) or returns nothing (with the extension's own "registry key
    not found" error); when the lookup returns a value, it resolves to the
    stored string, the empty string included. *)
Theorem findGame_single_lookup
        (RegGetValue : string -> string -> string -> error + option regvalue) :
  let lookup := RegGetValue "HKEY_CURRENT_USER" "Software\Fractal Softworks\Starsector" "" in
  fst (findGame RegGetValue)
  = [EvRegGetValue "HKEY_CURRENT_USER" "Software\Fractal Softworks\Starsector" ""]
  /\ (forall err, lookup = inl err -> snd (findGame RegGetValue) = inl err)
  /\ (lookup = inr None ->
      snd (findGame RegGetValue) = inl (PlainError "Starsector registry key not found!"))
  /\ (forall instPath, lookup = inr (Some instPath) ->
      snd (findGame RegGetValue) = inr (reg_value instPath)).
Proof.
  unfold findGame; simpl.
  destruct (RegGetValue _ _ _) as [err|[v|]]; simpl;
    repeat split; intros; try discriminate; congruence.
Qed.

(** The theorem above at three registries: one that raises, one that has
    no value and one that has the installation path. *)
Lemma findGame_single_lookup_witness :
  snd (findGame (fun _ _ _ => inl (HostError "ENOENT"))) = inl (HostError "ENOENT")
  /\ snd (findGame (fun _ _ _ => inr None))
     = inl (PlainError "Starsector registry key not found!")
  /\ snd (findGame (fun _ _ _ => inr (Some (RegValue "REG_SZ" "C:\Games\Starsector"))))
     = inr "C:\Games\Starsector".
Proof.
  split; [|split].
  - destruct (findGame_single_lookup (fun _ _ _ => inl (HostError "ENOENT")))
      as (_ & H & _).
    apply H. reflexivity.
  - destruct (findGame_single_lookup (fun _ _ _ => inr None)) as (_ & _ & H & _).
    apply H. reflexivity.
  - destruct (findGame_single_lookup
                (fun _ _ _ => inr (Some (RegValue "REG_SZ" "C:\Games\Starsector"))))
      as (_ & _ & _ & H).
    apply (H (RegValue "REG_SZ" "C:\Games\Starsector")). reflexivity.
Defined.

(** C9 as stated fails: with an empty string stored under the key, the
    locator does not fail, it resolves to the empty string. *)
Lemma findGame_empty_value_resolves :
  reg_value (RegValue "REG_SZ" "") = ""
  /\ snd (findGame (fun _ _ _ => inr (Some (RegValue "REG_SZ" "")))) = inr ""
  /\ ~ (exists err,
           snd (findGame (fun _ _ _ => inr (Some (RegValue "REG_SZ" "")))) = inl err).
Proof.
  split; [reflexivity|]. split; [reflexivity|].
  intros [err H]. discriminate H.
Qed.

(** ** The probe *)

(** C3, as the code has it: for another game the probe answers
    [supported = false], with [requiredFiles] not set, whatever the files;
    for this game and no manifest entry it answers [supported = false] and
    [requiredFiles] is the one-element array holding [undefined]; for
    this game and exactly one manifest entry it answers [supported = true]
    and [requiredFiles] holds that entry. *)
Theorem testSupportedContent_cases (files : list string) (gameId : string) :
  (gameId <> GAME_ID ->
   testSupportedContent files gameId = resolve (Probe false None))
  /\ (gameId = GAME_ID -> manifestEntries files = [] ->
      testSupportedContent files gameId = resolve (Probe false (Some [None])))
  /\ (forall thatPath, gameId = GAME_ID -> manifestEntries files = [thatPath] ->
      testSupportedContent files gameId = resolve (Probe true (Some [Some thatPath]))).
Proof.
  unfold testSupportedContent. rewrite findManifest_head.
  split; [|split].
  - intros Hne. apply String.eqb_neq in Hne. rewrite Hne. reflexivity.
  - intros -> ->. reflexivity.
  - intros thatPath -> ->. reflexivity.
Qed.

Lemma testSupportedContent_cases_witness :
  testSupportedContent ["mod1/mod_info.json"; "mod1/data/foo.txt"] "skyrim"
  = resolve (Probe false None)
  /\ testSupportedContent ["mod1/readme.txt"; "mod1/data/foo.txt"] "starsector"
     = resolve (Probe false (Some [None]))
  /\ testSupportedContent ["mod1/mod_info.json"; "mod1/data/foo.txt"] "starsector"
     = resolve (Probe true (Some [Some "mod1/mod_info.json"])).
Proof.
  split; [|split].
  - apply (testSupportedContent_cases
             ["mod1/mod_info.json"; "mod1/data/foo.txt"] "skyrim").
    discriminate.
  - apply (testSupportedContent_cases
             ["mod1/readme.txt"; "mod1/data/foo.txt"] "starsector");
      reflexivity.
  - apply (testSupportedContent_cases
             ["mod1/mod_info.json"; "mod1/data/foo.txt"] "starsector");
      reflexivity.
Defined.

(** C3 as stated fails: for this game and a file list without a manifest
    entry, [requiredFiles] is not [undefined]. *)
Lemma testSupportedContent_requiredFiles_defined :
  manifestEntries ["mod1/readme.txt"] = []
  /\ testSupportedContent ["mod1/readme.txt"] GAME_ID
     = resolve (Probe false (Some [None]))
  /\ testSupportedContent ["mod1/readme.txt"] GAME_ID
     <> resolve (Probe false None).
Proof.
  split; [reflexivity|]. split; [reflexivity|].
  vm_compute. discriminate.
Qed.

(** ** The installer *)

Section InstallerFacts.

Variable readFileAsync : string -> error + string.
Variable rjson_parse : string -> string + jsval.

Local Abbreviation install := (installContent readFileAsync rjson_parse).
Local Abbreviation onManifest := (manifestRead rjson_parse).

(** The start of [installContent], up to the text of the manifest. *)
Lemma install_unfold (files : list string) (destinationPath gameId : string)
      (contentPath contentFile data : string) :
  findManifest files = Some contentPath ->
  Path.join [PStr destinationPath; PStr contentPath] = inr contentFile ->
  readFileAsync contentFile = inr data ->
  install files destinationPath gameId
  = let (t1, r1) := onManifest contentPath (PStr (Path.dirname contentPath)) data in
    match r1 with
    | inl e => (EvReadFile contentFile :: t1, inl e)
    | inr (attrs, outputPath) =>
        match map_throwing (copyOf (Path.dirname contentPath) outputPath)
                           (List.filter (isCopied (Path.dirname contentPath)) files) with
        | inl e => (EvReadFile contentFile :: t1, inl e)
        | inr copies => (EvReadFile contentFile :: t1, inr (attrs ++ copies)%list)
        end
    end.
Proof.
  intros Hfind Hjoin Hread.
  unfold installContent. rewrite Hfind, Hjoin. simpl. rewrite Hread. simpl.
  destruct (onManifest contentPath (PStr (Path.dirname contentPath)) data)
    as [t1 [e|[attrs outputPath]]]; simpl; [reflexivity|].
  unfold copyFiles, settle; simpl.
  destruct (map_throwing _ _); simpl; rewrite ?app_nil_r; reflexivity.
Qed.

(** The first [then] when the text does not parse. *)
Lemma manifestRead_parse_failure (contentPath : string) (outputPath : pathval)
      (data message : string) :
  rjson_parse (stripComments data) = inl message ->
  onManifest contentPath outputPath data
  = ([EvLog "warn" ("mod_info.json invalid: " ++ message) []], inr ([], outputPath)).
Proof. intros H. unfold manifestRead. rewrite H. reflexivity. Qed.

(** The first [then] yields no instruction at all or three attribute
    instructions, never a copy instruction. *)
Lemma manifestRead_attributes (contentPath : string) (outputPath o : pathval)
      (data : string) (t : list event) (attrs : list instruction) :
  onManifest contentPath outputPath data = (t, inr (attrs, o)) ->
  forallb isAttribute attrs = true.
Proof.
  unfold manifestRead.
  destruct (rjson_parse _) as [m|parsed]; simpl.
  - intros H; injection H as _ <- _. reflexivity.
  - unfold getAttr.
    destruct (getProperty parsed "id") as [?|idv]; simpl.
    + destruct (getProperty parsed "name") as [?|[]]; simpl; try discriminate;
        destruct (getProperty parsed "version") as [?|[]]; simpl; try discriminate;
        destruct (getProperty parsed "author") as [?|?]; simpl;
        intros H; injection H as _ <- _; reflexivity.
    + destruct idv; simpl; try discriminate;
        destruct (getProperty parsed "name") as [?|[]]; simpl; try discriminate;
        destruct (getProperty parsed "version") as [?|[]]; simpl; try discriminate;
        destruct (getProperty parsed "author") as [?|?]; simpl;
        intros H; injection H as _ <- _; reflexivity.
Qed.

(** C10: when no entry of the file list has the manifest name as its last
    segment, the install fails with a type error, before any file is read
    and without any call to the host; it returns no result and does not
    fail with [DataInvalid]. *)
Theorem install_without_manifest (files : list string) (destinationPath gameId : string) :
  (forall file, In file files -> Path.basename file <> MOD_INFO_FILE) ->
  install files destinationPath gameId = ([], inl TypeError).
Proof.
  intros H. apply findManifest_none in H.
  unfold installContent. rewrite H. reflexivity.
Qed.

(** C1, as the code has it: when the manifest is read and does not
    parse, the install logs a warning and succeeds with no attribute
    instruction; the instructions returned are the copy instructions of
    the files under [basePath], each with [basePath] joined with the
    path relative to [basePath] as its destination. *)
Theorem install_parse_failure (files : list string)
        (destinationPath gameId contentPath contentFile data message : string) :
  findManifest files = Some contentPath ->
  Path.join [PStr destinationPath; PStr contentPath] = inr contentFile ->
  readFileAsync contentFile = inr data ->
  rjson_parse (stripComments data) = inl message ->
  let basePath := Path.dirname contentPath in
  exists copies,
    install files destinationPath gameId
    = ([EvReadFile contentFile;
        EvLog "warn" ("mod_info.json invalid: " ++ message) []],
       inr copies)
    /\ Forall2 (fun file i =>
                  exists destination,
                    i = Copy file destination
                    /\ Path.join [PStr basePath;
                                  PStr (JS.substring (JS.length basePath + 1) file)]
                       = inr destination)
               (List.filter (isCopied basePath) files) copies.
Proof.
  intros Hfind Hjoin Hread Hparse basePath.
  rewrite (install_unfold _ _ _ Hfind Hjoin Hread).
  rewrite (manifestRead_parse_failure _ _ _ Hparse).
  destruct (map_throwing_strings basePath basePath
                                 (List.filter (isCopied basePath) files))
    as [copies [H1 H2]].
  fold basePath. rewrite H1. exists copies. split; [reflexivity|exact H2].
Qed.

(** The first [then] on an object that has the four properties, [name]
    and [version] being strings. *)
Lemma manifestRead_complete (contentPath : string) (outputPath : pathval)
      (data : string) (props : list (string * jsval))
      (idv author : jsval) (name version : string) :
  rjson_parse (stripComments data) = inr (JObj props) ->
  assoc "id" props = Some idv -> idv <> JUndefined ->
  assoc "name" props = Some (JStr name) ->
  assoc "version" props = Some (JStr version) ->
  assoc "author" props = Some author ->
  onManifest contentPath outputPath data
  = ([], inr ([Attribute "customFileName" (JStr (JS.trim name));
               Attribute "version" (JStr (JS.trim version));
               Attribute "author" author],
              if (0 <? JS.indexOf contentPath MOD_INFO_FILE)%Z
              then PStr (Path.basename (Path.dirname contentPath))
              else PRejected invalidManifest)).
Proof.
  intros Hparse Hid Hdef Hname Hversion Hauthor.
  unfold manifestRead. rewrite Hparse.
  unfold getAttr, getProperty. rewrite Hid, Hname, Hversion, Hauthor.
  destruct idv; try reflexivity. contradiction.
Qed.

(** C4, as the code has it: for the file list [mod1/mod_info.json],
    [mod1/data/foo.txt] and a manifest that parses to the object with
    id mod1, name My Mod, version 1.0 and author Alice, the install
    returns five instructions: the three attributes, the copy of the
    manifest itself and the copy of [mod1/data/foo.txt], in this order. *)
Theorem install_documented_example (destinationPath gameId contentFile data : string) :
  Path.join [PStr destinationPath; PStr "mod1/mod_info.json"] = inr contentFile ->
  readFileAsync contentFile = inr data ->
  rjson_parse (stripComments data)
  = inr (JObj [("id", JStr "mod1"); ("name", JStr "My Mod");
               ("version", JStr "1.0"); ("author", JStr "Alice")]) ->
  install ["mod1/mod_info.json"; "mod1/data/foo.txt"] destinationPath gameId
  = ([EvReadFile contentFile],
     inr [Attribute "customFileName" (JStr "My Mod");
          Attribute "version" (JStr "1.0");
          Attribute "author" (JStr "Alice");
          Copy "mod1/mod_info.json" "mod1/mod_info.json";
          Copy "mod1/data/foo.txt" "mod1/data/foo.txt"]).
Proof.
  intros Hjoin Hread Hparse.
  rewrite (install_unfold ["mod1/mod_info.json"; "mod1/data/foo.txt"] _ gameId
                          (contentPath := "mod1/mod_info.json")
                          eq_refl Hjoin Hread).
  rewrite (manifestRead_complete _ _ _ (idv := JStr "mod1") Hparse
                                 eq_refl ltac:(discriminate) eq_refl eq_refl eq_refl).
  reflexivity.
Qed.

(** The defect behind C2: when the manifest parses to an object that has
    an [id] but no [name], reading the missing property gives
    [undefined] without any exception, so nothing is logged and no empty
    string is supplied, and the call of [trim] on it fails the install
    with a type error. *)
Theorem install_manifest_without_name (files : list string)
        (destinationPath gameId contentPath contentFile data : string)
        (props : list (string * jsval)) (idv : jsval) :
  findManifest files = Some contentPath ->
  Path.join [PStr destinationPath; PStr contentPath] = inr contentFile ->
  readFileAsync contentFile = inr data ->
  rjson_parse (stripComments data) = inr (JObj props) ->
  assoc "id" props = Some idv -> idv <> JUndefined ->
  assoc "name" props = None ->
  install files destinationPath gameId = ([EvReadFile contentFile], inl TypeError).
Proof.
  intros Hfind Hjoin Hread Hparse Hid Hdef Hname.
  rewrite (install_unfold _ _ _ Hfind Hjoin Hread).
  unfold manifestRead. rewrite Hparse.
  unfold getAttr, getProperty. rewrite Hid, Hname.
  destruct idv; try reflexivity. contradiction.
Qed.

(** C6, as the code has it: when the manifest name is at position 0 of
    the path of the manifest entry and the manifest parses to an object
    with an [id] and with strings as [name] and [version], with or without
    an [author], the rejected promise is assigned to [outputPath], where it
    replaces the prior value, and [DataInvalid] is not raised. The install
    then completes with the three attribute instructions when no entry of
    the file list is to be copied, and fails with a type error, raised by
    [path.join], when one is. *)
Theorem install_manifest_at_position_0 (files : list string)
        (destinationPath gameId contentPath contentFile data : string)
        (props : list (string * jsval))
        (idv : jsval) (name version : string) :
  findManifest files = Some contentPath ->
  Path.join [PStr destinationPath; PStr contentPath] = inr contentFile ->
  readFileAsync contentFile = inr data ->
  rjson_parse (stripComments data) = inr (JObj props) ->
  assoc "id" props = Some idv -> idv <> JUndefined ->
  assoc "name" props = Some (JStr name) ->
  assoc "version" props = Some (JStr version) ->
  JS.indexOf contentPath MOD_INFO_FILE = 0%Z ->
  let basePath := Path.dirname contentPath in
  let attrs := [Attribute "customFileName" (JStr (JS.trim name));
                Attribute "version" (JStr (JS.trim version));
                Attribute "author" (readKey props "author")] in
  onManifest contentPath (PStr basePath) data
  = ([], inr (attrs, PRejected invalidManifest))
  /\ install files destinationPath gameId
     = ([EvReadFile contentFile],
        match List.filter (isCopied basePath) files with
        | [] => inr attrs
        | _ :: _ => inl TypeError
        end).
Proof.
  intros Hfind Hjoin Hread Hparse Hid Hdef Hname Hversion Hpos basePath attrs.
  assert (Hm : onManifest contentPath (PStr basePath) data
               = ([], inr (attrs, PRejected invalidManifest))).
  { unfold manifestRead. rewrite Hparse.
    unfold getAttr, getProperty. rewrite Hid, Hname, Hversion.
    subst attrs. unfold readKey.
    destruct (assoc "author" props) as [author|];
      destruct idv; try contradiction; cbn; rewrite Hpos; reflexivity. }
  split; [exact Hm|].
  rewrite (install_unfold _ _ _ Hfind Hjoin Hread).
  fold basePath. rewrite Hm, map_throwing_rejected.
  destruct (List.filter (isCopied basePath) files); reflexivity.
Qed.

(** C7: in a successful install the instructions are the attribute
    instructions of the first stage followed by one copy instruction for
    each entry of the file list, in order, that starts with [basePath]
    and the separator and does not end with the separator; the source is
    the entry and the destination is [outputPath] joined with the entry
    cut after [basePath] and the separator. No entry that ends with the
    separator is the source of a copy instruction. *)
Theorem install_copy_instructions (files : list string)
        (destinationPath gameId : string)
        (trace : list event) (instructions : list instruction) :
  install files destinationPath gameId = (trace, inr instructions) ->
  exists contentPath attrs outputPath copies,
    findManifest files = Some contentPath
    /\ (exists data t, onManifest contentPath (PStr (Path.dirname contentPath)) data
                       = (t, inr (attrs, outputPath)))
    /\ instructions = (attrs ++ copies)%list
    /\ forallb isAttribute attrs = true
    /\ Forall2 (fun file i =>
                  exists destination,
                    i = Copy file destination
                    /\ Path.join [outputPath;
                                  PStr (JS.substring
                                          (JS.length (Path.dirname contentPath) + 1)
                                          file)]
                       = inr destination)
               (List.filter
                  (fun file =>
                     JS.startsWith file (Path.dirname contentPath ++ Path.sep)
                     && negb (JS.endsWith file Path.sep))
                  files)
               copies
    /\ (forall source destination,
           In (Copy source destination) instructions ->
           In source files /\ JS.endsWith source Path.sep = false).
Proof.
  intros H.
  destruct (findManifest files) as [contentPath|] eqn:Hfind;
    [|unfold installContent in H; rewrite Hfind in H; discriminate].
  destruct (join_strings destinationPath contentPath) as [contentFile Hjoin].
  destruct (readFileAsync contentFile) as [e|data] eqn:Hread;
    [unfold installContent in H; rewrite Hfind, Hjoin in H; simpl in H;
     rewrite Hread in H; discriminate|].
  rewrite (install_unfold _ _ _ Hfind Hjoin Hread) in H.
  destruct (onManifest contentPath (PStr (Path.dirname contentPath)) data)
    as [t1 [e|[attrs outputPath]]] eqn:Hm; [discriminate|].
  destruct (map_throwing _ _) as [e|copies] eqn:Hcopies; [discriminate|].
  injection H as _ <-.
  pose proof (manifestRead_attributes _ _ _ Hm) as Hattrs.
  apply map_throwing_inr in Hcopies.
  assert (Hshape :
            Forall2 (fun file i =>
                       exists destination,
                         i = Copy file destination
                         /\ Path.join [outputPath;
                                       PStr (JS.substring
                                               (JS.length (Path.dirname contentPath) + 1)
                                               file)]
                            = inr destination)
                    (List.filter (isCopied (Path.dirname contentPath)) files) copies).
  { eapply Forall2_impl; [|exact Hcopies].
    intros file i Hi. unfold copyOf in Hi.
    destruct (Path.join
                [outputPath;
                 PStr (JS.substring (JS.length (Path.dirname contentPath) + 1) file)])
      as [e|d] eqn:Hd; [discriminate|].
    exists d. split; [congruence|reflexivity]. }
  exists contentPath, attrs, outputPath, copies.
  split; [reflexivity|]. split; [exists data, t1; exact Hm|].
  split; [reflexivity|]. split; [exact Hattrs|]. split; [exact Hshape|].
  intros source destination Hin. apply in_app_or in Hin. destruct Hin as [Hin|Hin].
  - rewrite forallb_forall in Hattrs. apply Hattrs in Hin. discriminate.
  - clear Hcopies.
    assert (Hsrc : In source (List.filter (isCopied (Path.dirname contentPath)) files)).
    { revert Hin. induction Hshape as [|file i fs cs [d [-> _]] _ IH]; simpl.
      - intros [].
      - intros [Heq|Hin]; [injection Heq as -> _; left; reflexivity|right; auto]. }
    apply filter_In in Hsrc. destruct Hsrc as [Hfiles Hkeep].
    unfold isCopied in Hkeep. apply andb_true_iff in Hkeep.
    destruct Hkeep as [_ Hkeep]. apply negb_true_iff in Hkeep.
    split; [exact Hfiles|exact Hkeep].
Qed.

End InstallerFacts.

(** ** The installer on sample packages *)

Example fullText_stripped : stripComments fullText = fullStripped.
Proof. vm_compute. reflexivity. Qed.

Lemma install_without_manifest_witness :
  installContent (sampleRead []) (sampleParse [])
                 ["mod1/readme.txt"; "mod1/data/foo.txt"] "/staging" GAME_ID
  = ([], inl TypeError).
Proof.
  apply (install_without_manifest (sampleRead []) (sampleParse [])
           ["mod1/readme.txt"; "mod1/data/foo.txt"] "/staging" GAME_ID).
  intros file [<-|[<-|[]]]; vm_compute; discriminate.
Defined.

Lemma install_parse_failure_witness :
  exists copies,
    installContent (sampleRead (stagedDisk "{id:'mod1'"))
                   (sampleParse [("{id:'mod1'", inl "unexpected end of input")])
                   packageFiles "/staging" GAME_ID
    = ([EvReadFile "/staging/mod1/mod_info.json";
        EvLog "warn" "mod_info.json invalid: unexpected end of input" []],
       inr copies)
    /\ Forall2 (fun file i =>
                  exists destination,
                    i = Copy file destination
                    /\ Path.join [PStr "mod1"; PStr (JS.substring 5 file)]
                       = inr destination)
               packageFiles copies.
Proof.
  apply (install_parse_failure
           (sampleRead (stagedDisk "{id:'mod1'"))
           (sampleParse [("{id:'mod1'", inl "unexpected end of input")])
           packageFiles "/staging" GAME_ID
           (contentPath := "mod1/mod_info.json")
           (data := "{id:'mod1'"));
    vm_compute; reflexivity.
Defined.

(** C1 as stated fails: the manifest of this package is read and does not
    parse, and the instruction list returned is not empty: it holds the copy
    of the manifest and the copy of the other file. *)
Lemma install_parse_failure_not_empty :
  sampleRead (stagedDisk "{id:'mod1'") "/staging/mod1/mod_info.json" = inr "{id:'mod1'"
  /\ sampleParse [("{id:'mod1'", inl "unexpected end of input")]
                 (stripComments "{id:'mod1'")
     = inl "unexpected end of input"
  /\ installContent (sampleRead (stagedDisk "{id:'mod1'"))
                    (sampleParse [("{id:'mod1'", inl "unexpected end of input")])
                    packageFiles "/staging" GAME_ID
     = ([EvReadFile "/staging/mod1/mod_info.json";
         EvLog "warn" "mod_info.json invalid: unexpected end of input" []],
        inr [Copy "mod1/mod_info.json" "mod1/mod_info.json";
             Copy "mod1/data/foo.txt" "mod1/data/foo.txt"])
  /\ snd (installContent (sampleRead (stagedDisk "{id:'mod1'"))
                         (sampleParse [("{id:'mod1'", inl "unexpected end of input")])
                         packageFiles "/staging" GAME_ID)
     <> inr [].
Proof.
  repeat split; try (vm_compute; reflexivity).
  vm_compute. discriminate.
Qed.

Lemma install_documented_example_witness :
  installContent (sampleRead (stagedDisk fullText))
                 (sampleParse [(fullStripped, inr fullManifest)])
                 ["mod1/mod_info.json"; "mod1/data/foo.txt"] "/staging" GAME_ID
  = ([EvReadFile "/staging/mod1/mod_info.json"],
     inr [Attribute "customFileName" (JStr "My Mod");
          Attribute "version" (JStr "1.0");
          Attribute "author" (JStr "Alice");
          Copy "mod1/mod_info.json" "mod1/mod_info.json";
          Copy "mod1/data/foo.txt" "mod1/data/foo.txt"]).
Proof.
  apply (install_documented_example
           (sampleRead (stagedDisk fullText))
           (sampleParse [(fullStripped, inr fullManifest)])
           "/staging" GAME_ID (data := fullText));
    vm_compute; reflexivity.
Defined.

(** C4 as stated fails: on the documented package the install does not
    return the four instructions listed, the copy of the manifest comes
    with them. *)
Lemma install_documented_example_not_four :
  sampleRead (stagedDisk fullText) "/staging/mod1/mod_info.json" = inr fullText
  /\ sampleParse [(fullStripped, inr fullManifest)] (stripComments fullText)
     = inr fullManifest
  /\ snd (installContent (sampleRead (stagedDisk fullText))
                         (sampleParse [(fullStripped, inr fullManifest)])
                         ["mod1/mod_info.json"; "mod1/data/foo.txt"]
                         "/staging" GAME_ID)
     <> inr [Attribute "customFileName" (JStr "My Mod");
             Attribute "version" (JStr "1.0");
             Attribute "author" (JStr "Alice");
             Copy "mod1/data/foo.txt" "mod1/data/foo.txt"].
Proof.
  repeat split; try (vm_compute; reflexivity).
  vm_compute. discriminate.
Qed.

Lemma install_manifest_without_name_witness :
  installContent (sampleRead (stagedDisk "{id:'mod1'}"))
                 (sampleParse [("{id:'mod1'}", inr (JObj [("id", JStr "mod1")]))])
                 ["mod1/mod_info.json"] "/staging" GAME_ID
  = ([EvReadFile "/staging/mod1/mod_info.json"], inl TypeError).
Proof.
  apply (install_manifest_without_name
           (sampleRead (stagedDisk "{id:'mod1'}"))
           (sampleParse [("{id:'mod1'}", inr (JObj [("id", JStr "mod1")]))])
           ["mod1/mod_info.json"] "/staging" GAME_ID
           (contentPath := "mod1/mod_info.json") (data := "{id:'mod1'}")
           (props := [("id", JStr "mod1")]) (idv := JStr "mod1"));
    try (vm_compute; reflexivity).
  discriminate.
Defined.

Lemma install_manifest_at_position_0_witness :
  manifestRead (sampleParse [("{id:'mod1', name:'My Mod', version:'1.0'}",
                              inr (JObj [("id", JStr "mod1"); ("name", JStr "My Mod");
                                         ("version", JStr "1.0")]))])
               "mod_info.json" (PStr ".") "{id:'mod1', name:'My Mod', version:'1.0'}"
  = ([], inr ([Attribute "customFileName" (JStr "My Mod");
               Attribute "version" (JStr "1.0");
               Attribute "author" JUndefined],
              PRejected invalidManifest))
  /\ installContent (sampleRead [("/staging/mod_info.json",
                                  "{id:'mod1', name:'My Mod', version:'1.0'}")])
                    (sampleParse [("{id:'mod1', name:'My Mod', version:'1.0'}",
                                   inr (JObj [("id", JStr "mod1");
                                              ("name", JStr "My Mod");
                                              ("version", JStr "1.0")]))])
                    ["mod_info.json"; "data/foo.txt"] "/staging" GAME_ID
     = ([EvReadFile "/staging/mod_info.json"],
        inr [Attribute "customFileName" (JStr "My Mod");
             Attribute "version" (JStr "1.0");
             Attribute "author" JUndefined]).
Proof.
  apply (install_manifest_at_position_0
           (sampleRead [("/staging/mod_info.json",
                         "{id:'mod1', name:'My Mod', version:'1.0'}")])
           (sampleParse [("{id:'mod1', name:'My Mod', version:'1.0'}",
                          inr (JObj [("id", JStr "mod1"); ("name", JStr "My Mod");
                                     ("version", JStr "1.0")]))])
           ["mod_info.json"; "data/foo.txt"] "/staging" GAME_ID
           (contentPath := "mod_info.json")
           (data := "{id:'mod1', name:'My Mod', version:'1.0'}")
           (props := [("id", JStr "mod1"); ("name", JStr "My Mod");
                      ("version", JStr "1.0")])
           (idv := JStr "mod1") (name := "My Mod") (version := "1.0"));
    try (vm_compute; reflexivity).
  discriminate.
Defined.

(** C6 as stated fails: for the manifest entry [mod_info.json] at the root
    of the package, [basePath] is not empty but a dot, and after the first
    stage [outputPath] is not its prior value, it is the rejected promise;
    with an entry under [./] in the file list the install does not complete,
    it fails with a type error. *)
Lemma install_root_manifest_outputPath_replaced :
  JS.indexOf "mod_info.json" MOD_INFO_FILE = 0%Z
  /\ Path.dirname "mod_info.json" = "."
  /\ snd (manifestRead (sampleParse [(fullStripped, inr fullManifest)])
                       "mod_info.json" (PStr (Path.dirname "mod_info.json")) fullText)
     = inr ([Attribute "customFileName" (JStr "My Mod");
             Attribute "version" (JStr "1.0");
             Attribute "author" (JStr "Alice")],
            PRejected invalidManifest)
  /\ PRejected invalidManifest <> PStr (Path.dirname "mod_info.json")
  /\ installContent (sampleRead rootDisk)
                    (sampleParse [(fullStripped, inr fullManifest)])
                    ["mod_info.json"; "./data/foo.txt"] "/staging" GAME_ID
     = ([EvReadFile "/staging/mod_info.json"], inl TypeError).
Proof.
  repeat split; try (vm_compute; reflexivity).
  discriminate.
Qed.

Lemma install_copy_instructions_witness :
  exists contentPath attrs outputPath copies,
    findManifest ["a/b/mod_info.json"; "a/b/"; "a/b/c/"; "a/b/c/d.txt"; "a/x.txt"]
    = Some contentPath
    /\ (exists data t,
           manifestRead (sampleParse [(fullStripped, inr fullManifest)])
                        contentPath (PStr (Path.dirname contentPath)) data
           = (t, inr (attrs, outputPath)))
    /\ [Attribute "customFileName" (JStr "My Mod");
        Attribute "version" (JStr "1.0");
        Attribute "author" (JStr "Alice");
        Copy "a/b/mod_info.json" "b/mod_info.json";
        Copy "a/b/c/d.txt" "b/c/d.txt"] = (attrs ++ copies)%list
    /\ forallb isAttribute attrs = true
    /\ Forall2 (fun file i =>
                  exists destination,
                    i = Copy file destination
                    /\ Path.join [outputPath;
                                  PStr (JS.substring
                                          (JS.length (Path.dirname contentPath) + 1)
                                          file)]
                       = inr destination)
               (List.filter
                  (fun file =>
                     JS.startsWith file (Path.dirname contentPath ++ Path.sep)
                     && negb (JS.endsWith file Path.sep))
                  ["a/b/mod_info.json"; "a/b/"; "a/b/c/"; "a/b/c/d.txt"; "a/x.txt"])
               copies
    /\ (forall source destination,
           In (Copy source destination)
              [Attribute "customFileName" (JStr "My Mod");
               Attribute "version" (JStr "1.0");
               Attribute "author" (JStr "Alice");
               Copy "a/b/mod_info.json" "b/mod_info.json";
               Copy "a/b/c/d.txt" "b/c/d.txt"] ->
           In source ["a/b/mod_info.json"; "a/b/"; "a/b/c/"; "a/b/c/d.txt"; "a/x.txt"]
           /\ JS.endsWith source Path.sep = false).
Proof.
  apply (install_copy_instructions
           (sampleRead [("/staging/a/b/mod_info.json", fullText)])
           (sampleParse [(fullStripped, inr fullManifest)])
           ["a/b/mod_info.json"; "a/b/"; "a/b/c/"; "a/b/c/d.txt"; "a/x.txt"]
           "/staging" GAME_ID
           (trace := [EvReadFile "/staging/a/b/mod_info.json"])).
  vm_compute. reflexivity.
Defined.

(** ** More on the installer *)

Section InstallerMore.

Variable readFileAsync : string -> error + string.
Variable rjson_parse : string -> string + jsval.

Local Abbreviation install := (installContent readFileAsync rjson_parse).
Local Abbreviation onManifest := (manifestRead rjson_parse).

Lemma getProperty_object (props : list (string * jsval)) (key : string) :
  getProperty (JObj props) key = inr (readKey props key).
Proof. unfold getProperty, readKey. destruct (assoc key props); reflexivity. Qed.

(** The first [then] on an object, whatever its properties. *)
Lemma manifestRead_object (contentPath : string) (outputPath : pathval)
      (data : string) (props : list (string * jsval)) :
  rjson_parse (stripComments data) = inr (JObj props) ->
  onManifest contentPath outputPath data
  = match readKey props "id", readKey props "name", readKey props "version" with
    | JUndefined, _, _ => ([], inl invalidManifest)
    | _, JStr name, JStr version =>
        ([], inr ([Attribute "customFileName" (JStr (JS.trim name));
                   Attribute "version" (JStr (JS.trim version));
                   Attribute "author" (readKey props "author")],
                  if (0 <? JS.indexOf contentPath MOD_INFO_FILE)%Z
                  then PStr (Path.basename (Path.dirname contentPath))
                  else PRejected invalidManifest))
    | _, _, _ => ([], inl TypeError)
    end.
Proof.
  intros Hparse. unfold manifestRead. rewrite Hparse.
  unfold getAttr. rewrite !getProperty_object.
  destruct (readKey props "id"); try reflexivity;
    destruct (readKey props "name"); try reflexivity;
    destruct (readKey props "version"); reflexivity.
Qed.

(** The first [then] when the text parses to [null]. *)
Lemma manifestRead_null (contentPath : string) (outputPath : pathval) (data : string) :
  rjson_parse (stripComments data) = inr JNull ->
  onManifest contentPath outputPath data
  = ([missingAttribute "id"; missingAttribute "name";
      missingAttribute "version"; missingAttribute "author"],
     inr ([Attribute "customFileName" (JStr "");
           Attribute "version" (JStr "");
           Attribute "author" (JStr "")],
          if (0 <? JS.indexOf contentPath MOD_INFO_FILE)%Z
          then PStr (Path.basename (Path.dirname contentPath))
          else PRejected invalidManifest)).
Proof. intros Hparse. unfold manifestRead. rewrite Hparse. reflexivity. Qed.

(** The calls and the result of the first [then], case by case. *)
Lemma manifestRead_cases (contentPath : string) (outputPath : pathval) (data : string) :
  let r := onManifest contentPath outputPath data in
  (exists message,
      r = ([EvLog "warn" ("mod_info.json invalid: " ++ message) []],
           inr ([], outputPath)))
  \/ (fst r = [] /\ exists e, snd r = inl e)
  \/ (forallb isLog (fst r) = true
      /\ (List.length (fst r) <= 4)%nat
      /\ exists name version author o,
          snd r = inr ([Attribute "customFileName" (JStr name);
                        Attribute "version" (JStr version);
                        Attribute "author" author], o)).
Proof.
  cbv zeta. destruct (rjson_parse (stripComments data)) as [message|parsed] eqn:Hparse.
  - left. exists message. unfold manifestRead. rewrite Hparse. reflexivity.
  - right. destruct parsed as [ | |b|q|s|items|props].
    + right. unfold manifestRead. rewrite Hparse. cbn.
      repeat split; [lia|]. do 4 eexists. reflexivity.
    + right. rewrite (manifestRead_null _ _ _ Hparse). cbn.
      repeat split; [lia|]. do 4 eexists. reflexivity.
    + left. unfold manifestRead. rewrite Hparse. cbn. split; [reflexivity|eauto].
    + left. unfold manifestRead. rewrite Hparse. cbn. split; [reflexivity|eauto].
    + left. unfold manifestRead. rewrite Hparse. cbn. split; [reflexivity|eauto].
    + left. unfold manifestRead. rewrite Hparse. cbn. split; [reflexivity|eauto].
    + rewrite (manifestRead_object _ _ _ Hparse).
      destruct (readKey props "id");
        try (left; cbn; split; [reflexivity|eauto]; fail);
        destruct (readKey props "name");
        try (left; cbn; split; [reflexivity|eauto]; fail);
        destruct (readKey props "version");
        try (left; cbn; split; [reflexivity|eauto]; fail);
        right; cbn; repeat split; try lia; do 4 eexists; reflexivity.
Qed.


(** X3: when the file system fails to read the manifest, the install fails
    with the error of the file system, after that one call; nothing is
    logged and no instruction is returned. *)
Theorem install_read_failure (files : list string)
        (destinationPath gameId contentPath contentFile : string) (e : error) :
  findManifest files = Some contentPath ->
  Path.join [PStr destinationPath; PStr contentPath] = inr contentFile ->
  readFileAsync contentFile = inl e ->
  install files destinationPath gameId = ([EvReadFile contentFile], inl e).
Proof.
  intros Hfind Hjoin Hread. unfold installContent.
  rewrite Hfind, Hjoin. simpl. rewrite Hread. reflexivity.
Qed.

(** X4: an install calls the host in one pattern only. Without a manifest
    entry it calls nothing. Otherwise it first reads the manifest, at the
    staging path joined with the manifest entry, and after that it only
    logs, four entries at most: it never reads a second file and never
    looks into the registry. *)
Theorem install_calls (files : list string) (destinationPath gameId : string) :
  match fst (install files destinationPath gameId) with
  | [] => findManifest files = None
  | ev :: logs =>
      (exists contentPath contentFile,
          findManifest files = Some contentPath
          /\ Path.join [PStr destinationPath; PStr contentPath] = inr contentFile
          /\ ev = EvReadFile contentFile)
      /\ forallb isLog logs = true
      /\ (List.length logs <= 4)%nat
  end.
Proof.
  destruct (findManifest files) as [contentPath|] eqn:Hfind;
    [|unfold installContent; rewrite Hfind; reflexivity].
  destruct (join_strings destinationPath contentPath) as [contentFile Hjoin].
  destruct (readFileAsync contentFile) as [e|data] eqn:Hread.
  - unfold installContent. rewrite Hfind, Hjoin. simpl. rewrite Hread. simpl.
    split; [exists contentPath, contentFile; auto|]. split; [reflexivity|lia].
  - rewrite (install_unfold _ _ _ _ _ Hfind Hjoin Hread).
    pose proof (manifestRead_cases contentPath (PStr (Path.dirname contentPath)) data)
      as Hc. cbv zeta in Hc.
    destruct (onManifest contentPath (PStr (Path.dirname contentPath)) data)
      as [t1 [e|[attrs o]]]; cbn [fst snd] in Hc |- *.
    + split; [exists contentPath, contentFile; auto|].
      destruct Hc as [[m Hm]|[[-> _]|(H1 & H2 & _)]];
        [discriminate| |]; split; try assumption; try reflexivity; simpl; lia.
    + assert (Ht : forallb isLog t1 = true /\ (List.length t1 <= 4)%nat).
      { destruct Hc as [[m Hm]|[[-> _]|(H1 & H2 & _)]].
        - injection Hm as -> _ _. split; [reflexivity|simpl; lia].
        - split; [reflexivity|simpl; lia].
        - split; assumption. }
      destruct (map_throwing _ _); cbn [fst];
        (split; [exists contentPath, contentFile; auto|exact Ht]).
Qed.


(** X6: when the manifest parses to an object with an [id] whose [name] or
    [version] is not a string (absent, a number, an object), the install
    fails with a type error after the file read, logs nothing and returns
    no instruction. *)
Theorem install_name_or_version_not_a_string (files : list string)
        (destinationPath gameId contentPath contentFile data : string)
        (props : list (string * jsval)) :
  findManifest files = Some contentPath ->
  Path.join [PStr destinationPath; PStr contentPath] = inr contentFile ->
  readFileAsync contentFile = inr data ->
  rjson_parse (stripComments data) = inr (JObj props) ->
  readKey props "id" <> JUndefined ->
  isJStr (readKey props "name") && isJStr (readKey props "version") = false ->
  install files destinationPath gameId = ([EvReadFile contentFile], inl TypeError).
Proof.
  intros Hfind Hjoin Hread Hparse Hid Hstr.
  rewrite (install_unfold _ _ _ _ _ Hfind Hjoin Hread).
  rewrite (manifestRead_object _ _ _ Hparse).
  destruct (readKey props "id"); try contradiction;
    destruct (readKey props "name"); try reflexivity;
    destruct (readKey props "version"); try reflexivity; discriminate.
Qed.


(** X8: the value of [id] is only tested for being defined and is used
    nowhere: two manifests that differ in nothing but their [id], the
    empty string included, give the same calls, the same attribute
    instructions and the same [outputPath]. *)
Theorem manifestRead_ignores_id (contentPath : string) (outputPath : pathval)
        (data data' : string) (id id' : jsval) (others : list (string * jsval)) :
  rjson_parse (stripComments data) = inr (JObj (("id", id) :: others)) ->
  rjson_parse (stripComments data') = inr (JObj (("id", id') :: others)) ->
  id <> JUndefined -> id' <> JUndefined ->
  onManifest contentPath outputPath data = onManifest contentPath outputPath data'.
Proof.
  intros Hparse Hparse' Hid Hid'.
  rewrite (manifestRead_object _ _ _ Hparse), (manifestRead_object _ _ _ Hparse').
  unfold readKey. cbn [assoc String.eqb Ascii.eqb Bool.eqb].
  destruct id; try contradiction; destruct id'; try contradiction; reflexivity.
Qed.

(** X9: a successful install returns either no attribute instruction,
    and then the parse failed and the warning was logged, or exactly three,
    with the keys customFileName, version and author in this order and
    strings as the first two values. The other instructions are copy
    instructions, no more than there are entries in the file list. *)
Theorem install_attributes (files : list string) (destinationPath gameId : string)
        (trace : list event) (instructions : list instruction) :
  install files destinationPath gameId = (trace, inr instructions) ->
  exists attrs copies,
    instructions = (attrs ++ copies)%list
    /\ forallb (fun i => negb (isAttribute i)) copies = true
    /\ (List.length copies <= List.length files)%nat
    /\ ((attrs = []
         /\ exists contentFile message,
             trace = [EvReadFile contentFile;
                      EvLog "warn" ("mod_info.json invalid: " ++ message) []])
        \/ exists name version author,
            attrs = [Attribute "customFileName" (JStr name);
                     Attribute "version" (JStr version);
                     Attribute "author" author]).
Proof.
  intros H.
  destruct (findManifest files) as [contentPath|] eqn:Hfind;
    [|unfold installContent in H; rewrite Hfind in H; discriminate].
  destruct (join_strings destinationPath contentPath) as [contentFile Hjoin].
  destruct (readFileAsync contentFile) as [e|data] eqn:Hread;
    [unfold installContent in H; rewrite Hfind, Hjoin in H; simpl in H;
     rewrite Hread in H; discriminate|].
  rewrite (install_unfold _ _ _ _ _ Hfind Hjoin Hread) in H.
  pose proof (manifestRead_cases contentPath (PStr (Path.dirname contentPath)) data)
    as Hc. cbv zeta in Hc.
  destruct (onManifest contentPath (PStr (Path.dirname contentPath)) data)
    as [t1 [e|[attrs o]]]; [discriminate|]. cbn [fst snd] in Hc.
  destruct (map_throwing _ _) as [e|copies] eqn:Hcopies; [discriminate|].
  injection H as <- <-.
  apply map_throwing_inr in Hcopies.
  exists attrs, copies. split; [reflexivity|].
  assert (Hlen : List.length copies
                 = List.length (List.filter (isCopied (Path.dirname contentPath)) files)).
  { symmetry. exact (Forall2_length Hcopies). }
  split; [|split].
  - clear Hlen. induction Hcopies as [|file i fs cs Hi _ IH]; [reflexivity|].
    cbn [forallb]. rewrite IH, andb_true_r. unfold copyOf in Hi.
    destruct (Path.join _); [discriminate|]. injection Hi as <-. reflexivity.
  - rewrite Hlen. apply filter_length_le.
  - destruct Hc as [[m Hm]|[[_ [e He]]|(_ & _ & n & v & a & o' & Ho)]].
    + injection Hm as -> -> _. left. split; [reflexivity|].
      exists contentFile, m. reflexivity.
    + discriminate.
    + injection Ho as -> _. right. exists n, v, a. reflexivity.
Qed.

(** The first [then] fails in two ways only, and only on a text that
    parses. *)
Lemma manifestRead_failure (contentPath : string) (outputPath : pathval)
      (data : string) (t : list event) (e : error) :
  onManifest contentPath outputPath data = (t, inl e) ->
  t = []
  /\ exists parsed,
      rjson_parse (stripComments data) = inr parsed
      /\ (e = TypeError
          \/ (e = invalidManifest /\ getProperty parsed "id" = inr JUndefined)).
Proof.
  destruct (rjson_parse (stripComments data)) as [message|parsed] eqn:Hparse.
  - unfold manifestRead. rewrite Hparse. discriminate.
  - destruct parsed as [ | |b|q|s|items|props];
      try (unfold manifestRead; rewrite Hparse; cbn; intros H; injection H as <- <-;
           split; [reflexivity|]; eexists; split; [reflexivity|];
           right; split; reflexivity);
      try (unfold manifestRead; rewrite Hparse; cbn; discriminate).
    rewrite (@manifestRead_object contentPath outputPath data props Hparse).
    intros H.
    assert (Hcases : t = [] /\ (e = TypeError \/ (e = invalidManifest /\ readKey props "id" = JUndefined))).
    { destruct (readKey props "id");
        [injection H as <- <-; auto| | | | | | ];
        (destruct (readKey props "name"); try (injection H as <- <-; auto);
         destruct (readKey props "version"); try (injection H as <- <-; auto);
         discriminate). }
    destruct Hcases as [-> Hcases]. split; [reflexivity|].
    exists (JObj props). split; [reflexivity|].
    destruct Hcases as [->|[-> Hid]]; [left; reflexivity|right].
    split; [reflexivity|]. rewrite getProperty_object, Hid. reflexivity.
Qed.

(** X15: an install fails in four ways only: with a type error and no
    call, when the file list has no manifest entry; with the error of the
    file system, when the read fails; with [DataInvalid], after the read and
    with nothing logged, when the manifest parses to a value whose [id]
    reads as [undefined]; and with a type error in the other cases. It
    never fails on a text that does not parse. *)
Theorem install_failures (files : list string) (destinationPath gameId : string)
        (trace : list event) (e : error) :
  install files destinationPath gameId = (trace, inl e) ->
  (findManifest files = None /\ trace = [] /\ e = TypeError)
  \/ exists contentPath contentFile,
      findManifest files = Some contentPath
      /\ Path.join [PStr destinationPath; PStr contentPath] = inr contentFile
      /\ (readFileAsync contentFile = inl e /\ trace = [EvReadFile contentFile]
          \/ exists data parsed,
              readFileAsync contentFile = inr data
              /\ rjson_parse (stripComments data) = inr parsed
              /\ (e = TypeError
                  \/ (e = invalidManifest
                      /\ trace = [EvReadFile contentFile]
                      /\ getProperty parsed "id" = inr JUndefined))).
Proof.
  intros H.
  destruct (findManifest files) as [contentPath|] eqn:Hfind.
  - right. destruct (join_strings destinationPath contentPath) as [contentFile Hjoin].
    exists contentPath, contentFile. split; [reflexivity|]. split; [exact Hjoin|].
    destruct (readFileAsync contentFile) as [e'|data] eqn:Hread.
    + left. unfold installContent in H. rewrite Hfind, Hjoin in H. simpl in H.
      rewrite Hread in H. simpl in H. injection H as <- <-. split; reflexivity.
    + right. exists data.
      rewrite (install_unfold _ _ _ _ _ Hfind Hjoin Hread) in H.
      destruct (rjson_parse (stripComments data)) as [message|parsed] eqn:Hparse.
      * exfalso.
        rewrite (@manifestRead_parse_failure rjson_parse contentPath
                   (PStr (Path.dirname contentPath)) data message Hparse) in H.
        destruct (map_throwing_strings (Path.dirname contentPath) (Path.dirname contentPath)
                    (List.filter (isCopied (Path.dirname contentPath)) files))
          as (copies & Hc & _).
        rewrite Hc in H. discriminate.
      * exists parsed. split; [reflexivity|]. split; [reflexivity|].
        destruct (onManifest contentPath (PStr (Path.dirname contentPath)) data)
          as [t1 [e1|[attrs o]]] eqn:Hm.
        -- injection H as <- <-. apply manifestRead_failure in Hm.
           destruct Hm as [-> (parsed' & Hp & [->|[-> Hid]])]; [left; reflexivity|].
           right. rewrite Hparse in Hp. injection Hp as <-. auto.
        -- left. destruct (map_throwing _ _) as [e1|copies] eqn:Hc; [|discriminate].
           injection H as _ <-. exact (map_throwing_copy_error _ _ _ Hc).
  - left. unfold installContent in H. rewrite Hfind in H.
    injection H as <- <-. auto.
Qed.

(** X18: a manifest that parses to a value that is neither an object nor
    [null] (a boolean, a number, a string or an array) has no [id]: the
    install is rejected with [DataInvalid], after the file read and with
    nothing logged, whatever the files. *)
Theorem install_scalar_manifest (files : list string) (destinationPath gameId : string)
        (contentPath contentFile data : string) (parsed : jsval) :
  findManifest files = Some contentPath ->
  Path.join [PStr destinationPath; PStr contentPath] = inr contentFile ->
  readFileAsync contentFile = inr data ->
  rjson_parse (stripComments data) = inr parsed ->
  isScalarOrArray parsed = true ->
  install files destinationPath gameId
  = ([EvReadFile contentFile], inl invalidManifest).
Proof.
  intros Hfind Hjoin Hread Hparse Hkind.
  rewrite (install_unfold _ _ _ _ _ Hfind Hjoin Hread).
  unfold manifestRead. rewrite Hparse.
  destruct parsed; try discriminate; reflexivity.
Qed.

(** X16: an entry that is copied is [basePath], the separator and a
    relative path that is not empty and does not end with the separator;
    the destination of its copy is built from that relative path. So the
    folder [basePath] itself and the entries outside it are never
    copied. *)
Theorem isCopied_relative (basePath file : string) :
  isCopied basePath file = true ->
  exists rel,
    file = basePath ++ Path.sep ++ rel
    /\ rel <> ""
    /\ JS.endsWith rel Path.sep = false
    /\ forall outputPath,
        copyOf basePath outputPath file
        = match Path.join [outputPath; PStr rel] with
          | inl e => inl e
          | inr destination => inr (Copy file destination)
          end.
Proof.
  unfold isCopied, JS.startsWith. intros H.
  apply andb_true_iff in H. destruct H as [Hp He].
  apply negb_true_iff in He.
  exists (JS.substring (JS.length basePath + 1) file).
  set (rel := JS.substring (JS.length basePath + 1) file).
  assert (Hfile : file = basePath ++ Path.sep ++ rel).
  { apply prefix_split in Hp. rewrite length_append in Hp.
    rewrite append_assoc' in Hp. exact Hp. }
  assert (Hrel : rel <> "").
  { intros Hempty. rewrite Hempty in Hfile.
    rewrite Hfile, (@endsWith_app basePath (Path.sep ++ "")) in He;
      [|discriminate].
    discriminate. }
  split; [exact Hfile|]. split; [exact Hrel|]. split.
  - rewrite Hfile, <- append_assoc', (@endsWith_app _ rel Hrel) in He. exact He.
  - intros outputPath. reflexivity.
Qed.

(** C5, the claim and the code: of the manifests that parse to a value
    without an [id] key, all but one are rejected with [DataInvalid]
    ("invalid or unsupported mod_info.json") after the file read, whatever
    their other properties, and give no instructions: the objects, the
    booleans, the numbers, the strings and the arrays. The manifest that
    parses to [null] is not: reading its [id] throws, the read is logged and
    gives the empty string, which is not [undefined], and so are the three
    other reads; the install goes on and is never rejected with
    [DataInvalid], and with a manifest below the root of the package it
    succeeds with three empty attributes and the copy instructions. *)
Theorem install_manifest_without_id (files : list string)
        (destinationPath gameId contentPath contentFile data : string)
        (parsed : jsval) :
  findManifest files = Some contentPath ->
  Path.join [PStr destinationPath; PStr contentPath] = inr contentFile ->
  readFileAsync contentFile = inr data ->
  rjson_parse (stripComments data) = inr parsed ->
  hasId parsed = false ->
  (parsed <> JNull -> parsed <> JUndefined ->
   install files destinationPath gameId
   = ([EvReadFile contentFile],
      inl (DataInvalid "invalid or unsupported mod_info.json")))
  /\ (parsed = JNull ->
      exists outcome,
        install files destinationPath gameId
        = ([EvReadFile contentFile;
            missingAttribute "id"; missingAttribute "name";
            missingAttribute "version"; missingAttribute "author"], outcome)
        /\ outcome <> inl (DataInvalid "invalid or unsupported mod_info.json")
        /\ ((0 < JS.indexOf contentPath MOD_INFO_FILE)%Z ->
            exists copies,
              outcome = inr ([Attribute "customFileName" (JStr "");
                              Attribute "version" (JStr "");
                              Attribute "author" (JStr "")] ++ copies)%list)).
Proof.
  intros Hfind Hjoin Hread Hparse Hid. split.
  - intros Hnull Hundef.
    rewrite (install_unfold _ _ _ _ _ Hfind Hjoin Hread).
    unfold manifestRead. rewrite Hparse.
    destruct parsed as [ | |b|q|s|items|props]; try contradiction; try reflexivity.
    unfold getAttr, getProperty. cbn [hasId] in Hid.
    destruct (assoc "id" props); [discriminate|reflexivity].
  - intros ->.
    rewrite (install_unfold _ _ _ _ _ Hfind Hjoin Hread).
    rewrite (@manifestRead_null contentPath (PStr (Path.dirname contentPath)) data Hparse).
    destruct (0 <? JS.indexOf contentPath MOD_INFO_FILE)%Z eqn:Hpos.
    + destruct (map_throwing_strings (Path.dirname contentPath)
                  (Path.basename (Path.dirname contentPath))
                  (List.filter (isCopied (Path.dirname contentPath)) files))
        as (copies & Hcopies & _).
      rewrite Hcopies. eexists. split; [reflexivity|]. split; [discriminate|].
      intros _. exists copies. reflexivity.
    + apply Z.ltb_ge in Hpos.
      destruct (map_throwing (copyOf (Path.dirname contentPath)
                                     (PRejected invalidManifest))
                             (List.filter (isCopied (Path.dirname contentPath)) files))
        as [e|copies] eqn:Hcopies.
      * apply map_throwing_copy_error in Hcopies. subst e.
        eexists. split; [reflexivity|]. split; [discriminate|]. lia.
      * eexists. split; [reflexivity|]. split; [discriminate|]. lia.
Qed.

End InstallerMore.

(** ** More on the probe and on the registrations *)

Lemma findManifest_first (before after : list string) (thatPath : string) :
  Path.basename thatPath = MOD_INFO_FILE ->
  (forall file, In file before -> Path.basename file <> MOD_INFO_FILE) ->
  findManifest (before ++ thatPath :: after)%list = Some thatPath.
Proof.
  intros Hthat Hbefore. unfold findManifest.
  induction before as [|f before IH]; simpl.
  - rewrite Hthat, String.eqb_refl. reflexivity.
  - destruct (String.eqb_spec (Path.basename f) MOD_INFO_FILE) as [E|_].
    + exfalso. apply (Hbefore f); [left; reflexivity|exact E].
    + apply IH. intros file Hin. apply Hbefore. right. exact Hin.
Qed.

(** X1: the probe makes no call and never fails. It answers
    [supported = true] exactly when the game is this one and some entry of
    the file list has the manifest name as its last segment; of several
    such entries, the first of the list is the one in [requiredFiles]. *)
Theorem testSupportedContent_supported (files : list string) (gameId : string) :
  exists p,
    testSupportedContent files gameId = ([], inr p)
    /\ (supported p = true <->
        gameId = GAME_ID
        /\ exists file, In file files /\ Path.basename file = MOD_INFO_FILE)
    /\ (forall before thatPath after,
           gameId = GAME_ID ->
           files = (before ++ thatPath :: after)%list ->
           Path.basename thatPath = MOD_INFO_FILE ->
           (forall file, In file before -> Path.basename file <> MOD_INFO_FILE) ->
           requiredFiles p = Some [Some thatPath]).
Proof.
  unfold testSupportedContent.
  destruct (String.eqb_spec gameId GAME_ID) as [->|Hne]; cbn [negb].
  - destruct (findManifest files) as [contentPath|] eqn:Hfind.
    + eexists. split; [reflexivity|]. cbn [supported requiredFiles]. split.
      * split; [intros _|reflexivity]. split; [reflexivity|].
        apply findManifest_some in Hfind. exists contentPath. exact Hfind.
      * intros before thatPath after _ -> Hthat Hbefore.
        rewrite (@findManifest_first before after thatPath Hthat Hbefore) in Hfind.
        injection Hfind as <-. reflexivity.
    + eexists. split; [reflexivity|]. cbn [supported requiredFiles]. split.
      * split; [discriminate|]. intros [_ [file [Hin Hbase]]].
        exfalso. exact (proj1 (findManifest_none files) Hfind file Hin Hbase).
      * intros before thatPath after _ -> Hthat Hbefore.
        rewrite (@findManifest_first before after thatPath Hthat Hbefore) in Hfind. discriminate.
  - eexists. split; [reflexivity|]. cbn [supported requiredFiles]. split.
    + split; [discriminate|]. intros [Heq _]. contradiction.
    + intros before thatPath after Heq. contradiction.
Qed.

Section ProbeAndInstall.

Variable readFileAsync : string -> error + string.
Variable rjson_parse : string -> string + jsval.

Local Abbreviation install := (installContent readFileAsync rjson_parse).

(** X2: the probe and the install agree on the manifest. When the probe
    for this game answers [supported = false], the install on the same file
    list fails with a type error without any call; when it answers
    [supported = true], the one path of [requiredFiles], joined with the
    staging path, is the file the install reads first. *)
Theorem probe_then_install (files : list string) (destinationPath gameId : string)
        (p : probe) :
  testSupportedContent files GAME_ID = resolve p ->
  (supported p = false ->
   install files destinationPath gameId = ([], inl TypeError))
  /\ (supported p = true ->
      exists thatPath contentFile calls,
        requiredFiles p = Some [Some thatPath]
        /\ Path.join [PStr destinationPath; PStr thatPath] = inr contentFile
        /\ fst (install files destinationPath gameId)
           = EvReadFile contentFile :: calls).
Proof.
  unfold testSupportedContent, resolve. rewrite String.eqb_refl. cbn [negb].
  intros H. injection H as <-. cbn [supported requiredFiles].
  destruct (findManifest files) as [contentPath|] eqn:Hfind.
  - split; [discriminate|]. intros _.
    destruct (join_strings destinationPath contentPath) as [contentFile Hjoin].
    exists contentPath, contentFile.
    destruct (readFileAsync contentFile) as [e|data] eqn:Hread.
    + exists []. unfold installContent. rewrite Hfind, Hjoin. simpl.
      rewrite Hread. repeat split; assumption.
    + rewrite (install_unfold _ _ _ _ _ Hfind Hjoin Hread).
      destruct (manifestRead rjson_parse contentPath _ data) as [t1 [e|[attrs o]]].
      * exists t1. repeat split; assumption.
      * destruct (map_throwing _ _); exists t1; repeat split; assumption.
  - split; [|discriminate]. intros _.
    unfold installContent. rewrite Hfind. reflexivity.
Qed.

Variable RegGetValue : string -> string -> string -> error + option regvalue.

(** X13: [main] returns [true] after two calls, in this order: one game
    and one installer of priority 50. The installer is registered under
    the identifier of the game, its probe supports no other game, and the
    executable of the game is among the files the game requires. *)
Theorem main_registrations :
  exists game probeOf installOf,
    main RegGetValue readFileAsync rjson_parse
    = ([RegisterGame game; RegisterInstaller (game_id game) 50 probeOf installOf], true)
    /\ (forall files gameId p,
           probeOf files gameId = resolve p -> supported p = true ->
           gameId = game_id game)
    /\ In (executable game tt) (game_requiredFiles game)
    /\ queryPath game tt = findGame RegGetValue
    /\ installOf = installContent readFileAsync rjson_parse.
Proof.
  exists (GameDescriptor GAME_ID "Starsector" true
                         (fun _ => findGame RegGetValue) (fun _ => "mods")
                         "gameart.jpg" (fun _ => "starsector.exe") ["starsector.exe"]),
         testSupportedContent, (installContent readFileAsync rjson_parse).
  split; [reflexivity|]. cbn [game_id executable game_requiredFiles queryPath].
  split; [|split; [left; reflexivity|split; reflexivity]].
  intros files gameId p. unfold testSupportedContent, resolve.
  destruct (String.eqb_spec gameId GAME_ID) as [->|Hne]; cbn [negb].
  - reflexivity.
  - intros H. injection H as <-. discriminate.
Qed.

End ProbeAndInstall.

(** ** The further properties on sample packages *)

Lemma testSupportedContent_supported_witness :
  exists p,
    testSupportedContent ["a/readme.txt"; "a/mod_info.json"; "b/mod_info.json"] GAME_ID
    = ([], inr p)
    /\ supported p = true
    /\ requiredFiles p = Some [Some "a/mod_info.json"].
Proof.
  destruct (testSupportedContent_supported
              ["a/readme.txt"; "a/mod_info.json"; "b/mod_info.json"] GAME_ID)
    as (p & Hp & Hiff & Hfirst).
  exists p. split; [exact Hp|]. split.
  - apply Hiff. split; [reflexivity|].
    exists "a/mod_info.json". split; [right; left; reflexivity|reflexivity].
  - apply (Hfirst ["a/readme.txt"] "a/mod_info.json" ["b/mod_info.json"]);
      try reflexivity.
    intros file [<-|[]]. vm_compute. discriminate.
Defined.

Lemma probe_then_install_witness :
  exists thatPath contentFile calls,
    Some [Some "mod1/mod_info.json"] = Some [Some thatPath]
    /\ Path.join [PStr "/staging"; PStr thatPath] = inr contentFile
    /\ fst (installContent (sampleRead (stagedDisk fullText))
                           (sampleParse [(fullStripped, inr fullManifest)])
                           packageFiles "/staging" GAME_ID)
       = EvReadFile contentFile :: calls.
Proof.
  destruct (@probe_then_install
              (sampleRead (stagedDisk fullText))
              (sampleParse [(fullStripped, inr fullManifest)])
              packageFiles "/staging" GAME_ID
              (Probe true (Some [Some "mod1/mod_info.json"])) eq_refl)
    as [_ H].
  exact (H eq_refl).
Defined.

Lemma install_read_failure_witness :
  installContent (sampleRead []) (sampleParse []) packageFiles "/staging" GAME_ID
  = ([EvReadFile "/staging/mod1/mod_info.json"], inl (HostError "ENOENT")).
Proof.
  apply (@install_read_failure (sampleRead []) (sampleParse []) packageFiles
           "/staging" GAME_ID "mod1/mod_info.json" "/staging/mod1/mod_info.json"
           (HostError "ENOENT"));
    reflexivity.
Defined.


Lemma install_name_or_version_not_a_string_witness :
  installContent (sampleRead (stagedDisk structuredText))
                 (sampleParse [(structuredText, inr structuredManifest)])
                 packageFiles "/staging" GAME_ID
  = ([EvReadFile "/staging/mod1/mod_info.json"], inl TypeError).
Proof.
  apply (@install_name_or_version_not_a_string
           (sampleRead (stagedDisk structuredText))
           (sampleParse [(structuredText, inr structuredManifest)])
           packageFiles "/staging" GAME_ID
           "mod1/mod_info.json" "/staging/mod1/mod_info.json" structuredText
           [("id", JStr "mod1"); ("name", JStr "My Mod");
            ("version", JObj [("major", JStr "1"); ("minor", JStr "0")])]);
    try (vm_compute; reflexivity).
  vm_compute. discriminate.
Defined.


Example install_success_sample :
  installContent (sampleRead (nestedDisk spacedText))
                 (sampleParse [(spacedText, inr spacedManifest)])
                 nestedFiles "/staging" GAME_ID
  = ([EvReadFile "/staging/a/b/mod_info.json"],
     inr [Attribute "customFileName" (JStr "My Mod");
          Attribute "version" (JStr "1.0");
          Attribute "author" JUndefined;
          Copy "a/b/mod_info.json" "b/mod_info.json";
          Copy "a/b/c/d.txt" "b/c/d.txt"]).
Proof. vm_compute. reflexivity. Qed.

Lemma manifestRead_ignores_id_witness :
  manifestRead (sampleParse [("{id:'mod1', name:'n', version:'1'}",
                              inr (JObj [("id", JStr "mod1"); ("name", JStr "n");
                                         ("version", JStr "1")]));
                             ("{id:'', name:'n', version:'1'}",
                              inr (JObj [("id", JStr ""); ("name", JStr "n");
                                         ("version", JStr "1")]))])
               "mod1/mod_info.json" (PStr "mod1") "{id:'mod1', name:'n', version:'1'}"
  = manifestRead (sampleParse [("{id:'mod1', name:'n', version:'1'}",
                                inr (JObj [("id", JStr "mod1"); ("name", JStr "n");
                                           ("version", JStr "1")]));
                               ("{id:'', name:'n', version:'1'}",
                                inr (JObj [("id", JStr ""); ("name", JStr "n");
                                           ("version", JStr "1")]))])
                 "mod1/mod_info.json" (PStr "mod1") "{id:'', name:'n', version:'1'}".
Proof.
  apply (@manifestRead_ignores_id _ "mod1/mod_info.json" (PStr "mod1")
           "{id:'mod1', name:'n', version:'1'}" "{id:'', name:'n', version:'1'}"
           (JStr "mod1") (JStr "") [("name", JStr "n"); ("version", JStr "1")]);
    try (vm_compute; reflexivity); discriminate.
Defined.

Lemma install_attributes_witness :
  exists attrs copies,
    [Attribute "customFileName" (JStr "My Mod");
     Attribute "version" (JStr "1.0");
     Attribute "author" (JStr "Alice");
     Copy "mod1/mod_info.json" "mod1/mod_info.json";
     Copy "mod1/data/foo.txt" "mod1/data/foo.txt"] = (attrs ++ copies)%list
    /\ forallb (fun i => negb (isAttribute i)) copies = true
    /\ (List.length copies <= List.length packageFiles)%nat
    /\ ((attrs = []
         /\ exists contentFile message,
             [EvReadFile "/staging/mod1/mod_info.json"]
             = [EvReadFile contentFile;
                EvLog "warn" ("mod_info.json invalid: " ++ message) []])
        \/ exists name version author,
            attrs = [Attribute "customFileName" (JStr name);
                     Attribute "version" (JStr version);
                     Attribute "author" author]).
Proof.
  apply (@install_attributes
           (sampleRead (stagedDisk fullText))
           (sampleParse [(fullStripped, inr fullManifest)])
           packageFiles "/staging" GAME_ID).
  vm_compute. reflexivity.
Defined.

Lemma stripComments_without_hash_witness :
  stripComments "{id:'it\'s', name:'My Mod', }" = "{id:'it\'s', name:'My Mod', }".
Proof. apply stripComments_without_hash. reflexivity. Defined.

Lemma stripComments_block_comment_unused_witness :
  stripComments (String hash (String star (" a block" ++ String "010"%char "of two lines *#")))
  = String "010"%char (stripComments "of two lines *#").
Proof.
  destruct stripComments_block_comment_unused as [_ H].
  apply (H " a block" "of two lines *#"). reflexivity.
Defined.

Example stripComments_block_comment_sample :
  stripComments (String hash (String star (" a block" ++ String "010"%char "of two lines *#")))
  = String "010"%char "of two lines *".
Proof. vm_compute. reflexivity. Qed.

Lemma stripComments_keeps_span_witness :
  stripComments (String hash (" note " ++ String hash " id: 1"))
  = String hash (" note " ++ String hash (stripComments " id: 1")).
Proof. apply stripComments_keeps_span. reflexivity. Defined.

Lemma main_registrations_witness :
  exists game,
    (exists probeOf installOf,
        main (fun _ _ _ => inr None) (sampleRead []) (sampleParse [])
        = ([RegisterGame game; RegisterInstaller (game_id game) 50 probeOf installOf],
           true))
    /\ "starsector" = game_id game
    /\ In "starsector.exe" (game_requiredFiles game).
Proof.
  destruct (main_registrations (sampleRead []) (sampleParse []) (fun _ _ _ => inr None))
    as (game & probeOf & installOf & Hmain & Hprobe & Hexe & _).
  exists game. split; [exists probeOf, installOf; exact Hmain|].
  unfold main in Hmain. injection Hmain as Hgame _ Hp _.
  split.
  - apply (Hprobe packageFiles "starsector" (Probe true (Some [Some "mod1/mod_info.json"])));
      [rewrite <- Hp|]; reflexivity.
  - rewrite <- Hgame in Hexe |- *. exact Hexe.
Defined.

Lemma install_failures_witness :
  (findManifest packageFiles = None
   /\ [EvReadFile "/staging/mod1/mod_info.json"] = [] /\ invalidManifest = TypeError)
  \/ exists contentPath contentFile,
      findManifest packageFiles = Some contentPath
      /\ Path.join [PStr "/staging"; PStr contentPath] = inr contentFile
      /\ (sampleRead (stagedDisk "{name:'My Mod'}") contentFile = inl invalidManifest
          /\ [EvReadFile "/staging/mod1/mod_info.json"] = [EvReadFile contentFile]
          \/ exists data parsed,
              sampleRead (stagedDisk "{name:'My Mod'}") contentFile = inr data
              /\ sampleParse [("{name:'My Mod'}", inr (JObj [("name", JStr "My Mod")]))]
                             (stripComments data) = inr parsed
              /\ (invalidManifest = TypeError
                  \/ (invalidManifest = invalidManifest
                      /\ [EvReadFile "/staging/mod1/mod_info.json"]
                         = [EvReadFile contentFile]
                      /\ getProperty parsed "id" = inr JUndefined))).
Proof.
  apply (@install_failures
           (sampleRead (stagedDisk "{name:'My Mod'}"))
           (sampleParse [("{name:'My Mod'}", inr (JObj [("name", JStr "My Mod")]))])
           packageFiles "/staging" GAME_ID
           [EvReadFile "/staging/mod1/mod_info.json"] invalidManifest).
  vm_compute. reflexivity.
Defined.

Lemma isCopied_relative_witness :
  exists rel,
    "mod1/data/foo.txt" = "mod1" ++ Path.sep ++ rel
    /\ rel <> ""
    /\ JS.endsWith rel Path.sep = false
    /\ forall outputPath,
        copyOf "mod1" outputPath "mod1/data/foo.txt"
        = match Path.join [outputPath; PStr rel] with
          | inl e => inl e
          | inr destination => inr (Copy "mod1/data/foo.txt" destination)
          end.
Proof. apply (@isCopied_relative "mod1" "mod1/data/foo.txt"). reflexivity. Defined.

Lemma install_scalar_manifest_witness :
  installContent (sampleRead (stagedDisk "[true, 'a']"))
                 (sampleParse [("[true, 'a']", inr (JArr [JBool true; JStr "a"]))])
                 packageFiles "/staging" GAME_ID
  = ([EvReadFile "/staging/mod1/mod_info.json"], inl invalidManifest).
Proof.
  apply (@install_scalar_manifest
           (sampleRead (stagedDisk "[true, 'a']"))
           (sampleParse [("[true, 'a']", inr (JArr [JBool true; JStr "a"]))])
           packageFiles "/staging" GAME_ID
           "mod1/mod_info.json" "/staging/mod1/mod_info.json" "[true, 'a']"
           (JArr [JBool true; JStr "a"]));
    vm_compute; reflexivity.
Defined.

Lemma stripComments_unclosed_quote_witness :
  stripComments (String apostrophe ("s here # and there" ++ ""))
  = String apostrophe (stripComments ("s here # and there" ++ "")).
Proof.
  apply (@stripComments_unclosed_quote apostrophe "s here # and there" "");
    [right; reflexivity|vm_compute; reflexivity|reflexivity].
Defined.

Example stripComments_unclosed_quote_sample :
  stripComments "it's here # and there" = "it's here ".
Proof. vm_compute. reflexivity. Qed.

Lemma stripComments_keeps_escaped_literal_witness :
  stripComments (String quote (escapedAuthor ++ String quote " # the author"))
  = String quote (escapedAuthor ++ String quote (stripComments " # the author")).
Proof.
  apply (@stripComments_keeps_escaped_literal quote escapedAuthor " # the author");
    [left; reflexivity|vm_compute; reflexivity].
Defined.

Lemma install_manifest_without_id_witness :
  exists outcome,
    installContent (sampleRead (stagedDisk "null")) (sampleParse [("null", inr JNull)])
                   packageFiles "/staging" GAME_ID
    = ([EvReadFile "/staging/mod1/mod_info.json";
        missingAttribute "id"; missingAttribute "name";
        missingAttribute "version"; missingAttribute "author"], outcome)
    /\ outcome <> inl (DataInvalid "invalid or unsupported mod_info.json")
    /\ exists copies,
        outcome = inr ([Attribute "customFileName" (JStr "");
                        Attribute "version" (JStr "");
                        Attribute "author" (JStr "")] ++ copies)%list.
Proof.
  destruct (@install_manifest_without_id
              (sampleRead (stagedDisk "null")) (sampleParse [("null", inr JNull)])
              packageFiles "/staging" GAME_ID
              "mod1/mod_info.json" "/staging/mod1/mod_info.json" "null" JNull)
    as [_ Hnull]; try (vm_compute; reflexivity).
  destruct (Hnull eq_refl) as (outcome & Hrun & Hnot & Hbelow).
  exists outcome. split; [exact Hrun|]. split; [exact Hnot|].
  apply Hbelow. vm_compute. reflexivity.
Defined.

(** The manifest [null] on the documented package: the install succeeds
    with three empty attributes and copies both entries. *)
Example install_null_manifest_sample :
  installContent (sampleRead (stagedDisk "null")) (sampleParse [("null", inr JNull)])
                 packageFiles "/staging" GAME_ID
  = ([EvReadFile "/staging/mod1/mod_info.json";
      missingAttribute "id"; missingAttribute "name";
      missingAttribute "version"; missingAttribute "author"],
     inr [Attribute "customFileName" (JStr "");
          Attribute "version" (JStr "");
          Attribute "author" (JStr "");
          Copy "mod1/mod_info.json" "mod1/mod_info.json";
          Copy "mod1/data/foo.txt" "mod1/data/foo.txt"]).
Proof. vm_compute. reflexivity. Qed.
